(** * Rocket.Chat channel plugin: inbound pipeline and outbound sender

    A shallow embedding of [src/channel.ts] (allow-list helpers, markdown
    detection, the three send functions, [handleRocketChatMessage] and the
    webhook handler registered by [gateway.startAccount]) together with the
    properties its specification states about them; then of the rest of the
    plugin object (accounts, targets, outbound functions, stopping an
    account), of [rocketChatWebhookHandler] of [src/webhook-handler.ts] and
    of the helpers of [utils.ts], with the properties the code itself shows.

    Conventions of the embedding.
    - A JavaScript string is the list of its UTF-16 code units ([jsstring]).
    - [undefined]/[null] are [None]; an optional string is [option jsstring]
      and JavaScript truthiness of it is [truthy].
    - Asynchronous functions are run to completion; effects are recorded as a
      chronological list of [event]s, exceptions as the [Throw] outcome.
    - Built-ins and host services that are not part of the repository
      ([String.prototype.toLowerCase], [JSON.parse], [URLSearchParams],
      [axios], the plugin runtime) are Section variables: every theorem holds
      for each implementation of them. *)

From Stdlib Require Import List NArith ZArith Bool String Ascii Lia.
From Stdlib Require Import DecimalString.
Import ListNotations.

Set Implicit Arguments.
Set Warnings "-register-all".

(* ================================================================== *)
(** * JavaScript strings *)
(* ================================================================== *)

Definition jsstring := list N.

(** An ASCII literal as a JavaScript string. *)
Definition js (s : string) : jsstring :=
  map N_of_ascii (list_ascii_of_string s).

Fixpoint str_eqb (a b : jsstring) : bool :=
  match a, b with
  | [], [] => true
  | x :: a', y :: b' => N.eqb x y && str_eqb a' b'
  | _, _ => false
  end.

(** [s.length > 0], the truthiness of a string. *)
Definition nonEmpty (s : jsstring) : bool :=
  match s with [] => false | _ :: _ => true end.

(** Truthiness of [string | null | undefined]. *)
Definition truthy (o : option jsstring) : bool :=
  match o with Some s => nonEmpty s | None => false end.

(** [a || b] on optional strings with a string default. *)
Definition orDefault (o : option jsstring) (d : jsstring) : jsstring :=
  match o with
  | Some s => if nonEmpty s then s else d
  | None => d
  end.

(** ECMAScript WhiteSpace and LineTerminator code units, the set removed by
    [String.prototype.trim]. *)
Definition isWhiteSpace (c : N) : bool :=
  ((9 <=? c) && (c <=? 13) || (c =? 32) || (c =? 160) || (c =? 5760)
   || (8192 <=? c) && (c <=? 8202) || (c =? 8232) || (c =? 8233)
   || (c =? 8239) || (c =? 8287) || (c =? 12288) || (c =? 65279))%N.

Fixpoint trimStart (s : jsstring) : jsstring :=
  match s with
  | c :: s' => if isWhiteSpace c then trimStart s' else s
  | [] => []
  end.

Definition trimEnd (s : jsstring) : jsstring := rev (trimStart (rev s)).

Definition trim (s : jsstring) : jsstring := trimEnd (trimStart s).

(** [s.startsWith(p)] *)
Fixpoint startsWith (p s : jsstring) : bool :=
  match p, s with
  | [], _ => true
  | x :: p', y :: s' => N.eqb x y && startsWith p' s'
  | _ :: _, [] => false
  end.

(** [s.includes(p)] for strings. *)
Fixpoint includes (p s : jsstring) : bool :=
  startsWith p s ||
  match s with
  | [] => false
  | _ :: s' => includes p s'
  end.

(** [arr.includes(x)] for arrays of strings. *)
Definition arrayIncludes (x : jsstring) (arr : list jsstring) : bool :=
  existsb (str_eqb x) arr.

(** Canonicalisation used by a regular expression with the [i] flag and
    without the [u] flag, on the code units that can match an ASCII pattern
    character: a code unit of 128 or more never canonicalises to an ASCII
    one, so only the ASCII letters fold. *)
Definition canonicalize (c : N) : N :=
  if ((97 <=? c) && (c <=? 122))%N then (c - 32)%N else c.

(** Match the literal [pat] at the start of [s], ignoring ASCII case;
    the result is what follows the match. *)
Fixpoint matchPrefixCI (pat s : jsstring) : option jsstring :=
  match pat, s with
  | [], _ => Some s
  | p :: pat', c :: s' =>
      if N.eqb (canonicalize p) (canonicalize c)
      then matchPrefixCI pat' s' else None
  | _ :: _, [] => None
  end.

(** [value.replace(/^(rocketchat|rc|rocket):/i, '')]: the alternatives are
    tried in the order they are written, each followed by the colon. *)
Definition stripProviderPrefix (value : jsstring) : jsstring :=
  match matchPrefixCI (js "rocketchat:") value with
  | Some rest => rest
  | None =>
      match matchPrefixCI (js "rc:") value with
      | Some rest => rest
      | None =>
          match matchPrefixCI (js "rocket:") value with
          | Some rest => rest
          | None => value
          end
      end
  end.

(** ASCII instance of [toLowerCase], used to run the definitions on
    concrete inputs (the built-in agrees with it on ASCII strings). *)
Definition asciiLower (s : jsstring) : jsstring :=
  map (fun c => if ((65 <=? c) && (c <=? 90))%N then (c + 32)%N else c) s.

(* ================================================================== *)
(** * Data model ([src/types.ts]) *)
(* ================================================================== *)

Record NormalizedAllowFrom := {
  entries : list jsstring;
  entriesLower : list jsstring;
  hasWildcard : bool;
  hasEntries : bool
}.

Inductive DmPolicy := PolicyOpen | PolicyPairing | PolicyAllowlist.

Inductive GroupPolicy := GroupOpen | GroupAllowlist.

Record RocketChatConfig := {
  enabled : option bool;
  webhookUrl : jsstring;
  authToken : jsstring;
  dmPolicy : option DmPolicy;
  groupPolicy : option GroupPolicy;
  allowFrom : option (list jsstring);
  showThinking : option bool
}.

(** The host configuration; the plugin reads [cfg.session?.store] and hands
    the object back to the host. *)
Record OpenClawConfig := {
  session_store : option jsstring;
  channels_rocketchat : option RocketChatConfig
}.

(** The payload of the provider. The route validates [token], [user_id]
    and [text] only, so a payload may reach the pipeline without its
    [message_id] or [timestamp]; the pipeline hands both on unread, and
    they are [None] when the payload left them out. *)
Record RocketChatInboundMessage := {
  token : jsstring;
  bot : bool;
  channel_id : jsstring;
  channel_name : option jsstring;
  message_id : option jsstring;
  timestamp : option jsstring;
  user_id : jsstring;
  user_name : jsstring;
  text : option jsstring;
  siteUrl : jsstring
}.

Record RocketChatOutboundMessage := { out_text : jsstring }.

Record MessageContent := {
  content_text : jsstring;
  messageType : jsstring
}.

(** A logger handle; [console] is the fallback the gateway passes. *)
Definition Logger := nat.

Definition console : Logger := 0.

Record SendMessageOptions := {
  useMarkdown : option bool;
  title : option jsstring;
  atUserId : option jsstring;
  log : option Logger;
  sessionWebhook : option jsstring;
  accountId : option jsstring
}.

(** [result.data] of a provider call. *)
Definition AxiosResponse := jsstring.

Record JsError := { message : jsstring }.

(** The result of [sendMessage]. *)
Record DeliveryResult := {
  ok : bool;
  error : option jsstring;
  data : option AxiosResponse
}.

Record HandleRocketChatMessageParams := {
  p_cfg : OpenClawConfig;
  p_accountId : jsstring;
  p_data : RocketChatInboundMessage;
  p_sessionWebhook : jsstring;
  p_log : Logger;
  p_rocketchatConfig : RocketChatConfig
}.

(** The argument of [axios(...)]: both send functions POST JSON. *)
Record AxiosRequest := {
  url : jsstring;
  method : jsstring;
  req_data : RocketChatOutboundMessage;
  content_type : jsstring
}.

(* ------------------------------------------------------------------ *)
(** ** Host runtime interface *)

Inductive PeerKind := PeerDm | PeerGroup.

Inductive ChatType := Direct | Group.

Record Route := {
  agentId : jsstring;
  sessionKey : jsstring;
  mainSessionKey : jsstring
}.

Record EnvelopeArgs := {
  env_channel : jsstring;
  env_from : jsstring;
  env_timestamp : option jsstring;
  env_body : jsstring;
  env_chatType : ChatType;
  env_sender_name : jsstring;
  env_sender_id : jsstring;
  env_previousTimestamp : option jsstring;
  env_envelope : nat
}.

(** The object handed to [finalizeInboundContext]. *)
Record InboundContext := {
  Body : jsstring;
  RawBody : jsstring;
  CommandBody : jsstring;
  From : jsstring;
  To : jsstring;
  SessionKey : jsstring;
  AccountId : jsstring;
  ChatType_ : ChatType;
  ConversationLabel : jsstring;
  GroupSubject : option jsstring;
  SenderName : jsstring;
  SenderId : jsstring;
  Provider : jsstring;
  Surface : jsstring;
  MessageSid : option jsstring;
  Timestamp : option jsstring;
  MediaPath : option jsstring;
  MediaType : option jsstring;
  MediaUrl : option jsstring;
  CommandAuthorized : bool;
  OriginatingChannel : jsstring;
  OriginatingTo : jsstring
}.

Record RecordSessionArgs := {
  rec_storePath : jsstring;
  rec_sessionKey : jsstring;
  rec_ctx : InboundContext;
  rec_last_sessionKey : jsstring;
  rec_last_channel : jsstring;
  rec_last_to : jsstring;
  rec_last_accountId : jsstring
}.

(** A block the host dispatcher hands to the [deliver] callback. *)
Record ReplyPayload := {
  payload_markdown : option jsstring;
  payload_text : option jsstring
}.

(** [getRocketChatRuntime()]: the services of [rt.channel]. The host's
    buffered block dispatcher is represented by the blocks it emits for a
    context; it awaits [deliver] on each in turn. *)
Record PluginRuntime := {
  resolveAgentRoute :
    OpenClawConfig -> jsstring -> jsstring -> PeerKind -> jsstring -> Route;
  resolveStorePath : option jsstring -> jsstring -> jsstring;
  resolveEnvelopeFormatOptions : OpenClawConfig -> nat;
  readSessionUpdatedAt : jsstring -> jsstring -> option jsstring;
  formatInboundEnvelope : EnvelopeArgs -> jsstring;
  finalizeInboundContext : InboundContext -> InboundContext;
  dispatchedBlocks : InboundContext -> OpenClawConfig -> list ReplyPayload
}.

(* ------------------------------------------------------------------ *)
(** ** Decoded request bodies and the HTTP objects of the webhook route *)

(** Values produced by [JSON.parse]; numbers are kept as integers, which is
    all the handler's truthiness tests distinguish. *)
Inductive jsvalue :=
| JNull
| JBool (b : bool)
| JNum (n : Z)
| JStr (s : jsstring)
| JArr (l : list jsvalue)
| JObj (fields : list (jsstring * jsvalue)).

Inductive ResBody :=
| TextBody (s : jsstring)
| JsonBody (v : jsvalue).

(** [res]: the status code, the headers set so far (latest first) and the
    argument of [res.end], once called. *)
Record ServerResponse := {
  statusCode : nat;
  headers : list (jsstring * jsstring);
  ended : option ResBody
}.

Record IncomingMessage := {
  req_method : jsstring;
  req_content_type : option jsstring;
  req_host : option jsstring;
  req_url : jsstring;
  req_body : jsstring
}.

Record GatewayStartContext := {
  account_accountId : jsstring;
  account_config : RocketChatConfig;
  ctx_cfg : OpenClawConfig;
  ctx_log : option Logger
}.

(** The closure queued by [setTimeout(..., 0)] in the webhook handler:
    the arguments of the deferred [handleRocketChatMessage] call. *)
Record Timer := {
  timer_cfg : OpenClawConfig;
  timer_accountId : jsstring;
  timer_data : jsvalue;
  timer_sessionWebhook : jsstring;
  timer_log : Logger;
  timer_ctx_log : option Logger;
  timer_rocketchatConfig : RocketChatConfig
}.

(* ------------------------------------------------------------------ *)
(** ** Observable effects *)

Inductive level := LInfo | LDebug | LWarn | LError.

(** One constructor per logging site of [channel.ts]. *)
Inductive logmsg :=
| MsgProactiveTarget (target : jsstring)
| MsgSendingPayload (payload : RocketChatOutboundMessage)
| MsgSendFailed (m : jsstring)
| MsgFullInbound
| MsgInvalidToken (tok : jsstring)
| MsgIgnoringBot
| MsgDmBlocked (senderId : jsstring)
| MsgDeniedNoticeFailed (m : jsstring)
| MsgDmAuthorized (senderId : jsstring)
| MsgInbound (senderName text50 : jsstring)
| MsgThinkingFailed (m : jsstring)
| MsgReplyFailed (m : jsstring)
| MsgGetVerification
| MsgMethodNotAllowed
| MsgTokenMismatch
| MsgMissingFields
| MsgProcessingError (m : jsstring)
| MsgParseError (m : jsstring)
| MsgRawBody (body : jsstring)
| MsgWebhookError (m : jsstring).

Inductive event :=
| ELog (lg : Logger) (lvl : level) (m : logmsg)
| EAxios (rq : AxiosRequest)
| EResolveAgentRoute (kind : PeerKind) (peer : jsstring)
| EFormatInboundEnvelope (args : EnvelopeArgs)
| EFinalizeInboundContext (ctx : InboundContext)
| ERecordInboundSession (args : RecordSessionArgs)
| EDispatchReply (ctx : InboundContext).

(** Module state: the global [currentLogger], the number of provider calls
    made so far, and, for the webhook route, the response object and the
    timer queue. *)
Record state := {
  currentLogger : option Logger;
  posts : nat;
  res : ServerResponse;
  timers : list Timer
}.

Inductive outcome (A : Type) :=
| Ret (a : A)
| Throw (e : JsError).

Arguments Ret {A} a.
Arguments Throw {A} e.

(** A computation: from a state to an outcome, the new state and the events
    it emitted, oldest first. *)
Definition M (A : Type) : Type := state -> outcome A * state * list event.

Definition ret {A} (a : A) : M A := fun s => (Ret a, s, []).

Definition bind {A B} (m : M A) (k : A -> M B) : M B :=
  fun s =>
    match m s with
    | (Ret a, s1, ev1) =>
        match k a s1 with
        | (o, s2, ev2) => (o, s2, ev1 ++ ev2)
        end
    | (Throw e, s1, ev1) => (Throw e, s1, ev1)
    end.

Definition throw {A} (e : JsError) : M A := fun s => (Throw e, s, []).

(** [try { m } catch (err) { h err }] *)
Definition tryCatch {A} (m : M A) (h : JsError -> M A) : M A :=
  fun s =>
    match m s with
    | (Ret a, s1, ev1) => (Ret a, s1, ev1)
    | (Throw e, s1, ev1) =>
        match h e s1 with
        | (o, s2, ev2) => (o, s2, ev1 ++ ev2)
        end
    end.

Definition emit (e : event) : M unit := fun s => (Ret tt, s, [e]).

Declare Scope js_scope.
Delimit Scope js_scope with js.

Notation "x <- m ;; k" := (bind m (fun x => k))
  (at level 100, m at next level, right associativity) : js_scope.
Notation "m ;; k" := (bind m (fun _ => k))
  (at level 100, right associativity) : js_scope.

Open Scope js_scope.

Definition outcomeOf {A} (r : outcome A * state * list event) : outcome A :=
  fst (fst r).

Definition stateOf {A} (r : outcome A * state * list event) : state :=
  snd (fst r).

Definition eventsOf {A} (r : outcome A * state * list event) : list event :=
  snd r.

(** [log.level(msg)] on a logger that is there. *)
Definition logTo (lg : Logger) (lvl : level) (m : logmsg) : M unit :=
  emit (ELog lg lvl m).

(** [log?.level?.(msg)] on an optional logger. *)
Definition logOpt (lg : option Logger) (lvl : level) (m : logmsg) : M unit :=
  match lg with
  | Some l => logTo l lvl m
  | None => ret tt
  end.

Definition getLogger : M (option Logger) :=
  fun s => (Ret (currentLogger s), s, []).

Definition setCurrentLogger (lg : Logger) : M unit :=
  fun s =>
    (Ret tt,
     {| currentLogger := Some lg; posts := posts s;
        res := res s; timers := timers s |},
     []).

(* ================================================================== *)
(** * The channel module ([src/channel.ts]) *)
(* ================================================================== *)

Section Channel.

(** [String.prototype.toLowerCase] *)
Variable toLowerCase : jsstring -> jsstring.

(** [axios(request)]: the outcome of the n-th provider call, either the
    error it throws or [result.data]. *)
Variable axios : nat -> AxiosRequest -> JsError + AxiosResponse.

(** [getRocketChatRuntime()] *)
Variable rt : PluginRuntime.

(** [JSON.parse]: the error it throws or the value. *)
Variable JSON_parse : jsstring -> JsError + jsvalue.

(** [Object.fromEntries(new URLSearchParams(body).entries())] *)
Variable formEntries : jsstring -> list (jsstring * jsstring).

(* ------------------------------------------------------------------ *)
(** ** Authorization helpers *)

Definition normalizeAllowFrom (list : option (list jsstring))
  : NormalizedAllowFrom :=
  let entries0 :=
    filter nonEmpty (map trim (match list with Some l => l | None => [] end)) in
  let hasWildcard0 := arrayIncludes (js "*") entries0 in
  let normalized :=
    map stripProviderPrefix
        (filter (fun value => negb (str_eqb value (js "*"))) entries0) in
  let normalizedLower := map toLowerCase normalized in
  {| entries := normalized;
     entriesLower := normalizedLower;
     hasWildcard := hasWildcard0;
     hasEntries := match entries0 with [] => false | _ :: _ => true end |}.

Definition isSenderAllowed (allow : NormalizedAllowFrom)
           (senderId : option jsstring) : bool :=
  if negb (hasEntries allow) then true
  else if hasWildcard allow then true
  else
    match senderId with
    | Some s =>
        if nonEmpty s && arrayIncludes (toLowerCase s) (entriesLower allow)
        then true else false
    | None => false
    end.

(* ------------------------------------------------------------------ *)
(** ** Markdown detection *)

(** The character class [[#*>-]]. *)
Definition isLeader (c : N) : bool :=
  ((c =? 35) || (c =? 42) || (c =? 62) || (c =? 45))%N.

(** The character class of the second alternative: star, underscore,
    backtick, hash and the two square brackets. *)
Definition isInline (c : N) : bool :=
  ((c =? 42) || (c =? 95) || (c =? 96) || (c =? 35) || (c =? 91) || (c =? 93))%N.

(** The regular expression test of [detectMarkdown]: a leader character at
    index 0, or an inline character anywhere. *)
Definition markdownRegexTest (text : jsstring) : bool :=
  match text with
  | c :: _ => isLeader c
  | [] => false
  end || existsb isInline text.

Definition detectMarkdown (text : jsstring) (options : SendMessageOptions)
  : bool :=
  let hasMarkdown := markdownRegexTest text || includes [10%N] text in
  negb (match useMarkdown options with Some false => true | _ => false end)
  && (match useMarkdown options with Some true => true | _ => hasMarkdown end).

(* ------------------------------------------------------------------ *)
(** ** Outbound sender *)

Definition axiosCall (rq : AxiosRequest) : M AxiosResponse :=
  fun s =>
    let s' := {| currentLogger := currentLogger s; posts := S (posts s);
                 res := res s; timers := timers s |} in
    match axios (posts s) rq with
    | inl e => (Throw e, s', [EAxios rq])
    | inr d => (Ret d, s', [EAxios rq])
    end.

Definition postJson (u : jsstring) (payload : RocketChatOutboundMessage)
  : AxiosRequest :=
  {| url := u; method := js "POST"; req_data := payload;
     content_type := js "application/json" |}.

Definition sendProactive (config : RocketChatConfig) (target text : jsstring)
           (options : SendMessageOptions) : M AxiosResponse :=
  current <- getLogger ;;
  let log0 := match log options with Some l => Some l | None => current end in
  logOpt log0 LDebug (MsgProactiveTarget target) ;;
  let payload := {| out_text := text |} in
  let payload :=
    if detectMarkdown text options then {| out_text := text |} else payload in
  logOpt log0 LDebug (MsgSendingPayload payload) ;;
  axiosCall (postJson (webhookUrl config) payload).

(** The template [`${t} @${id}`]. *)
Definition withMention (t id : jsstring) : jsstring := t ++ js " @" ++ id.

Definition sendBySession (config : RocketChatConfig)
           (sessionWebhook0 text : jsstring) (options : SendMessageOptions)
  : M AxiosResponse :=
  let useMarkdown0 := detectMarkdown text options in
  let body :=
    if useMarkdown0 then
      let finalText := text in
      let finalText :=
        match atUserId options with
        | Some id => if nonEmpty id then withMention finalText id else finalText
        | None => finalText
        end in
      {| out_text := finalText |}
    else {| out_text := text |} in
  let body :=
    match atUserId options with
    | Some id =>
        if nonEmpty id then {| out_text := withMention (out_text body) id |}
        else body
    | None => body
    end in
  axiosCall (postJson (webhookUrl config) body).

Definition sendMessage (config : RocketChatConfig)
           (conversationId text : jsstring) (options : SendMessageOptions)
  : M DeliveryResult :=
  tryCatch
    (match sessionWebhook options with
     | Some sw =>
         if nonEmpty sw then
           sendBySession config sw text options ;;
           ret {| ok := true; error := None; data := None |}
         else
           result <- sendProactive config conversationId text options ;;
           ret {| ok := true; error := None; data := Some result |}
     | None =>
         result <- sendProactive config conversationId text options ;;
         ret {| ok := true; error := None; data := Some result |}
     end)
    (fun err =>
       logOpt (log options) LError (MsgSendFailed (message err)) ;;
       ret {| ok := false; error := Some (message err); data := None |}).

(* ------------------------------------------------------------------ *)
(** ** Inbound pipeline *)

Definition extractMessageContent (data0 : RocketChatInboundMessage)
  : MessageContent :=
  {| content_text := match text data0 with Some t => trim t | None => [] end;
     messageType := js "text" |}.

(** [!data.channel_name || data.channel_name.startsWith('@')] *)
Definition isDirectMessage (data0 : RocketChatInboundMessage) : bool :=
  match channel_name data0 with
  | Some n => negb (nonEmpty n) || startsWith (js "@") n
  | None => true
  end.

(** The denial notice: U+26D4, then the text with the sender id between
    backticks. *)
Definition accessRestrictedText (senderId : jsstring) : jsstring :=
  [9940%N] ++ js " Access restricted" ++ [10%N; 10%N]
  ++ js "Your user ID: `" ++ senderId ++ js "`" ++ [10%N; 10%N]
  ++ js "Please contact administrator to add this ID to the allowlist.".

(** U+1F914 as a surrogate pair, then the text. *)
Definition thinkingText : jsstring :=
  [55358%N; 56596%N] ++ js " Thinking, please wait...".

Definition replyOptions (sessionWebhook0 senderId accountId0 : jsstring)
           (isDirect : bool) (log0 : Logger) : SendMessageOptions :=
  {| useMarkdown := None; title := None;
     atUserId := if negb isDirect then Some senderId else None;
     log := Some log0;
     sessionWebhook := Some sessionWebhook0;
     accountId := Some accountId0 |}.

(** The [deliver] callback handed to the host dispatcher. *)
Definition deliver (rocketchatConfig : RocketChatConfig)
           (to sessionWebhook0 senderId accountId0 : jsstring)
           (isDirect : bool) (log0 : Logger) (payload : ReplyPayload)
  : M unit :=
  tryCatch
    (let textToSend :=
       if truthy (payload_markdown payload)
       then payload_markdown payload else payload_text payload in
     match textToSend with
     | Some t =>
         if nonEmpty t then
           sendMessage rocketchatConfig to t
             (replyOptions sessionWebhook0 senderId accountId0 isDirect log0) ;;
           ret tt
         else ret tt
     | None => ret tt
     end)
    (fun err =>
       logTo log0 LError (MsgReplyFailed (message err)) ;;
       throw err).

(** The host awaits the callback on each block in turn; an error raised by
    the callback ends the dispatch and reaches the caller. *)
Fixpoint deliverBlocks (callback : ReplyPayload -> M unit)
         (blocks : list ReplyPayload) : M unit :=
  match blocks with
  | [] => ret tt
  | b :: rest => callback b ;; deliverBlocks callback rest
  end.

Definition dispatchReplyWithBufferedBlockDispatcher (ctx : InboundContext)
           (cfg : OpenClawConfig) (callback : ReplyPayload -> M unit)
  : M unit :=
  emit (EDispatchReply ctx) ;;
  deliverBlocks callback (dispatchedBlocks rt ctx cfg).

Definition handleRocketChatMessage (params : HandleRocketChatMessageParams)
  : M unit :=
  let cfg := p_cfg params in
  let accountId0 := p_accountId params in
  let data0 := p_data params in
  let sessionWebhook0 := p_sessionWebhook params in
  let log0 := p_log params in
  let rocketchatConfig := p_rocketchatConfig params in
  setCurrentLogger log0 ;;
  logTo log0 LDebug MsgFullInbound ;;
  if negb (str_eqb (token data0) (authToken rocketchatConfig)) then
    logTo log0 LWarn (MsgInvalidToken (token data0))
  else if bot data0 then
    logTo log0 LDebug MsgIgnoringBot
  else
    let content := extractMessageContent data0 in
    if negb (nonEmpty (content_text content)) then ret tt
    else
      let isDirect := isDirectMessage data0 in
      let senderId := user_id data0 in
      let senderName := orDefault (Some (user_name data0)) (js "Unknown") in
      let channelId := channel_id data0 in
      let channelName := orDefault (channel_name data0) (js "Direct Message") in
      let proceed (commandAuthorized : bool) : M unit :=
        let kind := if isDirect then PeerDm else PeerGroup in
        let peer := if isDirect then senderId else channelId in
        emit (EResolveAgentRoute kind peer) ;;
        let route :=
          resolveAgentRoute rt cfg (js "rocketchat") accountId0 kind peer in
        let storePath :=
          resolveStorePath rt (session_store cfg) (agentId route) in
        let envelopeOptions := resolveEnvelopeFormatOptions rt cfg in
        let previousTimestamp :=
          readSessionUpdatedAt rt storePath (sessionKey route) in
        let fromLabel :=
          if isDirect then senderName ++ js " (" ++ senderId ++ js ")"
          else channelName ++ js " - " ++ senderName in
        let envelopeArgs :=
          {| env_channel := js "RocketChat";
             env_from := fromLabel;
             env_timestamp := timestamp data0;
             env_body := content_text content;
             env_chatType := if isDirect then Direct else Group;
             env_sender_name := senderName;
             env_sender_id := senderId;
             env_previousTimestamp := previousTimestamp;
             env_envelope := envelopeOptions |} in
        emit (EFormatInboundEnvelope envelopeArgs) ;;
        let body := formatInboundEnvelope rt envelopeArgs in
        let to := if isDirect then senderId else channelId in
        let ctx0 :=
          {| Body := body;
             RawBody := content_text content;
             CommandBody := content_text content;
             From := to;
             To := to;
             SessionKey := sessionKey route;
             AccountId := accountId0;
             ChatType_ := if isDirect then Direct else Group;
             ConversationLabel := fromLabel;
             GroupSubject := if isDirect then None else Some channelName;
             SenderName := senderName;
             SenderId := senderId;
             Provider := js "rocketchat";
             Surface := js "rocketchat";
             MessageSid := message_id data0;
             Timestamp := timestamp data0;
             MediaPath := None;
             MediaType := None;
             MediaUrl := None;
             CommandAuthorized := commandAuthorized;
             OriginatingChannel := js "rocketchat";
             OriginatingTo := to |} in
        emit (EFinalizeInboundContext ctx0) ;;
        let ctx := finalizeInboundContext rt ctx0 in
        emit (ERecordInboundSession
                {| rec_storePath := storePath;
                   rec_sessionKey :=
                     if nonEmpty (SessionKey ctx) then SessionKey ctx
                     else sessionKey route;
                   rec_ctx := ctx;
                   rec_last_sessionKey := mainSessionKey route;
                   rec_last_channel := js "rocketchat";
                   rec_last_to := to;
                   rec_last_accountId := accountId0 |}) ;;
        logTo log0 LInfo
              (MsgInbound senderName (firstn 50 (content_text content))) ;;
        (match showThinking rocketchatConfig with
         | Some false => ret tt
         | _ =>
             tryCatch
               (sendMessage rocketchatConfig to thinkingText
                  (replyOptions sessionWebhook0 senderId accountId0
                                isDirect log0) ;;
                ret tt)
               (fun err => logTo log0 LDebug (MsgThinkingFailed (message err)))
         end) ;;
        dispatchReplyWithBufferedBlockDispatcher ctx cfg
          (deliver rocketchatConfig to sessionWebhook0 senderId accountId0
                   isDirect log0) in
      if isDirect then
        match dmPolicy rocketchatConfig with
        | Some PolicyAllowlist =>
            let normalizedAllowFrom :=
              normalizeAllowFrom
                (Some (match allowFrom rocketchatConfig with
                       | Some l => l
                       | None => []
                       end)) in
            let isAllowed :=
              isSenderAllowed normalizedAllowFrom (Some senderId) in
            if negb isAllowed then
              logTo log0 LDebug (MsgDmBlocked senderId) ;;
              tryCatch
                (sendBySession rocketchatConfig sessionWebhook0
                   (accessRestrictedText senderId)
                   {| useMarkdown := None; title := None; atUserId := None;
                      log := Some log0; sessionWebhook := None;
                      accountId := None |} ;;
                 ret tt)
                (fun err =>
                   logTo log0 LDebug (MsgDeniedNoticeFailed (message err)))
            else
              logTo log0 LDebug (MsgDmAuthorized senderId) ;;
              proceed true
        | Some PolicyPairing => proceed true
        | _ => proceed true
        end
      else proceed true.

(* ------------------------------------------------------------------ *)
(** ** Webhook route ([gateway.startAccount]) *)

Fixpoint lookupField (name : jsstring) (fields : list (jsstring * jsvalue))
  : option jsvalue :=
  match fields with
  | [] => None
  | (k, v) :: rest => if str_eqb k name then Some v else lookupField name rest
  end.

(** [v.name] for the property names the handler reads ([token], [user_id],
    [text], [payload]): reading a property of [null] throws a TypeError, a
    primitive or an array has none of these properties. *)
Definition getProp (v : jsvalue) (name : jsstring) : M (option jsvalue) :=
  match v with
  | JNull => throw {| message := js "Cannot read properties of null" |}
  | JObj fields => ret (lookupField name fields)
  | _ => ret None
  end.

(** Truthiness of a property value ([None] is [undefined]). *)
Definition valueTruthy (o : option jsvalue) : bool :=
  match o with
  | None => false
  | Some JNull => false
  | Some (JBool b) => b
  | Some (JNum n) => negb (Z.eqb n 0)
  | Some (JStr s) => nonEmpty s
  | Some (JArr _) => true
  | Some (JObj _) => true
  end.

(** [o === s] for a string [s]. *)
Definition strictEqualsString (o : option jsvalue) (s : jsstring) : bool :=
  match o with
  | Some (JStr t) => str_eqb t s
  | _ => false
  end.

Definition jsonParse (s : jsstring) : M jsvalue :=
  match JSON_parse s with
  | inl e => throw e
  | inr v => ret v
  end.

(** The form branch: the entries as an object of strings, replaced by the
    parsed [payload] field when there is one. *)
Definition parseFormBody (body : jsstring) : M jsvalue :=
  let parsedBody :=
    JObj (map (fun kv => (fst kv, JStr (snd kv))) (formEntries body)) in
  payload <- getProp parsedBody (js "payload") ;;
  match payload with
  | Some (JStr p) => if nonEmpty p then jsonParse p else ret parsedBody
  | _ => ret parsedBody
  end.

Definition parseRequestBody (req : IncomingMessage) : M jsvalue :=
  let body := req_body req in
  let contentType := orDefault (req_content_type req) [] in
  if includes (js "application/json") contentType then
    jsonParse body
  else if includes (js "application/x-www-form-urlencoded") contentType then
    parseFormBody body
  else
    tryCatch (jsonParse body) (fun _ => parseFormBody body).

Definition setStatusCode (n : nat) : M unit :=
  fun s =>
    (Ret tt,
     {| currentLogger := currentLogger s; posts := posts s;
        res := {| statusCode := n; headers := headers (res s);
                  ended := ended (res s) |};
        timers := timers s |},
     []).

Definition setHeader (name value : jsstring) : M unit :=
  fun s =>
    (Ret tt,
     {| currentLogger := currentLogger s; posts := posts s;
        res := {| statusCode := statusCode (res s);
                  headers := (name, value) :: headers (res s);
                  ended := ended (res s) |};
        timers := timers s |},
     []).

Definition resEnd (b : ResBody) : M unit :=
  fun s =>
    (Ret tt,
     {| currentLogger := currentLogger s; posts := posts s;
        res := {| statusCode := statusCode (res s);
                  headers := headers (res s);
                  ended := Some b |};
        timers := timers s |},
     []).

Definition setTimeout (t : Timer) : M unit :=
  fun s =>
    (Ret tt,
     {| currentLogger := currentLogger s; posts := posts s;
        res := res s; timers := timers s ++ [t] |},
     []).

(** [JSON.stringify({ error: m })] as a response body. *)
Definition errorBody (m : string) : ResBody :=
  JsonBody (JObj [(js "error", JStr (js m))]).

(** The acknowledgement: an empty text, visible to the sender only. *)
Definition ackBody : ResBody :=
  JsonBody (JObj [(js "text", JStr []);
                  (js "response_type", JStr (js "ephemeral"))]).

(** The [end] listener of the request: the body has been read. *)
Definition onRequestEnd (ctx : GatewayStartContext) (req : IncomingMessage)
  : M unit :=
  let config := account_config ctx in
  tryCatch
    (parsedBody <- parseRequestBody req ;;
     tok <- getProp parsedBody (js "token") ;;
     if negb (strictEqualsString tok (authToken config)) then
       logOpt (ctx_log ctx) LError MsgTokenMismatch ;;
       setStatusCode 401 ;;
       setHeader (js "Content-Type") (js "application/json") ;;
       resEnd (errorBody "Unauthorized: Invalid token")
     else
       userId <- getProp parsedBody (js "user_id") ;;
       txt <- getProp parsedBody (js "text") ;;
       if negb (valueTruthy userId) || negb (valueTruthy txt) then
         logOpt (ctx_log ctx) LError MsgMissingFields ;;
         setStatusCode 400 ;;
         setHeader (js "Content-Type") (js "application/json") ;;
         resEnd (errorBody "Bad Request: Missing required fields")
       else
         setStatusCode 200 ;;
         setHeader (js "Content-Type") (js "application/json") ;;
         resEnd ackBody ;;
         setTimeout
           {| timer_cfg := ctx_cfg ctx;
              timer_accountId := account_accountId ctx;
              timer_data := parsedBody;
              timer_sessionWebhook :=
                js "https://" ++ orDefault (req_host req) (js "localhost")
                   ++ req_url req;
              timer_log := match ctx_log ctx with
                           | Some l => l
                           | None => console
                           end;
              timer_ctx_log := ctx_log ctx;
              timer_rocketchatConfig := config |})
    (fun parseError =>
       logOpt (ctx_log ctx) LError (MsgParseError (message parseError)) ;;
       logOpt (ctx_log ctx) LError (MsgRawBody (req_body req)) ;;
       setStatusCode 400 ;;
       setHeader (js "Content-Type") (js "application/json") ;;
       resEnd (errorBody "Bad Request: Invalid JSON")).

(** The route handler; the request is given with its body read, so the
    [end] listener runs as part of the call. *)
Definition webhookHandler (ctx : GatewayStartContext) (req : IncomingMessage)
  : M unit :=
  if str_eqb (req_method req) (js "GET") then
    logOpt (ctx_log ctx) LDebug MsgGetVerification ;;
    setStatusCode 200 ;;
    setHeader (js "Content-Type") (js "text/plain") ;;
    resEnd (TextBody (js "Rocket.Chat webhook is active"))
  else if negb (str_eqb (req_method req) (js "POST")) then
    logOpt (ctx_log ctx) LDebug MsgMethodNotAllowed ;;
    setStatusCode 405 ;;
    setHeader (js "Allow") (js "GET, POST") ;;
    setHeader (js "Content-Type") (js "application/json") ;;
    resEnd (errorBody "Method Not Allowed")
  else
    tryCatch
      (onRequestEnd ctx req)
      (fun err =>
         logOpt (ctx_log ctx) LError (MsgWebhookError (message err)) ;;
         setStatusCode 500 ;;
         setHeader (js "Content-Type") (js "application/json") ;;
         resEnd (errorBody "Internal Server Error")).

(** A field that holds a string when it is there: [undefined] and [null]
    are [None]; a value of another type is not of the declared type. *)
Definition optionalString (o : option jsvalue) : option (option jsstring) :=
  match o with
  | None | Some JNull => Some None
  | Some (JStr s) => Some (Some s)
  | Some _ => None
  end.

(** A decoded body read as a [RocketChatInboundMessage]: [token], [user_id]
    and [text] are strings and every other field, when it is there, has its
    declared type. What the pipeline reads of a field decides how a field
    left out is read:
    - [bot] is tested for truthiness only, so it is read as its truthiness;
    - [user_name] is read through [data.user_name || 'Unknown'] only, and
      [siteUrl] not at all, so they are read as the empty string;
    - [channel_id] is read for a group message only: it may be left out of
      a direct message, where it is read as the empty string, and not of a
      group message;
    - [message_id] and [timestamp] are handed on as they are. *)
Definition asInboundMessage (v : jsvalue) : option RocketChatInboundMessage :=
  match v with
  | JObj f =>
      match lookupField (js "token") f, lookupField (js "user_id") f,
            lookupField (js "text") f,
            optionalString (lookupField (js "channel_name") f),
            optionalString (lookupField (js "message_id") f),
            optionalString (lookupField (js "timestamp") f),
            optionalString (lookupField (js "user_name") f),
            optionalString (lookupField (js "siteUrl") f),
            optionalString (lookupField (js "channel_id") f) with
      | Some (JStr tok), Some (JStr uid), Some (JStr t),
        Some n, Some mid, Some ts, Some uname, Some site, Some cid =>
          let message (c : jsstring) :=
            {| token := tok;
               bot := valueTruthy (lookupField (js "bot") f);
               channel_id := c; channel_name := n; message_id := mid;
               timestamp := ts; user_id := uid;
               user_name := match uname with Some u => u | None => [] end;
               text := Some t;
               siteUrl := match site with Some u => u | None => [] end |} in
          match cid with
          | Some c => Some (message c)
          | None =>
              if isDirectMessage (message []) then Some (message [])
              else None
          end
      | _, _, _, _, _, _, _, _, _ => None
      end
  | _ => None
  end.

(** The timer callback, for a body read as a message: the pipeline under
    the catch-all of the deferred task. *)
Definition runTimer (t : Timer) : option (M unit) :=
  match asInboundMessage (timer_data t) with
  | Some d =>
      Some (tryCatch
              (handleRocketChatMessage
                 {| p_cfg := timer_cfg t;
                    p_accountId := timer_accountId t;
                    p_data := d;
                    p_sessionWebhook := timer_sessionWebhook t;
                    p_log := timer_log t;
                    p_rocketchatConfig := timer_rocketchatConfig t |})
              (fun processingError =>
                 logOpt (timer_ctx_log t) LError
                        (MsgProcessingError (message processingError))))
  | None => None
  end.

(** [handleRocketChatMessage] called with a body that is not a
    [RocketChatInboundMessage] (a field of another type, a group message
    without channel id): the pipeline is modelled on messages only. Its
    arguments are those of the call: [cfg], [accountId], [data],
    [sessionWebhook], [log] and [rocketchatConfig]. *)
Variable handleOffType :
  OpenClawConfig -> jsstring -> jsvalue -> jsstring -> Logger ->
  RocketChatConfig -> M unit.

(** The timer callback, for every body: the call of the pipeline with the
    arguments the handler captured, under the catch-all of the deferred
    task. *)
Definition runTask (t : Timer) : M unit :=
  tryCatch
    match asInboundMessage (timer_data t) with
    | Some d =>
        handleRocketChatMessage
          {| p_cfg := timer_cfg t;
             p_accountId := timer_accountId t;
             p_data := d;
             p_sessionWebhook := timer_sessionWebhook t;
             p_log := timer_log t;
             p_rocketchatConfig := timer_rocketchatConfig t |}
    | None =>
        handleOffType (timer_cfg t) (timer_accountId t) (timer_data t)
                      (timer_sessionWebhook t) (timer_log t)
                      (timer_rocketchatConfig t)
    end
    (fun processingError =>
       logOpt (timer_ctx_log t) LError
              (MsgProcessingError (message processingError))).

(* ------------------------------------------------------------------ *)
(** ** Vocabulary of the specification *)

(** The configured list, [undefined] read as the empty list. *)
Definition listOf (allowList : option (list jsstring)) : list jsstring :=
  match allowList with Some l => l | None => [] end.

(** Every entry is blank: nothing is left once entries are trimmed. *)
Definition noNonBlankEntries (allowList : option (list jsstring)) : Prop :=
  forall e, In e (listOf allowList) -> trim e = [].

(** Some entry is the wildcard. *)
Definition containsWildcard (allowList : option (list jsstring)) : Prop :=
  exists e, In e (listOf allowList) /\ trim e = js "*".

(** The provider prefixes an entry may carry. *)
Definition providerPrefixes : list jsstring :=
  [js "rocketchat:"; js "rc:"; js "rocket:"].

(** [p'] is [p] up to the case of ASCII letters. *)
Definition sameIgnoringCase (p p' : jsstring) : Prop :=
  Forall2 (fun a b => canonicalize a = canonicalize b) p p'.

(** [e] is a provider prefix, in any case, followed by [rest]. *)
Definition hasProviderPrefix (e rest : jsstring) : Prop :=
  exists p p',
    In p providerPrefixes /\ sameIgnoringCase p p' /\ e = p' ++ rest.

(** [e'] is [e] with exactly one leading provider prefix removed, or [e]
    itself when it has none. *)
Definition strippedOnce (e e' : jsstring) : Prop :=
  hasProviderPrefix e e'
  \/ ((forall rest, ~ hasProviderPrefix e rest) /\ e' = e).

(** Every code unit of the string is white space. *)
Definition whiteSpaceOnly (s : jsstring) : Prop :=
  Forall (fun c => isWhiteSpace c = true) s.

(** The sender id equals a non-blank entry, ignoring case, once one leading
    provider prefix is removed from the trimmed entry. *)
Definition matchesEntry (s e : jsstring) : Prop :=
  trim e <> []
  /\ exists e', strippedOnce (trim e) e' /\ toLowerCase s = toLowerCase e'.

(** The third alternative of the allow-list rule as the specification
    words it: the sender id matches some entry. *)
Definition senderMatchesStated (allowList : option (list jsstring))
           (senderId : option jsstring) : Prop :=
  exists s e,
    senderId = Some s /\ In e (listOf allowList) /\ matchesEntry s e.

(** The same with the guard of the code: the sender id is not empty. *)
Definition senderMatches (allowList : option (list jsstring))
           (senderId : option jsstring) : Prop :=
  exists s e,
    senderId = Some s /\ s <> [] /\ In e (listOf allowList) /\ matchesEntry s e.

(** The allow-list rule as the specification states it. *)
Definition allowRuleStated (allowList : option (list jsstring))
           (senderId : option jsstring) : Prop :=
  isSenderAllowed (normalizeAllowFrom allowList) senderId = true <->
  noNonBlankEntries allowList \/ containsWildcard allowList
  \/ senderMatchesStated allowList senderId.

(** The text starts with a markdown leader. *)
Definition startsWithLeader (t : jsstring) : Prop :=
  exists c rest, t = c :: rest /\ In c (js "#*>-").

(** The text contains a markdown character. *)
Definition containsInline (t : jsstring) : Prop :=
  exists c, In c t /\ In c (js "*_`#[]").

Definition containsNewline (t : jsstring) : Prop := In 10%N t.

(** Options with nothing set. *)
Definition noOptions : SendMessageOptions :=
  {| useMarkdown := None; title := None; atUserId := None; log := None;
     sessionWebhook := None; accountId := None |}.

(** The text [sendBySession] posts: the input text, with the mention
    appended by each of the two decoration steps that applies. *)
Definition sessionText (t : jsstring) (options : SendMessageOptions)
  : jsstring :=
  match atUserId options with
  | Some id =>
      if nonEmpty id then
        if detectMarkdown t options
        then withMention (withMention t id) id
        else withMention t id
      else t
  | None => t
  end.

(** The text of a reply block: its markdown when there is some, else its
    plain text. *)
Definition blockText (payload : ReplyPayload) : option jsstring :=
  if truthy (payload_markdown payload)
  then payload_markdown payload else payload_text payload.

(** What [sendMessage] logs when the chosen path threw [e]. *)
Definition failureLog (options : SendMessageOptions) (e : JsError)
  : list event :=
  match log options with
  | Some l => [ELog l LError (MsgSendFailed (message e))]
  | None => []
  end.

(** Events that are log lines. *)
Definition isLog (e : event) : Prop :=
  match e with ELog _ _ _ => True | _ => False end.

(** The texts posted to the provider, in order. *)
Fixpoint postedTexts (evs : list event) : list jsstring :=
  match evs with
  | [] => []
  | EAxios rq :: rest => out_text (req_data rq) :: postedTexts rest
  | _ :: rest => postedTexts rest
  end.

(** The text field is blank: absent, empty or white space only. *)
Definition blankText (d : RocketChatInboundMessage) : Prop :=
  match text d with Some t => trim t = [] | None => True end.

(** The channel name is absent ([null], [undefined] or empty). *)
Definition channelAbsent (d : RocketChatInboundMessage) : Prop :=
  channel_name d = None \/ channel_name d = Some [].

(** The channel name starts with the at sign. *)
Definition channelStartsWithAt (d : RocketChatInboundMessage) : Prop :=
  exists rest, channel_name d = Some (64%N :: rest).

(** Record updates used to vary one input of the pipeline. *)
Definition withText (d : RocketChatInboundMessage) (t : option jsstring)
  : RocketChatInboundMessage :=
  {| token := token d; bot := bot d; channel_id := channel_id d;
     channel_name := channel_name d; message_id := message_id d;
     timestamp := timestamp d; user_id := user_id d;
     user_name := user_name d; text := t; siteUrl := siteUrl d |}.

Definition withDmPolicy (c : RocketChatConfig) (p : option DmPolicy)
           (a : option (list jsstring)) : RocketChatConfig :=
  {| enabled := enabled c; webhookUrl := webhookUrl c;
     authToken := authToken c; dmPolicy := p; groupPolicy := groupPolicy c;
     allowFrom := a; showThinking := showThinking c |}.

Definition withData (p : HandleRocketChatMessageParams)
           (d : RocketChatInboundMessage) : HandleRocketChatMessageParams :=
  {| p_cfg := p_cfg p; p_accountId := p_accountId p; p_data := d;
     p_sessionWebhook := p_sessionWebhook p; p_log := p_log p;
     p_rocketchatConfig := p_rocketchatConfig p |}.

Definition withConfig (p : HandleRocketChatMessageParams)
           (c : RocketChatConfig) : HandleRocketChatMessageParams :=
  {| p_cfg := p_cfg p; p_accountId := p_accountId p; p_data := p_data p;
     p_sessionWebhook := p_sessionWebhook p; p_log := p_log p;
     p_rocketchatConfig := c |}.

(** The decoded body of a request, when decoding succeeds. *)
Definition decodesTo (req : IncomingMessage) (v : jsvalue) : Prop :=
  forall s, outcomeOf (parseRequestBody req s) = Ret v.

(** The body is unparseable: decoding throws, or yields [null], whose
    fields cannot be read; the handler reports both as a parse error. *)
Definition unparseable (req : IncomingMessage) : Prop :=
  (exists e, forall s, outcomeOf (parseRequestBody req s) = Throw e)
  \/ decodesTo req JNull.

(** A field of a decoded body ([None] when there is none). *)
Definition fieldOf (v : jsvalue) (name : string) : option jsvalue :=
  match v with
  | JObj fields => lookupField (js name) fields
  | _ => None
  end.

(** The token field is the configured secret. *)
Definition tokenMatches (v : jsvalue) (config : RocketChatConfig) : Prop :=
  fieldOf v "token" = Some (JStr (authToken config)).

(** A required field is missing: absent, or present with no content (a
    falsy value). *)
Definition fieldMissing (v : jsvalue) (name : string) : Prop :=
  valueTruthy (fieldOf v name) = false.

(** The response has been sent with this status and body. *)
Definition responded (s : state) (code : nat) (b : ResBody) : Prop :=
  statusCode (res s) = code /\ ended (res s) = Some b.

(** The deferred task the handler queues for a decoded body. *)
Definition pipelineTask (ctx : GatewayStartContext) (req : IncomingMessage)
           (v : jsvalue) : Timer :=
  {| timer_cfg := ctx_cfg ctx;
     timer_accountId := account_accountId ctx;
     timer_data := v;
     timer_sessionWebhook :=
       js "https://" ++ orDefault (req_host req) (js "localhost")
          ++ req_url req;
     timer_log := match ctx_log ctx with Some l => l | None => console end;
     timer_ctx_log := ctx_log ctx;
     timer_rocketchatConfig := account_config ctx |}.

(* ------------------------------------------------------------------ *)
(** ** Inputs of the scenarios *)

Definition sampleConfig : RocketChatConfig :=
  {| enabled := None; webhookUrl := js "https://chat.example/hooks/out";
     authToken := js "T"; dmPolicy := Some PolicyAllowlist;
     groupPolicy := None; allowFrom := Some [js "u2"];
     showThinking := None |}.

Definition sampleCfg : OpenClawConfig :=
  {| session_store := None; channels_rocketchat := Some sampleConfig |}.

(** Scenario A/B payload: a direct message from u1. *)
Definition sampleMessage : RocketChatInboundMessage :=
  {| token := js "T"; bot := false; channel_id := js "c1";
     channel_name := None; message_id := Some (js "m1");
     timestamp := Some (js "2024-01-01T00:00:00Z"); user_id := js "u1";
     user_name := js "Alice"; text := Some (js "hi"); siteUrl := js "" |}.

(** The payload of scenario A marked as a bot message. *)
Definition botMessage : RocketChatInboundMessage :=
  {| token := js "T"; bot := true; channel_id := js "c1";
     channel_name := None; message_id := Some (js "m1");
     timestamp := Some (js "2024-01-01T00:00:00Z"); user_id := js "u1";
     user_name := js "Alice"; text := Some (js "hi"); siteUrl := js "" |}.

(** Options of a reply to a group message from u1. *)
Definition groupReplyOptions : SendMessageOptions :=
  replyOptions (js "https://bot.example/hooks/T") (js "u1") (js "default")
               false 1.

(** A message in the channel general. *)
Definition groupMessage : RocketChatInboundMessage :=
  {| token := js "T"; bot := false; channel_id := js "c1";
     channel_name := Some (js "general"); message_id := Some (js "m1");
     timestamp := Some (js "2024-01-01T00:00:00Z"); user_id := js "u1";
     user_name := js "Alice"; text := Some (js "hi"); siteUrl := js "" |}.

Definition sampleParams (d : RocketChatInboundMessage)
           (c : RocketChatConfig) : HandleRocketChatMessageParams :=
  {| p_cfg := sampleCfg; p_accountId := js "default"; p_data := d;
     p_sessionWebhook := js "https://bot.example/hooks/T"; p_log := 1;
     p_rocketchatConfig := c |}.

Definition initialState : state :=
  {| currentLogger := None; posts := 0;
     res := {| statusCode := 200; headers := []; ended := None |};
     timers := [] |}.

(** A provider that refuses every call, and one that accepts every call. *)
Definition refusingProvider (n : nat) (rq : AxiosRequest)
  : JsError + AxiosResponse :=
  inl {| message := js "connect ECONNREFUSED" |}.

Definition acceptingProvider (n : nat) (rq : AxiosRequest)
  : JsError + AxiosResponse :=
  inr (js "ok").

(** A host runtime for the scenarios: one route, the body as envelope, the
    context unchanged, and one reply block with the text pong. *)
Definition sampleRuntime : PluginRuntime :=
  {| resolveAgentRoute := fun _ _ _ _ peer =>
       {| agentId := js "main"; sessionKey := js "sk:" ++ peer;
          mainSessionKey := js "main" |};
     resolveStorePath := fun _ agent => js "/store/" ++ agent;
     resolveEnvelopeFormatOptions := fun _ => 0;
     readSessionUpdatedAt := fun _ _ => None;
     formatInboundEnvelope := fun args => env_body args;
     finalizeInboundContext := fun ctx => ctx;
     dispatchedBlocks := fun _ _ =>
       [{| payload_markdown := None; payload_text := Some (js "pong") |}] |}.

(** A JSON text written with single quotes in place of double quotes. *)
Definition jsq (s : string) : jsstring :=
  map (fun c => if (c =? 39)%N then 34%N else c) (js s).

(** The same host with one markdown reply block. *)
Definition markdownRuntime : PluginRuntime :=
  {| resolveAgentRoute := resolveAgentRoute sampleRuntime;
     resolveStorePath := resolveStorePath sampleRuntime;
     resolveEnvelopeFormatOptions := resolveEnvelopeFormatOptions sampleRuntime;
     readSessionUpdatedAt := readSessionUpdatedAt sampleRuntime;
     formatInboundEnvelope := formatInboundEnvelope sampleRuntime;
     finalizeInboundContext := finalizeInboundContext sampleRuntime;
     dispatchedBlocks := fun _ _ =>
       [{| payload_markdown := Some (js "**pong**");
           payload_text := Some (js "pong") |}] |}.

(** [JSON.parse] on the bodies of the scenarios: the object with a token,
    a user id and a text; the same without the text; the literal null;
    anything else is a syntax error. *)
Definition scenarioBody (tok : string) : jsvalue :=
  JObj [(js "token", JStr (js tok)); (js "user_id", JStr (js "u1"));
        (js "text", JStr (js "hi"))].

Definition scenarioParse (s : jsstring) : JsError + jsvalue :=
  if str_eqb s (jsq "{'token':'T','user_id':'u1','text':'hi'}")
  then inr (scenarioBody "T")
  else if str_eqb s (jsq "{'token':'WRONG','user_id':'u1','text':'hi'}")
  then inr (scenarioBody "WRONG")
  else if str_eqb s (jsq "{'token':'T','user_id':'u1'}")
  then inr (JObj [(js "token", JStr (js "T")); (js "user_id", JStr (js "u1"))])
  else if str_eqb s (js "null") then inr JNull
  else inl {| message := js "Unexpected token" |}.

Definition noForm (s : jsstring) : list (jsstring * jsstring) := [].

Definition sampleGateway : GatewayStartContext :=
  {| account_accountId := js "default"; account_config := sampleConfig;
     ctx_cfg := sampleCfg; ctx_log := Some 1 |}.

Definition postRequest (body : string) : IncomingMessage :=
  {| req_method := js "POST";
     req_content_type := Some (js "application/json");
     req_host := Some (js "bot.example"); req_url := js "/hooks/T";
     req_body := jsq body |}.

(** A computation emits only events that satisfy [P], from every state. *)
Definition emits {A} (P : event -> Prop) (m : M A) : Prop :=
  forall s, Forall P (eventsOf (m s)).

(** The display name of the sender, with the default of the pipeline. *)
Definition senderNameOf (d : RocketChatInboundMessage) : jsstring :=
  orDefault (Some (user_name d)) (js "Unknown").

(** The addressing rule of the envelope. *)
Definition envelopeRule (d : RocketChatInboundMessage) (ctx : InboundContext)
  : Prop :=
  (ChatType_ ctx = Direct <-> channelAbsent d \/ channelStartsWithAt d)
  /\ (ChatType_ ctx = Direct ->
      From ctx = user_id d /\ To ctx = user_id d
      /\ ConversationLabel ctx
         = senderNameOf d ++ js " (" ++ user_id d ++ js ")")
  /\ (ChatType_ ctx = Group ->
      exists channelName,
        channel_name d = Some channelName
        /\ From ctx = channel_id d /\ To ctx = channel_id d
        /\ ConversationLabel ctx = channelName ++ js " - " ++ senderNameOf d).

(** Events of the pipeline before the envelope: every envelope event
    obeys the addressing rule. *)
Definition envelopeEventOk (d : RocketChatInboundMessage) (e : event) : Prop :=
  match e with
  | EFinalizeInboundContext ctx => envelopeRule d ctx
  | _ => True
  end.

(* ------------------------------------------------------------------ *)
(** ** Further vocabulary: runs of the pipeline *)

(** A computation always returns: it never ends in a thrown error. *)
Definition returns {A} (m : M A) : Prop :=
  forall s, exists a, outcomeOf (m s) = Ret a.

(** A computation leaves the module logger, the response object and the
    timer queue as they were. *)
Definition frames {A} (m : M A) : Prop :=
  forall s,
    currentLogger (stateOf (m s)) = currentLogger s
    /\ res (stateOf (m s)) = res s
    /\ timers (stateOf (m s)) = timers s.

(** The text [sendMessage] posts for a text and options: decorated by the
    session path when a session webhook is given, unchanged otherwise. *)
Definition postedBy (options : SendMessageOptions) (t : jsstring) : jsstring :=
  match sessionWebhook options with
  | Some sw => if nonEmpty sw then sessionText t options else t
  | None => t
  end.

(** The texts of the blocks that have one, in order. *)
Fixpoint blockTexts (blocks : list ReplyPayload) : list jsstring :=
  match blocks with
  | [] => []
  | b :: rest =>
      match blockText b with
      | Some t => if nonEmpty t then t :: blockTexts rest else blockTexts rest
      | None => blockTexts rest
      end
  end.

(** The message passes every gate of the pipeline: valid token, not from a
    bot, non-blank text, and not a direct message from a sender the
    allowlist policy rejects. *)
Definition passesGates (config : RocketChatConfig)
           (d : RocketChatInboundMessage) : Prop :=
  token d = authToken config
  /\ bot d = false
  /\ ~ blankText d
  /\ (isDirectMessage d = true ->
      dmPolicy config = Some PolicyAllowlist ->
      isSenderAllowed (normalizeAllowFrom (allowFrom config))
                      (Some (user_id d)) = true).

(** A provider call is a JSON POST to the configured webhook URL. *)
Definition postsTo (config : RocketChatConfig) (e : event) : Prop :=
  match e with
  | EAxios rq =>
      url rq = webhookUrl config /\ method rq = js "POST"
      /\ content_type rq = js "application/json"
  | _ => True
  end.

(** What every envelope of a message carries, whatever the route. *)
Definition envelopeContent (d : RocketChatInboundMessage)
           (ctx : InboundContext) : Prop :=
  (exists t, text d = Some t /\ RawBody ctx = trim t /\ trim t <> [])
  /\ CommandBody ctx = RawBody ctx
  /\ CommandAuthorized ctx = true
  /\ SenderId ctx = user_id d
  /\ SenderName ctx = senderNameOf d
  /\ MessageSid ctx = message_id d
  /\ Timestamp ctx = timestamp d
  /\ Provider ctx = js "rocketchat"
  /\ Surface ctx = js "rocketchat"
  /\ OriginatingChannel ctx = js "rocketchat"
  /\ OriginatingTo ctx = To ctx
  /\ MediaPath ctx = None /\ MediaType ctx = None /\ MediaUrl ctx = None
  /\ (GroupSubject ctx = None <-> ChatType_ ctx = Direct).

(** An envelope event stands for a message that passed the gates, and
    carries the content above. *)
Definition envelopeEventGated (config : RocketChatConfig)
           (d : RocketChatInboundMessage) (e : event) : Prop :=
  match e with
  | EFinalizeInboundContext ctx => passesGates config d /\ envelopeContent d ctx
  | _ => True
  end.

(* ------------------------------------------------------------------ *)
(** ** The plugin surface: targets ([rocketchatPlugin.messaging],
       [.security], [.outbound.resolveTarget]) *)

(** [security.resolveDmPolicy(...).normalizeEntry] *)
Definition normalizeEntry (raw : jsstring) : jsstring :=
  stripProviderPrefix raw.

(** [messaging.normalizeTarget]: the [targetId] of the result, [None] for
    the result [null]. *)
Definition normalizeTarget (target : option jsstring) : option jsstring :=
  match target with
  | Some t => if nonEmpty t then Some (stripProviderPrefix t) else None
  | None => None
  end.

(** The character class of a word character or the dash: digits, ASCII
    letters, the underscore, and the dash. *)
Definition isWordOrDash (c : N) : bool :=
  ((48 <=? c) && (c <=? 57) || (65 <=? c) && (c <=? 90) || (c =? 95)
   || (97 <=? c) && (c <=? 122) || (c =? 45))%N.

(** [messaging.targetResolver.looksLikeId]: one or more word characters
    or dashes, from the start of the string to its end. *)
Definition looksLikeId (id : jsstring) : bool :=
  nonEmpty id && forallb isWordOrDash id.

(** [outbound.resolveTarget]: the error of the failure result, or the [to]
    of the success result. *)
Definition resolveTarget (to : option jsstring) : JsError + jsstring :=
  let trimmed := match to with Some t => Some (trim t) | None => None end in
  if negb (truthy trimmed) then
    inl {| message :=
             js "Rocket.Chat message requires --to <conversationId>" |}
  else inr (orDefault trimmed []).

(** The string neither starts nor ends with white space. *)
Definition noOuterWhiteSpace (s : jsstring) : Prop :=
  match s with
  | [] => True
  | c :: _ => isWhiteSpace c = false /\ isWhiteSpace (last s c) = false
  end.

(* ------------------------------------------------------------------ *)
(** ** The plugin surface: configuration ([getConfig], [isConfigured],
       [rocketchatPlugin.config]) *)

(** The value of [cfg?.channels?.rocketchat] when there is one: the
    top-level configuration and its [accounts] object, given as its
    entries in property order. *)
Record RocketChatSection := {
  section_config : RocketChatConfig;
  section_accounts : option (list (jsstring * RocketChatConfig))
}.

(** The empty object returned when the channel has no section: every
    field is [undefined]; the two string fields are read as empty, which is
    how the truthiness tests of the module see them. *)
Definition emptyConfig : RocketChatConfig :=
  {| enabled := None; webhookUrl := []; authToken := []; dmPolicy := None;
     groupPolicy := None; allowFrom := None; showThinking := None |}.

Fixpoint lookupAccount (id : jsstring)
         (accounts : list (jsstring * RocketChatConfig))
  : option RocketChatConfig :=
  match accounts with
  | [] => None
  | (k, a) :: rest => if str_eqb k id then Some a else lookupAccount id rest
  end.

(** The names every object inherits from [Object.prototype]. *)
Definition inheritedNames : list jsstring :=
  [js "constructor"; js "__defineGetter__"; js "__defineSetter__";
   js "hasOwnProperty"; js "__lookupGetter__"; js "__lookupSetter__";
   js "isPrototypeOf"; js "propertyIsEnumerable"; js "toString";
   js "valueOf"; js "__proto__"; js "toLocaleString"].

Definition isInheritedName (id : jsstring) : bool :=
  existsb (str_eqb id) inheritedNames.

(** A member inherited from [Object.prototype] read as a configuration: a
    function, or the prototype itself, which is truthy and has none of the
    configuration's fields. *)
Definition prototypeMember : RocketChatConfig := emptyConfig.

(** [rocketchatCfg.accounts?.[id]]: the entry of the accounts object under
    the key [id], and, when it has no such key, the member it inherits
    under that name. *)
Definition accountOf (sec : RocketChatSection) (id : jsstring)
  : option RocketChatConfig :=
  match section_accounts sec with
  | Some accounts =>
      match lookupAccount id accounts with
      | Some account => Some account
      | None => if isInheritedName id then Some prototypeMember else None
      end
  | None => None
  end.

Definition getConfig (rocketchatCfg : option RocketChatSection)
           (accountId0 : option jsstring) : RocketChatConfig :=
  match rocketchatCfg with
  | None => emptyConfig
  | Some sec =>
      match accountId0 with
      | Some id =>
          if nonEmpty id then
            match accountOf sec id with
            | Some account => account
            | None => section_config sec
            end
          else section_config sec
      | None => section_config sec
      end
  end.

Definition isConfigured (rocketchatCfg : option RocketChatSection)
           (accountId0 : option jsstring) : bool :=
  let config := getConfig rocketchatCfg accountId0 in
  nonEmpty (webhookUrl config) && nonEmpty (authToken config).

(** [config.listAccountIds] *)
Definition listAccountIds (rocketchatCfg : option RocketChatSection)
  : list jsstring :=
  match match rocketchatCfg with
        | Some sec => section_accounts sec
        | None => None
        end with
  | Some accounts => map fst accounts
  | None => if isConfigured rocketchatCfg None then [js "default"] else []
  end.

Record ResolvedAccount := {
  ra_accountId : jsstring;
  ra_config : RocketChatConfig;
  ra_enabled : bool
}.

(** [x.enabled !== false] *)
Definition enabledUnlessFalse (c : RocketChatConfig) : bool :=
  match enabled c with Some false => false | _ => true end.

(** [config.resolveAccount] *)
Definition resolveAccount (rocketchatCfg : option RocketChatSection)
           (accountId0 : option jsstring) : ResolvedAccount :=
  let config := getConfig rocketchatCfg None in
  let id := orDefault accountId0 (js "default") in
  let account :=
    match rocketchatCfg with
    | Some sec => accountOf sec id
    | None => None
    end in
  match account with
  | Some a =>
      {| ra_accountId := id; ra_config := a;
         ra_enabled := enabledUnlessFalse a |}
  | None =>
      {| ra_accountId := js "default"; ra_config := config;
         ra_enabled := enabledUnlessFalse config |}
  end.

(** [config.isConfigured] on a resolved account. *)
Definition accountIsConfigured (account : ResolvedAccount) : bool :=
  nonEmpty (webhookUrl (ra_config account))
  && nonEmpty (authToken (ra_config account)).

(** The accounts object of the section, when it has one. *)
Definition accountsIn (rocketchatCfg : option RocketChatSection)
  : option (list (jsstring * RocketChatConfig)) :=
  match rocketchatCfg with
  | Some sec => section_accounts sec
  | None => None
  end.

(** The account the accounts object holds under the key [id]. *)
Definition ownAccount (rocketchatCfg : option RocketChatSection)
           (id : jsstring) : option RocketChatConfig :=
  match accountsIn rocketchatCfg with
  | Some accounts => lookupAccount id accounts
  | None => None
  end.

(** There is an accounts object, it has no key [id], and [id] is a name
    it inherits. *)
Definition inheritsAccount (rocketchatCfg : option RocketChatSection)
           (id : jsstring) : Prop :=
  (exists accounts, accountsIn rocketchatCfg = Some accounts)
  /\ ownAccount rocketchatCfg id = None
  /\ isInheritedName id = true.

(* ------------------------------------------------------------------ *)
(** ** The plugin surface: outbound ([outbound.sendText], [.sendMedia]) *)

(** The request of the handlers of [webhook-handler.ts], as far as they
    read it: [req.method], [req.protocol], [req.headers?.host], [req.url]
    and [req.body], each [undefined] ([None]) when the host left it out. *)
Record ExpressRequest := {
  ex_method : option jsstring;
  ex_protocol : option jsstring;
  ex_host : option jsstring;
  ex_url : option jsstring;
  ex_body : option jsvalue
}.

(** The log lines of the plugin surface and of [webhook-handler.ts] that
    [channel.ts] does not have. *)
Inductive surfaceMsg :=
| MsgSendText (sent : jsstring) (result : DeliveryResult)
| MsgSendMedia (description : jsstring) (result : DeliveryResult)
| MsgIncomingRequest (req : ExpressRequest)
| MsgWebhookErrorStack (m : jsstring).

(** Events of the plugin surface: those of the channel functions it calls,
    and its own log lines. *)
Inductive surfaceEvent :=
| Core (e : event)
| SurfaceLog (lg : Logger) (lvl : level) (m : surfaceMsg).

Definition MS (A : Type) : Type :=
  state -> outcome A * state * list surfaceEvent.

Definition retS {A} (a : A) : MS A := fun s => (Ret a, s, []).

Definition bindS {A B} (m : MS A) (k : A -> MS B) : MS B :=
  fun s =>
    match m s with
    | (Ret a, s1, ev1) =>
        match k a s1 with
        | (o, s2, ev2) => (o, s2, ev1 ++ ev2)
        end
    | (Throw e, s1, ev1) => (Throw e, s1, ev1)
    end.

Definition tryCatchS {A} (m : MS A) (h : JsError -> MS A) : MS A :=
  fun s =>
    match m s with
    | (Ret a, s1, ev1) => (Ret a, s1, ev1)
    | (Throw e, s1, ev1) =>
        match h e s1 with
        | (o, s2, ev2) => (o, s2, ev1 ++ ev2)
        end
    end.

Definition outcomeS {A} (r : outcome A * state * list surfaceEvent)
  : outcome A := fst (fst r).

Definition stateS {A} (r : outcome A * state * list surfaceEvent) : state :=
  snd (fst r).

Definition eventsS {A} (r : outcome A * state * list surfaceEvent)
  : list surfaceEvent := snd r.

(** A channel computation run from the surface. *)
Definition liftCore {A} (m : M A) : MS A :=
  fun s =>
    match m s with
    | (o, s1, ev1) => (o, s1, map Core ev1)
    end.

(** [getLogger()?.debug?.(msg)] *)
Definition logSurface (lvl : level) (m : surfaceMsg) : MS unit :=
  fun s =>
    (Ret tt, s,
     match currentLogger s with
     | Some lg => [SurfaceLog lg lvl m]
     | None => []
     end).

(** The channel events among surface events. *)
Fixpoint coreEvents (evs : list surfaceEvent) : list event :=
  match evs with
  | [] => []
  | Core e :: rest => e :: coreEvents rest
  | SurfaceLog _ _ _ :: rest => coreEvents rest
  end.

(** The options [{ log, accountId }] of the outbound functions. *)
Definition outboundOptions (log0 : option Logger)
           (accountId0 : option jsstring) : SendMessageOptions :=
  {| useMarkdown := None; title := None; atUserId := None; log := log0;
     sessionWebhook := None; accountId := accountId0 |}.

(** The result of the outbound functions from the result of
    [sendMessage]. *)
Definition outboundResult (result : DeliveryResult) : DeliveryResult :=
  if ok result
  then {| ok := true; error := None; data := data result |}
  else {| ok := false; error := error result; data := None |}.

(** [outbound.sendText]. The handler of its [catch] reads the response
    data of the error when there is some, else its message; errors carry a
    message only here. *)
Definition sendText (rocketchatCfg : option RocketChatSection)
           (to t : jsstring) (accountId0 : option jsstring)
           (log0 : option Logger) : MS DeliveryResult :=
  let config := getConfig rocketchatCfg accountId0 in
  tryCatchS
    (bindS (liftCore (sendMessage config to t
                        (outboundOptions log0 accountId0)))
       (fun result =>
          bindS (logSurface LDebug (MsgSendText t result))
            (fun _ => retS (outboundResult result))))
    (fun err =>
       retS {| ok := false; error := Some (message err); data := None |}).

(** The template of the placeholder sent for a media file. *)
Definition mediaDescriptionOf (mediaPath : jsstring) : jsstring :=
  js "[Media message (not supported yet): " ++ mediaPath ++ js "]".

(** [outbound.sendMedia] *)
Definition sendMedia (rocketchatCfg : option RocketChatSection)
           (to mediaPath : jsstring) (accountId0 : option jsstring)
           (log0 : option Logger) : MS DeliveryResult :=
  let config := getConfig rocketchatCfg accountId0 in
  if negb (nonEmpty (webhookUrl config)) then
    retS {| ok := false; error := Some (js "Rocket.Chat not configured");
            data := None |}
  else
    tryCatchS
      (let mediaDescription := mediaDescriptionOf mediaPath in
       bindS (liftCore (sendMessage config to mediaDescription
                          (outboundOptions log0 accountId0)))
         (fun result =>
            bindS (logSurface LDebug (MsgSendMedia mediaDescription result))
              (fun _ => retS (outboundResult result))))
      (fun err =>
         retS {| ok := false; error := Some (message err); data := None |}).

(** The provider calls among events, in order. *)
Fixpoint requestsOf (evs : list event) : list AxiosRequest :=
  match evs with
  | [] => []
  | EAxios rq :: rest => rq :: requestsOf rest
  | _ :: rest => requestsOf rest
  end.

(** The result of an outbound function for the outcome of its one provider
    call. *)
Definition resultFor (answer : JsError + AxiosResponse) : DeliveryResult :=
  match answer with
  | inr d => {| ok := true; error := None; data := Some d |}
  | inl e => {| ok := false; error := Some (message e); data := None |}
  end.

(* ------------------------------------------------------------------ *)
(** ** Further vocabulary: the webhook route *)

(** The arguments of the deferred pipeline call of a queued task, for a
    body read at the declared message type. *)
Definition taskParams (t : Timer) (d : RocketChatInboundMessage)
  : HandleRocketChatMessageParams :=
  {| p_cfg := timer_cfg t;
     p_accountId := timer_accountId t;
     p_data := d;
     p_sessionWebhook := timer_sessionWebhook t;
     p_log := timer_log t;
     p_rocketchatConfig := timer_rocketchatConfig t |}.

(** The handler queued the pipeline for the decoded body [v]: it had
    answered 200 to a POST whose body decoded to [v], with the configured
    token, a user id and a text. *)
Definition queuedFor (ctx : GatewayStartContext) (req : IncomingMessage)
           (s s' : state) (v : jsvalue) : Prop :=
  timers s' = timers s ++ [pipelineTask ctx req v]
  /\ statusCode (res s') = 200
  /\ req_method req = js "POST"
  /\ decodesTo req v
  /\ tokenMatches v (account_config ctx)
  /\ ~ fieldMissing v "user_id"
  /\ ~ fieldMissing v "text".

(* ------------------------------------------------------------------ *)
(** ** [rocketChatWebhookHandler] of [webhook-handler.ts] *)

(** [log?.level?.(msg, ...)] on the handler's own logger. *)
Definition logSurfaceOpt (lg : option Logger) (lvl : level) (m : surfaceMsg)
  : MS unit :=
  fun s =>
    (Ret tt, s,
     match lg with
     | Some l => [SurfaceLog l lvl m]
     | None => []
     end).

(** [requestBody.name]: reading a property of an [undefined] body throws
    like reading one of [null]. *)
Definition bodyProp (body : option jsvalue) (name : jsstring)
  : M (option jsvalue) :=
  match body with
  | Some v => getProp v name
  | None => throw {| message := js "Cannot read properties of undefined" |}
  end.

(** The two ways the handler answers: [res.status(code).json(body)] when
    [res] has both functions ([express]), else the status code, the content
    type and [res.end] of the serialised body. *)
Definition respondJson (express : bool) (code : nat) (body : ResBody)
  : M unit :=
  if express then
    setStatusCode code ;;
    resEnd body
  else
    setStatusCode code ;;
    setHeader (js "Content-Type") (js "application/json") ;;
    resEnd body.

(** The session webhook URL the handler makes up from the request. *)
Definition mockSessionWebhook (req : ExpressRequest) : jsstring :=
  orDefault (ex_protocol req) (js "https") ++ js "://"
    ++ orDefault (ex_host req) (js "localhost")
    ++ orDefault (ex_url req) (js "/hooks/rocketchat").

Definition expressParams (req : ExpressRequest) (cfg : OpenClawConfig)
           (accountId0 : jsstring) (rocketchatConfig : RocketChatConfig)
           (lg : option Logger) (d : RocketChatInboundMessage)
  : HandleRocketChatMessageParams :=
  {| p_cfg := cfg;
     p_accountId := accountId0;
     p_data := d;
     p_sessionWebhook := mockSessionWebhook req;
     p_log := match lg with Some l => l | None => console end;
     p_rocketchatConfig := rocketchatConfig |}.

(** A request body read at the declared type [RocketChatInboundMessage]. *)
Definition typedBody (body : option jsvalue)
  : option RocketChatInboundMessage :=
  match body with
  | Some v => asInboundMessage v
  | None => None
  end.

Section Express.

(** What [handleRocketChatMessage] does with a body that is not of its
    declared type [RocketChatInboundMessage]; the pipeline is modelled at
    that type only. *)
Variable processUntyped : option jsvalue -> jsstring -> MS unit.

(** [await handleRocketChatMessage({ cfg, accountId, data, sessionWebhook,
    log: log || console, rocketchatConfig })]. *)
Definition processBody (req : ExpressRequest) (cfg : OpenClawConfig)
           (accountId0 : jsstring) (rocketchatConfig : RocketChatConfig)
           (lg : option Logger) (body : option jsvalue) : MS unit :=
  match typedBody body with
  | Some d =>
      liftCore (handleRocketChatMessage
                  (expressParams req cfg accountId0 rocketchatConfig lg d))
  | None => processUntyped body (mockSessionWebhook req)
  end.

Definition rocketChatWebhookHandler (req : ExpressRequest) (express : bool)
           (cfg : OpenClawConfig) (accountId0 : jsstring)
           (rocketchatConfig : RocketChatConfig) (lg : option Logger)
  : MS unit :=
  let requestBody := ex_body req in
  tryCatchS
    (bindS (logSurfaceOpt lg LDebug (MsgIncomingRequest req)) (fun _ =>
     bindS (liftCore (bodyProp requestBody (js "token"))) (fun tok =>
     if negb (strictEqualsString tok (authToken rocketchatConfig)) then
       liftCore
         (logOpt lg LError MsgTokenMismatch ;;
          respondJson express 401 (errorBody "Unauthorized: Invalid token"))
     else
       bindS (liftCore (bodyProp requestBody (js "user_id"))) (fun userId =>
       bindS (liftCore (bodyProp requestBody (js "text"))) (fun txt =>
       if negb (valueTruthy tok) || negb (valueTruthy userId)
          || negb (valueTruthy txt) then
         liftCore
           (logOpt lg LError MsgMissingFields ;;
            respondJson express 400
              (errorBody "Bad Request: Missing required fields"))
       else
         bindS (processBody req cfg accountId0 rocketchatConfig lg
                            requestBody) (fun _ =>
         liftCore (respondJson express 200 ackBody)))))))
    (fun error =>
       bindS (logSurfaceOpt lg LError (MsgWebhookErrorStack (message error)))
         (fun _ =>
            liftCore
              (respondJson express 500 (errorBody "Internal Server Error")))).

End Express.

(** The state after [respondJson]. *)
Definition responded_with (express : bool) (code : nat) (body : ResBody)
           (s : state) : state :=
  {| currentLogger := currentLogger s; posts := posts s;
     res := {| statusCode := code;
               headers := if express then headers (res s)
                          else (js "Content-Type", js "application/json")
                               :: headers (res s);
               ended := Some body |};
     timers := timers s |}.

(** The decision of the handler on a request body. *)
Inductive verdict := Broken | Unauthorized | Incomplete | Accepted.

Definition verdictOf (rocketchatConfig : RocketChatConfig)
           (body : option jsvalue) : verdict :=
  match body with
  | None | Some JNull => Broken
  | Some v =>
      if negb (strictEqualsString (fieldOf v "token")
                                  (authToken rocketchatConfig))
      then Unauthorized
      else if valueTruthy (fieldOf v "token")
              && valueTruthy (fieldOf v "user_id")
              && valueTruthy (fieldOf v "text")
      then Accepted
      else Incomplete
  end.

(** The debug line every request starts with. *)
Definition incomingLine (lg : option Logger) (req : ExpressRequest)
  : list surfaceEvent :=
  match lg with
  | Some l => [SurfaceLog l LDebug (MsgIncomingRequest req)]
  | None => []
  end.

(** The error line of the handler's catch-all. *)
Definition caughtLine (lg : option Logger) (m : jsstring)
  : list surfaceEvent :=
  match lg with
  | Some l => [SurfaceLog l LError (MsgWebhookErrorStack m)]
  | None => []
  end.

(** An error line of [channel.ts] on the handler's logger. *)
Definition errorLine (lg : option Logger) (m : logmsg) : list surfaceEvent :=
  match lg with
  | Some l => [Core (ELog l LError m)]
  | None => []
  end.

(** The payload of scenario A as a decoded body. *)
Definition scenarioMessageBody : jsvalue :=
  JObj [(js "token", JStr (js "T")); (js "bot", JBool false);
        (js "channel_id", JStr (js "c1")); (js "message_id", JStr (js "m1"));
        (js "timestamp", JStr (js "2024-01-01T00:00:00Z"));
        (js "user_id", JStr (js "u1")); (js "user_name", JStr (js "Alice"));
        (js "text", JStr (js "hi")); (js "siteUrl", JStr [])].

Definition sampleRequest : ExpressRequest :=
  {| ex_method := Some (js "POST");
     ex_protocol := None;
     ex_host := Some (js "bot.example");
     ex_url := Some (js "/hooks/T");
     ex_body := Some scenarioMessageBody |}.

(** Scenario A's payload with a token that is not the configured one. *)
Definition forgedMessage : RocketChatInboundMessage :=
  {| token := js "WRONG"; bot := false; channel_id := js "c1";
     channel_name := None; message_id := Some (js "m1");
     timestamp := Some (js "2024-01-01T00:00:00Z"); user_id := js "u1";
     user_name := js "Alice"; text := Some (js "hi"); siteUrl := [] |}.

(** The configuration of the scenarios under the open policy. *)
Definition openConfig : RocketChatConfig :=
  withDmPolicy sampleConfig None None.

(** A section with one named account beside the top-level configuration. *)
Definition sampleSection : RocketChatSection :=
  {| section_config := sampleConfig;
     section_accounts := Some [(js "work", openConfig)] |}.

(** A message with other values in the fields a payload may leave out
    unread: the channel id, the sender's name when it is empty, and the
    site URL. *)
Definition withChannelId (d : RocketChatInboundMessage) (c : jsstring)
  : RocketChatInboundMessage :=
  {| token := token d; bot := bot d; channel_id := c;
     channel_name := channel_name d; message_id := message_id d;
     timestamp := timestamp d; user_id := user_id d;
     user_name := user_name d; text := text d; siteUrl := siteUrl d |}.

Definition withSiteUrl (d : RocketChatInboundMessage) (u : jsstring)
  : RocketChatInboundMessage :=
  {| token := token d; bot := bot d; channel_id := channel_id d;
     channel_name := channel_name d; message_id := message_id d;
     timestamp := timestamp d; user_id := user_id d;
     user_name := user_name d; text := text d; siteUrl := u |}.

(** The payload of scenario A as the specification gives it, decoded: it
    has no [bot], [channel_id], [message_id], [timestamp] or [siteUrl]. *)
Definition scenarioABody : jsvalue :=
  JObj [(js "token", JStr (js "T")); (js "user_id", JStr (js "u1"));
        (js "user_name", JStr (js "Alice")); (js "channel_name", JNull);
        (js "text", JStr (js "hi"))].

(** [JSON.parse] on that payload; anything else is a syntax error. *)
Definition scenarioAParse (s : jsstring) : JsError + jsvalue :=
  if str_eqb s (jsq "{'token':'T','user_id':'u1','user_name':'Alice','channel_name':null,'text':'hi'}")
  then inr scenarioABody
  else inl {| message := js "Unexpected token" |}.

(** The route of the default account under the open policy. *)
Definition openGateway : GatewayStartContext :=
  {| account_accountId := js "default"; account_config := openConfig;
     ctx_cfg := sampleCfg; ctx_log := Some 1 |}.

(** A pipeline that throws on every body that is not a message. *)
Definition offTypeThrows (cfg : OpenClawConfig) (accountId0 : jsstring)
           (data0 : jsvalue) (sessionWebhook0 : jsstring) (log0 : Logger)
           (rocketchatConfig : RocketChatConfig) : M unit :=
  throw {| message := js "data.text?.trim is not a function" |}.

(** A [JSON.parse] that reads scenario A's payload. *)
Definition payloadParse (s : jsstring) : JsError + jsvalue :=
  inr scenarioMessageBody.

Definition noUntyped (body : option jsvalue) (sessionWebhook0 : jsstring)
  : MS unit := retS tt.

(* ------------------------------------------------------------------ *)
(** ** Helpers of [utils.ts] *)

Definition sensitiveKeys : list jsstring :=
  [js "token"; js "authToken"; js "password"; js "secret"; js "key"].

Definition maskedText : jsstring := js "[MASKED]".

(** The test of [maskSensitiveData] on a key: some sensitive word contains
    the key, or the key contains it, both in lower case. *)
Definition isSensitiveKey (key : jsstring) : bool :=
  existsb
    (fun sk =>
       includes (toLowerCase key) (toLowerCase sk)
       || includes (toLowerCase sk) (toLowerCase key))
    sensitiveKeys.

(** The property name of an array index. *)
Definition indexKey (i : nat) : jsstring :=
  js (NilEmpty.string_of_uint (Nat.to_uint i)).

(** [maskSensitiveData]: [null] and primitives are returned as they are;
    an object is copied with each sensitive entry replaced by the mask and
    each other entry masked in turn; an array is copied the same way into
    an object keyed by its indices, which is what the spread of the source
    makes of it. *)
Fixpoint maskSensitiveData (obj : jsvalue) : jsvalue :=
  match obj with
  | JObj fields =>
      JObj ((fix maskFields (l : list (jsstring * jsvalue)) :=
               match l with
               | [] => []
               | (key, value) :: rest =>
                   (key,
                    if isSensitiveKey key then JStr maskedText
                    else maskSensitiveData value)
                   :: maskFields rest
               end) fields)
  | JArr items =>
      JObj ((fix maskItems (i : nat) (l : list jsvalue) :=
               match l with
               | [] => []
               | value :: rest =>
                   (indexKey i,
                    if isSensitiveKey (indexKey i) then JStr maskedText
                    else maskSensitiveData value)
                   :: maskItems (S i) rest
               end) 0 items)
  | other => other
  end.

(** No value under a sensitive key is left in the clear, at any depth. *)
Fixpoint secretsMasked (v : jsvalue) : Prop :=
  match v with
  | JObj fields =>
      (fix each (l : list (jsstring * jsvalue)) : Prop :=
         match l with
         | [] => True
         | (key, value) :: rest =>
             (isSensitiveKey key = true -> value = JStr maskedText)
             /\ secretsMasked value /\ each rest
         end) fields
  | JArr items =>
      (fix each (l : list jsvalue) : Prop :=
         match l with
         | [] => True
         | value :: rest => secretsMasked value /\ each rest
         end) items
  | _ => True
  end.

(** The keys of an object, in order; none for another value. *)
Definition keysOf (v : jsvalue) : list jsstring :=
  match v with
  | JObj fields => map fst fields
  | _ => []
  end.


(* ------------------------------------------------------------------ *)
(** ** [sanitizeText] *)

Definition NBSP : N := 160.
Definition SPACE : N := 32.
Definition CR : N := 13.
Definition LF : N := 10.

(** [text.replace(/\u00A0/g, ' ')]. *)
Definition replaceNbsp (text : jsstring) : jsstring :=
  map (fun c => if N.eqb c NBSP then SPACE else c) text.

(** [text.replace(/\r\n/g, '\n')]: matches are found left to right and do
    not overlap; the scan resumes after each match. *)
Fixpoint replaceCrLf (text : jsstring) : jsstring :=
  match text with
  | [] => []
  | c :: rest =>
      match rest with
      | d :: rest' =>
          if N.eqb c CR && N.eqb d LF then LF :: replaceCrLf rest'
          else c :: replaceCrLf rest
      | [] => [c]
      end
  end.

Definition sanitizeText (text : jsstring) : jsstring :=
  firstn 4000 (replaceCrLf (replaceNbsp text)).

(* ------------------------------------------------------------------ *)
(** ** [retryWithBackoff] *)

Record RetryOptions := {
  ro_maxRetries : option Z;
  ro_delayMs : option Z;
  ro_log : option Logger
}.

(** What a run of [retryWithBackoff] does, oldest first: the calls of [fn],
    the debug lines and the waits. *)
Inductive retryEvent :=
| RetryCall (i : nat)
| RetryDebug (lg : Logger) (attempt total delay : Z) (m : jsstring)
| RetryWait (delay : Z).

Section Retry.

Variable T : Type.

(** [fn i] is the outcome of the call of [fn] made in iteration [i]: the
    promise is rejected with an error or fulfilled with a value. *)
Variable fn : nat -> JsError + T.
Variables maxRetries delayMs : Z.
Variable lg : option Logger.

(** The body of one failed iteration after [lastError = error]. *)
Definition retryPause (i : nat) (error : JsError) : list retryEvent :=
  if Z.ltb (Z.of_nat i) maxRetries then
    let delay := (delayMs * 2 ^ Z.of_nat i)%Z in
    match lg with
    | Some l =>
        [RetryDebug l (Z.of_nat i + 1) (maxRetries + 1) delay (message error)]
    | None => []
    end ++ [RetryWait delay]
  else [].

(** The [for] loop from iteration [i] on. The result is the value returned,
    or the value thrown after the loop: [lastError], [undefined] ([None])
    when no call was made. [None] stands for a loop cut short by [fuel]. *)
Fixpoint retryLoop (fuel i : nat) (lastError : option JsError)
  : option ((option JsError + T) * list retryEvent) :=
  match fuel with
  | O => None
  | S fuel' =>
      if Z.leb (Z.of_nat i) maxRetries then
        match fn i with
        | inr v => Some (inr v, [RetryCall i])
        | inl error =>
            match retryLoop fuel' (S i) (Some error) with
            | Some (r, ev) =>
                Some (r, RetryCall i :: retryPause i error ++ ev)
            | None => None
            end
        end
      else Some (inl lastError, [])
  end.

End Retry.

Definition maxRetriesOf (options : RetryOptions) : Z :=
  match ro_maxRetries options with Some n => n | None => 3%Z end.

Definition delayMsOf (options : RetryOptions) : Z :=
  match ro_delayMs options with Some n => n | None => 1000%Z end.

Definition retryWithBackoff (T : Type) (fn : nat -> JsError + T)
           (options : RetryOptions)
  : option ((option JsError + T) * list retryEvent) :=
  retryLoop fn (maxRetriesOf options) (delayMsOf options) (ro_log options)
            (S (Z.to_nat (maxRetriesOf options + 1))) 0 None.

Definition callsOf (ev : list retryEvent) : list nat :=
  flat_map (fun e => match e with RetryCall i => [i] | _ => [] end) ev.

Definition waitsOf (ev : list retryEvent) : list Z :=
  flat_map (fun e => match e with RetryWait d => [d] | _ => [] end) ev.

(** The waits of the source: [delayMs * 2^i] after the failure of
    iteration [i]. *)
Definition backoff (delayMs : Z) (i : nat) : Z :=
  (delayMs * 2 ^ Z.of_nat i)%Z.

Definition totalOf (l : list Z) : Z := fold_right Z.add 0%Z l.

Definition defaultRetry : RetryOptions :=
  {| ro_maxRetries := None; ro_delayMs := None; ro_log := None |}.

(** A call that fails twice and then answers. *)
Definition flaky (i : nat) : JsError + nat :=
  if Nat.ltb i 2 then inl {| message := js "down" |} else inr i.

(** A call that always fails, with the iteration in its message. *)
Definition failing (i : nat) : JsError + nat :=
  inl {| message := indexKey i |}.

(* ------------------------------------------------------------------ *)
(** ** Stopping an account ([gateway.startAccount]) *)

(** The function stored under an account id in
    [globalThis.__rocketchat_unregister_functions]: the closure of one
    [startAccount] call, over its two routes and its logger. *)
Record Cleanup := {
  cleanup_start : nat;
  cleanup_log : option Logger
}.

(** The [stopped] flag of one [startAccount] call and the global table. *)
Record Lifecycle := {
  stopped : bool;
  unregisterFunctions : option (list (jsstring * Cleanup))
}.

Inductive lifecycleEvent :=
| LcStopping (lg : Logger) (accountId : jsstring)
| LcProviderStopped (lg : Logger) (accountId : jsstring)
| LcUnregisterWebhook (start : nat)
| LcUnregisterHealth (start : nat)
| LcUnregisterError (lg : Logger) (accountId : jsstring) (m : jsstring).

Inductive signal := SigAbort | SigStop.

Fixpoint lookupCleanup (accountId : jsstring)
         (table : list (jsstring * Cleanup)) : option Cleanup :=
  match table with
  | [] => None
  | (k, c) :: rest =>
      if str_eqb k accountId then Some c else lookupCleanup accountId rest
  end.

(** [delete table[accountId]]. *)
Definition deleteCleanup (accountId : jsstring)
           (table : list (jsstring * Cleanup)) : list (jsstring * Cleanup) :=
  filter (fun kc => negb (str_eqb (fst kc) accountId)) table.

Section Lifecycle.

(** What the host's two unregister functions do for the routes of a
    [startAccount] call: return ([None]) or throw. *)
Variables unregisterWebhook unregisterHealth : nat -> option JsError.

(** [if (ctx.log?.info) ctx.log.info(...)]. *)
Definition infoLine (lg : option Logger) (line : Logger -> lifecycleEvent)
  : list lifecycleEvent :=
  match lg with
  | Some l => [line l]
  | None => []
  end.

(** The stored closure: both routes are unregistered, the webhook first; an
    error of either is caught and logged. *)
Definition runCleanup (accountId : jsstring) (c : Cleanup)
  : list lifecycleEvent :=
  let failed (e : JsError) :=
    match cleanup_log c with
    | Some l => [LcUnregisterError l accountId (message e)]
    | None => []
    end in
  LcUnregisterWebhook (cleanup_start c)
  :: match unregisterWebhook (cleanup_start c) with
     | Some e => failed e
     | None =>
         LcUnregisterHealth (cleanup_start c)
         :: match unregisterHealth (cleanup_start c) with
            | Some e => failed e
            | None => []
            end
     end.

(** The listener of the abort signal. *)
Definition onAbort (accountId : jsstring) (lg : option Logger)
           (st : Lifecycle) : Lifecycle * list lifecycleEvent :=
  if stopped st then (st, [])
  else
    let info := infoLine lg (fun l => LcStopping l accountId) in
    match unregisterFunctions st with
    | Some table =>
        match lookupCleanup accountId table with
        | Some c =>
            ({| stopped := true;
                unregisterFunctions := Some (deleteCleanup accountId table) |},
             info ++ runCleanup accountId c)
        | None =>
            ({| stopped := true; unregisterFunctions := Some table |}, info)
        end
    | None => ({| stopped := true; unregisterFunctions := None |}, info)
    end.

(** The [stop] function [startAccount] returns. *)
Definition stop (accountId : jsstring) (lg : option Logger)
           (st : Lifecycle) : Lifecycle * list lifecycleEvent :=
  if stopped st then (st, [])
  else
    ({| stopped := true; unregisterFunctions := unregisterFunctions st |},
     infoLine lg (fun l => LcProviderStopped l accountId)).

(** The host delivers abort signals and calls [stop], in any order. *)
Fixpoint deliverSignals (accountId : jsstring) (lg : option Logger)
         (signals : list signal) (st : Lifecycle)
  : Lifecycle * list lifecycleEvent :=
  match signals with
  | [] => (st, [])
  | sg :: rest =>
      let (st1, ev1) :=
        match sg with
        | SigAbort => onAbort accountId lg st
        | SigStop => stop accountId lg st
        end in
      let (st2, ev2) := deliverSignals accountId lg rest st1 in
      (st2, ev1 ++ ev2)
  end.

End Lifecycle.

Definition unregisters (e : lifecycleEvent) : bool :=
  match e with
  | LcUnregisterWebhook _ | LcUnregisterHealth _ => true
  | _ => false
  end.

Definition runningAccount : Lifecycle :=
  {| stopped := false;
     unregisterFunctions :=
       Some [(js "default", {| cleanup_start := 0; cleanup_log := Some 1 |})] |}.

Definition unregisterOk (start : nat) : option JsError := None.
(* ================================================================== *)
(** * Properties *)
(* ================================================================== *)

Lemma str_eqb_eq (a b : jsstring) : str_eqb a b = true <-> a = b.
Proof.
  revert b; induction a as [|x a IH]; intros [|y b]; simpl;
    try (split; [discriminate | discriminate]); try tauto.
  rewrite andb_true_iff, N.eqb_eq, IH.
  split; [intros [-> ->]; reflexivity | intros H; inversion H; auto].
Qed.

Lemma str_eqb_refl (a : jsstring) : str_eqb a a = true.
Proof. apply str_eqb_eq; reflexivity. Qed.

Lemma str_eqb_neq (a b : jsstring) : str_eqb a b = false <-> a <> b.
Proof.
  rewrite <- str_eqb_eq. destruct (str_eqb a b); split; congruence.
Qed.

Lemma arrayIncludes_In (x : jsstring) (arr : list jsstring) :
  arrayIncludes x arr = true <-> In x arr.
Proof.
  unfold arrayIncludes. rewrite existsb_exists. split.
  - intros [y [Hin Heq]]. apply str_eqb_eq in Heq. subst; assumption.
  - intros Hin. exists x. split; [assumption | apply str_eqb_refl].
Qed.

Lemma nonEmpty_true (s : jsstring) : nonEmpty s = true <-> s <> [].
Proof. destruct s; simpl; split; congruence. Qed.

(* ------------------------------------------------------------------ *)
(** ** Prefix stripping and trimming, declaratively *)

(** The prefix match of the regular expression, declaratively. *)
Lemma matchPrefixCI_spec (p s r : jsstring) :
  matchPrefixCI p s = Some r <->
  exists p', sameIgnoringCase p p' /\ s = p' ++ r.
Proof.
  revert s. induction p as [|a p IH]; intros s.
  - simpl. split.
    + intros H. injection H as ->. exists []. split; [constructor | reflexivity].
    + intros [p' [Hp ->]]. inversion Hp. reflexivity.
  - destruct s as [|c s].
    + simpl. split; [discriminate|].
      intros [p' [Hp Hs]]. inversion Hp; subst. discriminate.
    + cbn [matchPrefixCI].
      destruct (N.eqb (canonicalize a) (canonicalize c)) eqn:Hc.
      * apply N.eqb_eq in Hc. rewrite IH. split.
        -- intros [p' [Hp ->]]. exists (c :: p').
           split; [constructor; assumption | reflexivity].
        -- intros [p' [Hp Hs]]. inversion Hp; subst. injection Hs as -> ->.
           eexists; split; [eassumption | reflexivity].
      * apply N.eqb_neq in Hc. split; [discriminate|].
        intros [p' [Hp Hs]]. inversion Hp; subst. injection Hs as -> ->.
        contradiction.
Qed.

Ltac invert_same :=
  repeat match goal with
         | H : sameIgnoringCase (_ :: _) _ |- _ => inversion H; clear H; subst
         | H : Forall2 _ (_ :: _) _ |- _ => inversion H; clear H; subst
         | H : sameIgnoringCase [] _ |- _ => inversion H; clear H; subst
         | H : Forall2 _ [] _ |- _ => inversion H; clear H; subst
         end.

(** No two provider prefixes match the same string, so the order of the
    alternatives does not show. *)
Lemma hasProviderPrefix_strip (e r : jsstring) :
  hasProviderPrefix e r -> stripProviderPrefix e = r.
Proof.
  intros [p [p' [Hin [Hp ->]]]]. unfold stripProviderPrefix.
  destruct Hin as [<- | [<- | [<- | []]]];
    unfold js in Hp; simpl in Hp; invert_same.
  all: unfold js; cbn [list_ascii_of_string map app matchPrefixCI];
    repeat match goal with
           | H : canonicalize _ = canonicalize _ |- _ =>
               rewrite <- H; clear H
           end; reflexivity.
Qed.

(** [stripProviderPrefix] removes exactly one leading provider prefix. *)
Lemma strippedOnce_spec (e e' : jsstring) :
  strippedOnce e e' <-> e' = stripProviderPrefix e.
Proof.
  split.
  - intros [H | [Hno ->]].
    + symmetry. apply hasProviderPrefix_strip. assumption.
    + unfold stripProviderPrefix.
      destruct (matchPrefixCI (js "rocketchat:") e) as [r|] eqn:H1.
      { exfalso. apply (Hno r). apply matchPrefixCI_spec in H1.
        destruct H1 as [p' [Hp ->]]. exists (js "rocketchat:"), p'.
        repeat split; simpl; auto. }
      destruct (matchPrefixCI (js "rc:") e) as [r|] eqn:H2.
      { exfalso. apply (Hno r). apply matchPrefixCI_spec in H2.
        destruct H2 as [p' [Hp ->]]. exists (js "rc:"), p'.
        repeat split; simpl; auto. }
      destruct (matchPrefixCI (js "rocket:") e) as [r|] eqn:H3.
      { exfalso. apply (Hno r). apply matchPrefixCI_spec in H3.
        destruct H3 as [p' [Hp ->]]. exists (js "rocket:"), p'.
        repeat split; simpl; auto. }
      reflexivity.
  - intros ->. unfold stripProviderPrefix.
    destruct (matchPrefixCI (js "rocketchat:") e) as [r|] eqn:H1.
    { left. apply matchPrefixCI_spec in H1.
      destruct H1 as [p' [Hp ->]]. exists (js "rocketchat:"), p'.
      repeat split; simpl; auto. }
    destruct (matchPrefixCI (js "rc:") e) as [r|] eqn:H2.
    { left. apply matchPrefixCI_spec in H2.
      destruct H2 as [p' [Hp ->]]. exists (js "rc:"), p'.
      repeat split; simpl; auto. }
    destruct (matchPrefixCI (js "rocket:") e) as [r|] eqn:H3.
    { left. apply matchPrefixCI_spec in H3.
      destruct H3 as [p' [Hp ->]]. exists (js "rocket:"), p'.
      repeat split; simpl; auto. }
    right. split; [|reflexivity].
    intros rest [p [p' [Hin [Hp He]]]].
    assert (Hm : matchPrefixCI p e = Some rest)
      by (apply matchPrefixCI_spec; exists p'; auto).
    destruct Hin as [<- | [<- | [<- | []]]]; congruence.
Qed.

Lemma trimStart_nil (s : jsstring) : trimStart s = [] <-> whiteSpaceOnly s.
Proof.
  unfold whiteSpaceOnly. induction s as [|c s IH]; simpl.
  - split; [constructor | reflexivity].
  - destruct (isWhiteSpace c) eqn:Hc.
    + rewrite IH. split; intros H.
      * constructor; assumption.
      * inversion H; assumption.
    + split; [discriminate | intros H; inversion H; congruence].
Qed.

Lemma trimStart_whiteSpaceOnly (s : jsstring) :
  whiteSpaceOnly (trimStart s) <-> whiteSpaceOnly s.
Proof.
  unfold whiteSpaceOnly. induction s as [|c s IH]; simpl; [tauto|].
  destruct (isWhiteSpace c) eqn:Hc; [|tauto].
  rewrite IH. split; intros H.
  - constructor; assumption.
  - inversion H; assumption.
Qed.

(** A string trims to the empty string exactly when it is empty or white
    space only. *)
Lemma trim_nil (s : jsstring) : trim s = [] <-> whiteSpaceOnly s.
Proof.
  unfold trim, trimEnd.
  rewrite <- (trimStart_whiteSpaceOnly s).
  split.
  - intros H. apply (f_equal (@rev N)) in H. rewrite rev_involutive in H.
    simpl in H. apply trimStart_nil in H. unfold whiteSpaceOnly in *.
    apply Forall_rev in H. rewrite rev_involutive in H. exact H.
  - intros H. unfold whiteSpaceOnly in H. apply Forall_rev in H.
    apply trimStart_nil in H. rewrite H. reflexivity.
Qed.

(* ------------------------------------------------------------------ *)
(** ** Allow list *)

(** The trimmed, non-blank entries of a list. *)
Lemma In_trimmed (x : jsstring) (l : list jsstring) :
  In x (filter nonEmpty (map trim l)) <->
  exists e, In e l /\ trim e = x /\ x <> [].
Proof.
  rewrite filter_In, in_map_iff, nonEmpty_true. split.
  - intros [[e [He Hin]] Hne]. exists e; auto.
  - intros [e [Hin [He Hne]]]. split; [exists e; auto | assumption].
Qed.

Lemma hasEntries_false (allowList : option (list jsstring)) :
  hasEntries (normalizeAllowFrom allowList) = false <->
  noNonBlankEntries allowList.
Proof.
  unfold normalizeAllowFrom, noNonBlankEntries, listOf; simpl.
  set (l := match allowList with Some l => l | None => [] end).
  split.
  - intros H e Hin.
    destruct (trim e) as [|c r] eqn:Ht; [reflexivity | exfalso].
    assert (Hx : In (c :: r) (filter nonEmpty (map trim l))).
    { apply In_trimmed. exists e. repeat split; [assumption.. | discriminate]. }
    destruct (filter nonEmpty (map trim l)); [contradiction | discriminate].
  - intros H.
    destruct (filter nonEmpty (map trim l)) as [|x r] eqn:Hf; [reflexivity|].
    assert (Hx : In x (filter nonEmpty (map trim l))) by (rewrite Hf; left; auto).
    apply In_trimmed in Hx. destruct Hx as [e [Hin [He Hne]]].
    rewrite (H e Hin) in He. congruence.
Qed.

Lemma hasWildcard_true (allowList : option (list jsstring)) :
  hasWildcard (normalizeAllowFrom allowList) = true <->
  containsWildcard allowList.
Proof.
  unfold normalizeAllowFrom, containsWildcard, listOf; simpl.
  rewrite arrayIncludes_In, In_trimmed. split.
  - intros [e [Hin [He _]]]. exists e; auto.
  - intros [e [Hin He]]. exists e. repeat split; auto.
    rewrite <- He at 1. rewrite He. discriminate.
Qed.

Lemma In_entriesLower (x : jsstring) (allowList : option (list jsstring)) :
  In x (entriesLower (normalizeAllowFrom allowList)) <->
  exists e, In e (listOf allowList) /\ trim e <> [] /\ trim e <> js "*"
            /\ x = toLowerCase (stripProviderPrefix (trim e)).
Proof.
  unfold normalizeAllowFrom, listOf; simpl.
  rewrite in_map_iff. split.
  - intros [y [Hy Hin]]. apply in_map_iff in Hin.
    destruct Hin as [z [Hz Hin]]. apply filter_In in Hin.
    destruct Hin as [Hin Hstar]. apply In_trimmed in Hin.
    destruct Hin as [e [Hin [He Hne]]].
    apply negb_true_iff, str_eqb_neq in Hstar.
    exists e. subst. auto.
  - intros [e [Hin [Hne [Hstar Hx]]]].
    exists (stripProviderPrefix (trim e)). split; [auto|].
    apply in_map_iff. exists (trim e). split; [reflexivity|].
    apply filter_In. split.
    + apply In_trimmed. exists e; auto.
    + apply negb_true_iff, str_eqb_neq. assumption.
Qed.

(** C1 (as amended). The allow-list check, [normalizeAllowFrom] followed by
    [isSenderAllowed], answers allowed exactly when the list has no
    non-blank entry, or some entry is the wildcard, or the sender id is not
    empty and equals, ignoring case, some non-blank trimmed entry with one
    leading provider prefix removed. *)
Theorem allowlist_rule :
  forall (allowList : option (list jsstring)) (senderId : option jsstring),
    isSenderAllowed (normalizeAllowFrom allowList) senderId = true <->
    noNonBlankEntries allowList \/ containsWildcard allowList
    \/ senderMatches allowList senderId.
Proof.
  intros allowList senderId.
  rewrite <- hasEntries_false, <- hasWildcard_true.
  unfold isSenderAllowed.
  destruct (hasEntries (normalizeAllowFrom allowList)) eqn:He; cbn [negb];
    [| intuition congruence].
  destruct (hasWildcard (normalizeAllowFrom allowList)) eqn:Hw;
    [intuition congruence|].
  split.
  - intros H. right; right.
    destruct senderId as [s|]; [|discriminate].
    destruct (nonEmpty s) eqn:Hs; cbn [andb] in H; [|discriminate].
    destruct (arrayIncludes (toLowerCase s)
                (entriesLower (normalizeAllowFrom allowList))) eqn:Hi;
      [|discriminate].
    apply arrayIncludes_In, In_entriesLower in Hi.
    destruct Hi as [e [Hin [Hne [_ Hx]]]].
    exists s, e. split; [reflexivity|].
    split; [apply nonEmpty_true; assumption|].
    split; [assumption|]. split; [assumption|].
    exists (stripProviderPrefix (trim e)).
    split; [apply strippedOnce_spec; reflexivity | assumption].
  - intros [H | [H | H]]; try discriminate.
    destruct H as [s [e [-> [Hs [Hin [Hne [e' [He' Hx]]]]]]]].
    apply strippedOnce_spec in He'. subst e'.
    apply nonEmpty_true in Hs. rewrite Hs; cbn [andb].
    assert (Hstar : trim e <> js "*").
    { intros Hstar.
      assert (Hc : containsWildcard allowList) by (exists e; auto).
      apply hasWildcard_true in Hc. congruence. }
    assert (Hi : In (toLowerCase s)
                    (entriesLower (normalizeAllowFrom allowList))).
    { apply In_entriesLower. exists e. auto. }
    apply arrayIncludes_In in Hi. rewrite Hi. reflexivity.
Qed.

(** The prefix is removed once: what follows a first prefix is kept, also
    when it starts with a prefix again. *)
Lemma stripProviderPrefix_once :
  stripProviderPrefix (js "rc:rocket:u1") = js "rocket:u1"
  /\ stripProviderPrefix (js "RocketChat:U1") = js "U1"
  /\ stripProviderPrefix (js "u1") = js "u1".
Proof. repeat split; reflexivity. Qed.

Lemma leader_spec (c : N) : isLeader c = true <-> In c (js "#*>-").
Proof.
  unfold isLeader. rewrite !orb_true_iff, !N.eqb_eq. simpl.
  intuition (subst; auto); lia.
Qed.

Lemma inline_spec (c : N) : isInline c = true <-> In c (js "*_`#[]").
Proof.
  unfold isInline. rewrite !orb_true_iff, !N.eqb_eq. simpl.
  intuition (subst; auto); lia.
Qed.

Lemma includes_newline (t : jsstring) :
  includes [10%N] t = true <-> containsNewline t.
Proof.
  unfold containsNewline. induction t as [|c t IH].
  - simpl. split; [discriminate | tauto].
  - change (includes [10%N] (c :: t))
      with ((N.eqb 10 c && true) || includes [10%N] t).
    rewrite orb_true_iff, IH, andb_true_r, N.eqb_eq. cbn [In].
    intuition congruence.
Qed.

Lemma markdownRegexTest_spec (t : jsstring) :
  markdownRegexTest t = true <-> startsWithLeader t \/ containsInline t.
Proof.
  unfold markdownRegexTest, startsWithLeader, containsInline.
  rewrite orb_true_iff, existsb_exists.
  split.
  - intros [H | [c [Hin Hc]]].
    + destruct t as [|c r]; [discriminate|].
      left. exists c, r. split; [reflexivity | apply leader_spec; assumption].
    + right. exists c. split; [assumption | apply inline_spec; assumption].
  - intros [[c [r [-> Hc]]] | [c [Hin Hc]]].
    + left. apply leader_spec; assumption.
    + right. exists c. split; [assumption | apply inline_spec; assumption].
Qed.

(** C7. [detectMarkdown] answers false when [useMarkdown] is explicitly
    false; otherwise it answers true exactly when [useMarkdown] is true, or
    the text starts with a leader character, or contains a markdown
    character, or contains a newline. With no option set, the text hello is
    not markdown and a heading followed by a second line is. *)
Theorem detectMarkdown_rule :
  forall (t : jsstring) (options : SendMessageOptions),
    (useMarkdown options = Some false -> detectMarkdown t options = false)
    /\ (useMarkdown options <> Some false ->
        (detectMarkdown t options = true <->
         useMarkdown options = Some true \/ startsWithLeader t
         \/ containsInline t \/ containsNewline t))
    /\ detectMarkdown (js "hello") noOptions = false
    /\ detectMarkdown (js "# hello" ++ [10%N] ++ js "world") noOptions = true.
Proof.
  intros t options. unfold detectMarkdown.
  repeat split; try reflexivity.
  - intros ->. reflexivity.
  - destruct (useMarkdown options) as [[|]|]; try congruence; simpl; auto.
    rewrite orb_true_iff, markdownRegexTest_spec, includes_newline.
    tauto.
  - destruct (useMarkdown options) as [[|]|]; try congruence; simpl; auto.
    rewrite orb_true_iff, markdownRegexTest_spec, includes_newline.
    intros [Hu | Hm]; [discriminate | tauto].
Qed.

(* ------------------------------------------------------------------ *)
(** ** Outbound sender *)

Lemma sendBySession_request (config : RocketChatConfig)
      (sw t : jsstring) (options : SendMessageOptions) :
  sendBySession config sw t options =
  axiosCall (postJson (webhookUrl config)
                      {| out_text := sessionText t options |}).
Proof.
  unfold sendBySession, sessionText.
  destruct (atUserId options) as [id|]; [destruct (nonEmpty id)|];
    destruct (detectMarkdown t options); reflexivity.
Qed.

(** A provider call throws exactly the provider's error and returns exactly
    its data; either way the call is recorded once. *)
Lemma axiosCall_run (rq : AxiosRequest) (s : state) :
  eventsOf (axiosCall rq s) = [EAxios rq]
  /\ posts (stateOf (axiosCall rq s)) = S (posts s)
  /\ outcomeOf (axiosCall rq s) =
     match axios (posts s) rq with inl e => Throw e | inr d => Ret d end.
Proof.
  unfold axiosCall. destruct (axios (posts s) rq); repeat split.
Qed.

Lemma sendProactive_run (config : RocketChatConfig) (target t : jsstring)
      (options : SendMessageOptions) (s : state) :
  let log0 := match log options with
              | Some l => Some l
              | None => currentLogger s
              end in
  let rq := postJson (webhookUrl config) {| out_text := t |} in
  eventsOf (sendProactive config target t options s) =
    match log0 with
    | Some l => [ELog l LDebug (MsgProactiveTarget target);
                 ELog l LDebug (MsgSendingPayload {| out_text := t |});
                 EAxios rq]
    | None => [EAxios rq]
    end
  /\ outcomeOf (sendProactive config target t options s) =
     match axios (posts s) rq with inl e => Throw e | inr d => Ret d end.
Proof.
  unfold sendProactive, bind, getLogger, logOpt, logTo, emit, ret, axiosCall,
    eventsOf, outcomeOf.
  destruct (detectMarkdown t options);
    destruct (log options); [| destruct (currentLogger s) | |
                               destruct (currentLogger s)];
    simpl; destruct (axios (posts s) _); split; reflexivity.
Qed.

(** [sendMessage] always returns a result. *)
Lemma sendMessage_total (config : RocketChatConfig)
      (conversationId t : jsstring) (options : SendMessageOptions)
      (s : state) :
  exists r s' ev,
    sendMessage config conversationId t options s = (Ret r, s', ev).
Proof.
  unfold sendMessage, tryCatch, bind, ret, logOpt, logTo, emit.
  destruct (sessionWebhook options) as [sw|]; [destruct (nonEmpty sw)|];
    [ destruct (sendBySession config sw t options s) as [[[d|e] s1] ev1]
    | destruct (sendProactive config conversationId t options s)
        as [[[d|e] s1] ev1]
    | destruct (sendProactive config conversationId t options s)
        as [[[d|e] s1] ev1] ];
    try (destruct (log options)); do 3 eexists; reflexivity.
Qed.

(** The [deliver] callback sends the text of a block that has one, through
    [sendMessage], and does nothing for a block without text; in both cases
    it returns normally, whatever [sendMessage] answered. *)
Lemma deliver_run (config : RocketChatConfig)
      (to sw senderId acct : jsstring) (isDirect : bool) (lg : Logger)
      (payload : ReplyPayload) (s : state) :
  deliver config to sw senderId acct isDirect lg payload s
  = match blockText payload with
    | Some t =>
        if nonEmpty t then
          (Ret tt,
           stateOf (sendMessage config to t
                      (replyOptions sw senderId acct isDirect lg) s),
           eventsOf (sendMessage config to t
                       (replyOptions sw senderId acct isDirect lg) s))
        else (Ret tt, s, [])
    | None => (Ret tt, s, [])
    end.
Proof.
  unfold deliver, blockText, tryCatch.
  destruct (if truthy (payload_markdown payload)
            then payload_markdown payload else payload_text payload)
    as [t|]; [|reflexivity].
  destruct (nonEmpty t); [|reflexivity].
  unfold bind.
  destruct (sendMessage_total config to t
              (replyOptions sw senderId acct isDirect lg) s)
    as [r [s' [ev H]]].
  rewrite H. unfold ret, stateOf, eventsOf. simpl.
  rewrite app_nil_r. reflexivity.
Qed.

Lemma deliver_never_raises (config : RocketChatConfig)
      (to sw senderId acct : jsstring) (isDirect : bool) (lg : Logger)
      (payload : ReplyPayload) (s : state) :
  outcomeOf (deliver config to sw senderId acct isDirect lg payload s)
  = Ret tt.
Proof.
  rewrite deliver_run.
  destruct (blockText payload) as [t|]; [destruct (nonEmpty t)|];
    reflexivity.
Qed.

(** C3. [sendMessage] never raises: its outcome is always a delivery
    result, with [ok] true exactly when the chosen send path returned, and
    with [ok] false and the error message when that path threw. The chosen
    path is [sendBySession] exactly when the options carry a non-empty
    session webhook, and [sendProactive] otherwise; [sendMessage] performs
    the effects of that path and nothing more, but for the failure log. *)
Theorem sendMessage_never_raises :
  forall (config : RocketChatConfig) (conversationId t : jsstring)
         (options : SendMessageOptions) (s : state),
    let path :=
      if truthy (sessionWebhook options)
      then sendBySession config
             (orDefault (sessionWebhook options) []) t options
      else sendProactive config conversationId t options in
    exists r : DeliveryResult,
      outcomeOf (sendMessage config conversationId t options s) = Ret r
      /\ stateOf (sendMessage config conversationId t options s)
         = stateOf (path s)
      /\ match outcomeOf (path s) with
         | Ret d =>
             r = {| ok := true; error := None;
                    data := if truthy (sessionWebhook options)
                            then None else Some d |}
             /\ eventsOf (sendMessage config conversationId t options s)
                = eventsOf (path s)
         | Throw e =>
             r = {| ok := false; error := Some (message e); data := None |}
             /\ eventsOf (sendMessage config conversationId t options s)
                = eventsOf (path s) ++ failureLog options e
         end.
Proof.
  intros config conversationId t options s path.
  unfold sendMessage, tryCatch, failureLog, outcomeOf, stateOf, eventsOf.
  subst path. unfold truthy, orDefault, bind, ret, logOpt, logTo, emit.
  destruct (sessionWebhook options) as [sw|]; [destruct (nonEmpty sw)|];
    [ destruct (sendBySession config sw t options s) as [[[d|e] s1] ev1]
    | destruct (sendProactive config conversationId t options s)
        as [[[d|e] s1] ev1]
    | destruct (sendProactive config conversationId t options s)
        as [[[d|e] s1] ev1] ];
    try (destruct (log options)); cbn;
    rewrite ?app_nil_r; eexists; repeat split; reflexivity.
Qed.

(* ------------------------------------------------------------------ *)
(** ** Events of composed computations *)

Section Emits.

Variable P : event -> Prop.

Lemma emits_ret {A} (a : A) : emits P (ret a).
Proof. intros s. constructor. Qed.

Lemma emits_throw {A} (e : JsError) : emits P (@throw A e).
Proof. intros s. constructor. Qed.

Lemma emits_emit (e : event) : P e -> emits P (emit e).
Proof. intros H s. repeat constructor. assumption. Qed.

Lemma emits_bind {A B} (m : M A) (k : A -> M B) :
  emits P m -> (forall a, emits P (k a)) -> emits P (bind m k).
Proof.
  intros Hm Hk s. unfold bind, eventsOf.
  specialize (Hm s). unfold eventsOf in Hm.
  destruct (m s) as [[[a|e] s1] ev1]; simpl in *; [|assumption].
  specialize (Hk a s1). unfold eventsOf in Hk.
  destruct (k a s1) as [[o s2] ev2]; simpl in *.
  apply Forall_app; split; assumption.
Qed.

Lemma emits_tryCatch {A} (m : M A) (h : JsError -> M A) :
  emits P m -> (forall e, emits P (h e)) -> emits P (tryCatch m h).
Proof.
  intros Hm Hh s. unfold tryCatch, eventsOf.
  specialize (Hm s). unfold eventsOf in Hm.
  destruct (m s) as [[[a|e] s1] ev1]; simpl in *; [assumption|].
  specialize (Hh e s1). unfold eventsOf in Hh.
  destruct (h e s1) as [[o s2] ev2]; simpl in *.
  apply Forall_app; split; assumption.
Qed.

Lemma emits_setCurrentLogger (lg : Logger) : emits P (setCurrentLogger lg).
Proof. intros s. constructor. Qed.

Lemma emits_getLogger : emits P getLogger.
Proof. intros s. constructor. Qed.

Hypothesis P_log : forall lg lvl m, P (ELog lg lvl m).
Hypothesis P_send : forall rq, P (EAxios rq).

Lemma emits_logTo lg lvl m : emits P (logTo lg lvl m).
Proof. apply emits_emit, P_log. Qed.

Lemma emits_logOpt lg lvl m : emits P (logOpt lg lvl m).
Proof. destruct lg; [apply emits_logTo | apply emits_ret]. Qed.

Lemma emits_axiosCall rq : emits P (axiosCall rq).
Proof.
  intros s. unfold axiosCall, eventsOf.
  destruct (axios (posts s) rq); simpl; repeat constructor; apply P_send.
Qed.

Lemma emits_sendBySession config sw t options :
  emits P (sendBySession config sw t options).
Proof. rewrite sendBySession_request. apply emits_axiosCall. Qed.

Lemma emits_sendProactive config target t options :
  emits P (sendProactive config target t options).
Proof.
  unfold sendProactive.
  apply emits_bind; [apply emits_getLogger | intros current].
  apply emits_bind; [apply emits_logOpt | intros _].
  apply emits_bind; [apply emits_logOpt | intros _].
  apply emits_axiosCall.
Qed.

Lemma emits_sendMessage config conversationId t options :
  emits P (sendMessage config conversationId t options).
Proof.
  unfold sendMessage.
  apply emits_tryCatch.
  - destruct (sessionWebhook options) as [sw|]; [destruct (nonEmpty sw)|];
      (apply emits_bind;
       [first [apply emits_sendBySession | apply emits_sendProactive]
       | intros ?; apply emits_ret]).
  - intros err. apply emits_bind; [apply emits_logOpt | intros _].
    apply emits_ret.
Qed.

Lemma emits_deliver config to sw senderId acct isDirect lg payload :
  emits P (deliver config to sw senderId acct isDirect lg payload).
Proof.
  unfold deliver. apply emits_tryCatch.
  - destruct (if truthy (payload_markdown payload)
              then payload_markdown payload else payload_text payload)
      as [t|]; [destruct (nonEmpty t)|]; try apply emits_ret.
    apply emits_bind; [apply emits_sendMessage | intros _; apply emits_ret].
  - intros err. apply emits_bind; [apply emits_logTo | intros _].
    apply emits_throw.
Qed.

Lemma emits_deliverBlocks (callback : ReplyPayload -> M unit) blocks :
  (forall b, emits P (callback b)) -> emits P (deliverBlocks callback blocks).
Proof.
  intros Hc. induction blocks as [|b rest IH]; simpl.
  - apply emits_ret.
  - apply emits_bind; [apply Hc | intros _; exact IH].
Qed.

End Emits.

(* ------------------------------------------------------------------ *)
(** ** Inbound pipeline *)

Lemma normalizeAllowFrom_default (a : option (list jsstring)) :
  normalizeAllowFrom (Some (match a with Some l => l | None => [] end))
  = normalizeAllowFrom a.
Proof. destruct a; reflexivity. Qed.

Lemma isDirectMessage_spec (d : RocketChatInboundMessage) :
  isDirectMessage d = true <-> channelAbsent d \/ channelStartsWithAt d.
Proof.
  unfold isDirectMessage, channelAbsent, channelStartsWithAt.
  destruct (channel_name d) as [[|c n]|].
  - simpl. intuition.
  - change (negb (nonEmpty (c :: n)) || startsWith (js "@") (c :: n))
      with ((64 =? c)%N && true).
    rewrite andb_true_r, N.eqb_eq. split.
    + intros <-. right. exists n. reflexivity.
    + intros [[H|H] | [r H]]; congruence.
  - simpl. intuition.
Qed.

Lemma isDirectMessage_group (d : RocketChatInboundMessage) :
  isDirectMessage d = false ->
  exists n, channel_name d = Some n
            /\ orDefault (channel_name d) (js "Direct Message") = n.
Proof.
  unfold isDirectMessage.
  destruct (channel_name d) as [[|c n]|]; try discriminate.
  intros _. exists (c :: n). split; reflexivity.
Qed.

(** The envelope built for a message obeys the addressing rule, whatever
    the other fields are. *)
Lemma envelope_ok (d : RocketChatInboundMessage) (ctx : InboundContext) :
  ChatType_ ctx = (if isDirectMessage d then Direct else Group) ->
  From ctx = (if isDirectMessage d then user_id d else channel_id d) ->
  To ctx = (if isDirectMessage d then user_id d else channel_id d) ->
  ConversationLabel ctx =
    (if isDirectMessage d
     then senderNameOf d ++ js " (" ++ user_id d ++ js ")"
     else orDefault (channel_name d) (js "Direct Message")
          ++ js " - " ++ senderNameOf d) ->
  envelopeRule d ctx.
Proof.
  intros Hc Hf Ht Hl. unfold envelopeRule. rewrite Hc, Hf, Ht, Hl.
  destruct (isDirectMessage d) eqn:Hd.
  - split; [|split].
    + split; [intros _; apply isDirectMessage_spec; assumption | reflexivity].
    + intros _. repeat split.
    + discriminate.
  - split; [|split].
    + split; [discriminate|].
      intros H. apply isDirectMessage_spec in H. congruence.
    + discriminate.
    + intros _. destruct (isDirectMessage_group d Hd) as [n [Hn Hor]].
      exists n. rewrite Hor. repeat split. assumption.
Qed.

(** One step through the pipeline: every event but the envelope is a log
    line, a provider call or a host call that carries no envelope. *)
Ltac emits_step :=
  first
    [ apply emits_ret
    | apply emits_logTo; intros; exact I
    | apply emits_emit; exact I
    | apply emits_emit; apply envelope_ok;
      cbn [ChatType_ From To ConversationLabel];
      match goal with
      | H : isDirectMessage _ = _ |- _ => rewrite H; reflexivity
      end
    | apply emits_setCurrentLogger
    | apply emits_sendBySession; intros; exact I
    | apply emits_sendMessage; intros; exact I
    | apply emits_deliverBlocks; intros ?; apply emits_deliver; intros; exact I
    | apply emits_bind; [| intros ?]
    | apply emits_tryCatch; [| intros ?]
    | match goal with
      | |- emits _ (if ?c then _ else _) => destruct c eqn:?
      | |- emits _ (match ?c with _ => _ end) => destruct c eqn:?
      end ].

(** C9. Whenever the pipeline builds an envelope, the message is classified
    direct exactly when its channel name is absent or starts with the at
    sign, and group otherwise; From and To are both the sender's user id for
    a direct message and the channel id for a group message; and the
    conversation label is the sender name followed by the user id in
    parentheses for a direct message, and the channel name, a dash and the
    sender name for a group message. *)
Theorem envelope_addressing :
  forall (params : HandleRocketChatMessageParams) (s : state)
         (ctx : InboundContext),
    In (EFinalizeInboundContext ctx)
       (eventsOf (handleRocketChatMessage params s)) ->
    envelopeRule (p_data params) ctx.
Proof.
  intros params s ctx Hin.
  assert (Hall : emits (envelopeEventOk (p_data params))
                       (handleRocketChatMessage params)).
  { unfold handleRocketChatMessage, dispatchReplyWithBufferedBlockDispatcher.
    cbv zeta. repeat emits_step. }
  specialize (Hall s). rewrite Forall_forall in Hall.
  exact (Hall _ Hin).
Qed.

(** The notice sent on denial posts its text unchanged. *)
Lemma sessionText_plain (t : jsstring) (lg : option Logger) :
  sessionText t {| useMarkdown := None; title := None; atUserId := None;
                   log := lg; sessionWebhook := None; accountId := None |}
  = t.
Proof. reflexivity. Qed.

(** C4. For a direct message that reaches authorization (valid token, not
    from a bot, non-blank text) under the allowlist policy, from a sender the
    allow-list check rejects: the pipeline makes exactly one provider call,
    the denial notice, whose text contains the sender's user id, and returns
    without an envelope, a session record or a reply dispatch. When that
    call fails the failure is logged; there is no second call and the
    pipeline still returns normally. *)
Theorem denied_dm_gets_one_notice :
  forall (params : HandleRocketChatMessageParams) (s : state),
    let d := p_data params in
    let config := p_rocketchatConfig params in
    token d = authToken config ->
    bot d = false ->
    ~ blankText d ->
    isDirectMessage d = true ->
    dmPolicy config = Some PolicyAllowlist ->
    isSenderAllowed (normalizeAllowFrom (allowFrom config))
                    (Some (user_id d)) = false ->
    exists notice before after,
      notice = before ++ user_id d ++ after
      /\ outcomeOf (handleRocketChatMessage params s) = Ret tt
      /\ eventsOf (handleRocketChatMessage params s)
         = [ELog (p_log params) LDebug MsgFullInbound;
            ELog (p_log params) LDebug (MsgDmBlocked (user_id d));
            EAxios (postJson (webhookUrl config) {| out_text := notice |})]
           ++ match axios (posts s)
                          (postJson (webhookUrl config)
                                    {| out_text := notice |}) with
              | inl e => [ELog (p_log params) LDebug
                               (MsgDeniedNoticeFailed (message e))]
              | inr _ => []
              end.
Proof.
  intros params s d config Htok Hbot Htext Hdirect Hpol Hdenied.
  exists (accessRestrictedText (user_id d)),
         ([9940%N] ++ js " Access restricted" ++ [10%N; 10%N]
          ++ js "Your user ID: `"),
         (js "`" ++ [10%N; 10%N]
          ++ js "Please contact administrator to add this ID to the allowlist.").
  split.
  { unfold accessRestrictedText. rewrite <- !app_assoc. reflexivity. }
  assert (Hne : nonEmpty (content_text (extractMessageContent d)) = true).
  { unfold blankText in Htext. unfold extractMessageContent; simpl.
    destruct (text d) as [t|]; [| tauto].
    apply nonEmpty_true. assumption. }
  unfold handleRocketChatMessage. cbv zeta. fold d config.
  rewrite Htok, str_eqb_refl, Hbot, Hne, Hdirect, Hpol.
  rewrite normalizeAllowFrom_default, Hdenied.
  rewrite sendBySession_request, sessionText_plain.
  unfold bind, tryCatch, setCurrentLogger, logTo, emit, ret, axiosCall,
    outcomeOf, eventsOf.
  cbn [negb posts fst snd app].
  destruct (axios (posts s) _); split; reflexivity.
Qed.

(** C8. A payload whose text is blank makes the pipeline return normally
    without an envelope, a session record or any provider call: it emits
    log lines only, and exactly the inbound trace line when the token is
    valid and the message is not from a bot. *)
Theorem blank_text_is_noop :
  forall (params : HandleRocketChatMessageParams) (s : state),
    blankText (p_data params) ->
    outcomeOf (handleRocketChatMessage params s) = Ret tt
    /\ Forall isLog (eventsOf (handleRocketChatMessage params s))
    /\ posts (stateOf (handleRocketChatMessage params s)) = posts s
    /\ (token (p_data params) = authToken (p_rocketchatConfig params) ->
        bot (p_data params) = false ->
        eventsOf (handleRocketChatMessage params s)
        = [ELog (p_log params) LDebug MsgFullInbound]).
Proof.
  intros params s Hblank.
  assert (He : nonEmpty (content_text (extractMessageContent (p_data params)))
               = false).
  { unfold blankText in Hblank. unfold extractMessageContent; simpl.
    destruct (text (p_data params)) as [t|]; [rewrite Hblank|]; reflexivity. }
  unfold handleRocketChatMessage. cbv zeta. rewrite He.
  unfold bind, setCurrentLogger, logTo, emit, ret, outcomeOf, stateOf, eventsOf.
  destruct (str_eqb (token (p_data params))
                    (authToken (p_rocketchatConfig params))) eqn:Htok;
    destruct (bot (p_data params)) eqn:Hbot; cbn;
    repeat split; repeat constructor;
    try (intros Ht; apply str_eqb_eq in Ht; congruence);
    try discriminate.
Qed.

(** C10. A payload marked as coming from a bot makes the pipeline return
    normally with log lines only: no provider call, envelope or session
    record. The run is the same whatever the text is and whatever the DM
    policy and allow list are: neither content extraction nor the
    authorization check takes part in it. *)
Theorem bot_message_is_ignored :
  forall (params : HandleRocketChatMessageParams) (s : state),
    bot (p_data params) = true ->
    outcomeOf (handleRocketChatMessage params s) = Ret tt
    /\ Forall isLog (eventsOf (handleRocketChatMessage params s))
    /\ posts (stateOf (handleRocketChatMessage params s)) = posts s
    /\ (forall t,
         handleRocketChatMessage (withData params (withText (p_data params) t)) s
         = handleRocketChatMessage params s)
    /\ (forall policy allowList,
         handleRocketChatMessage
           (withConfig params
              (withDmPolicy (p_rocketchatConfig params) policy allowList)) s
         = handleRocketChatMessage params s)
    /\ (token (p_data params) = authToken (p_rocketchatConfig params) ->
        eventsOf (handleRocketChatMessage params s)
        = [ELog (p_log params) LDebug MsgFullInbound;
           ELog (p_log params) LDebug MsgIgnoringBot]).
Proof.
  intros params s Hbot.
  unfold handleRocketChatMessage. cbv zeta.
  cbn [withData withText withConfig withDmPolicy p_data p_rocketchatConfig
       p_cfg p_accountId p_sessionWebhook p_log token bot authToken].
  rewrite Hbot.
  unfold bind, setCurrentLogger, logTo, emit, ret, outcomeOf, stateOf, eventsOf.
  destruct (str_eqb (token (p_data params))
                    (authToken (p_rocketchatConfig params))) eqn:Htok; cbn;
    repeat split; repeat constructor;
    try (intros Ht; apply str_eqb_eq in Ht; congruence).
Qed.

(* ------------------------------------------------------------------ *)
(** ** Webhook route *)

Lemma jsonParse_run (x : jsstring) (s : state) :
  jsonParse x s
  = (match JSON_parse x with inl e => Throw e | inr v => Ret v end, s, []).
Proof. unfold jsonParse. destruct (JSON_parse x); reflexivity. Qed.

Lemma parseFormBody_pure (body : jsstring) :
  exists o, forall s, parseFormBody body s = (o, s, []).
Proof.
  unfold parseFormBody, bind, getProp, ret.
  destruct (lookupField (js "payload")
              (map (fun kv => (fst kv, JStr (snd kv))) (formEntries body)))
    as [[| | |p| |]|]; try (eexists; intros s; reflexivity).
  destruct (nonEmpty p); [|eexists; intros s; reflexivity].
  eexists. intros s. rewrite jsonParse_run. reflexivity.
Qed.

(** Decoding a body reads nothing but the request: the state is unchanged
    and nothing is emitted. *)
Lemma parseRequestBody_pure (req : IncomingMessage) :
  exists o, forall s, parseRequestBody req s = (o, s, []).
Proof.
  unfold parseRequestBody.
  destruct (includes (js "application/json") _).
  - eexists. intros s. apply jsonParse_run.
  - destruct (includes (js "application/x-www-form-urlencoded") _).
    + apply parseFormBody_pure.
    + destruct (parseFormBody_pure (req_body req)) as [o Ho].
      unfold tryCatch.
      destruct (JSON_parse (req_body req)) as [e|v] eqn:Hj.
      * exists o. intros s. rewrite jsonParse_run, Hj, Ho. reflexivity.
      * exists (Ret v). intros s. rewrite jsonParse_run, Hj. reflexivity.
Qed.

Lemma getProp_fieldOf (v : jsvalue) (name : string) (s : state) :
  v <> JNull -> getProp v (js name) s = (Ret (fieldOf v name), s, []).
Proof. destruct v; intros H; try reflexivity. congruence. Qed.

Lemma strictEqualsString_true (o : option jsvalue) (a : jsstring) :
  strictEqualsString o a = true <-> o = Some (JStr a).
Proof.
  destruct o as [[| | |t| |]|]; simpl; try (split; congruence).
  rewrite str_eqb_eq. split; congruence.
Qed.

(** The deferred task never raises: whatever the pipeline throws is caught
    and logged at the task boundary. *)
Lemma runTimer_never_raises (t : Timer) (m : M unit) (s : state) :
  runTimer t = Some m -> outcomeOf (m s) = Ret tt.
Proof.
  unfold runTimer. destruct (asInboundMessage (timer_data t)); [|discriminate].
  intros H. injection H as <-.
  unfold tryCatch, outcomeOf.
  destruct (handleRocketChatMessage _ s) as [[[[]|e] s1] ev1]; [reflexivity|].
  destruct (timer_ctx_log t); reflexivity.
Qed.

(** A field is missing when it is absent or holds null, false, zero or
    the empty string. *)
Lemma fieldMissing_cases (v : jsvalue) (name : string) :
  fieldMissing v name <->
  fieldOf v name = None \/ fieldOf v name = Some JNull
  \/ fieldOf v name = Some (JBool false) \/ fieldOf v name = Some (JNum 0)
  \/ fieldOf v name = Some (JStr []).
Proof.
  unfold fieldMissing.
  destruct (fieldOf v name) as [[|[|]|n|[|c t]|l|f]|]; simpl;
    try (intuition congruence).
  destruct (Z.eqb_spec n 0) as [->|Hn]; simpl; intuition congruence.
Qed.

(** The decisions of the webhook route, by method and by body, with what
    each leaves in the timer queue. *)
Lemma webhookHandler_decides :
  forall (ctx : GatewayStartContext) (req : IncomingMessage) (s : state),
    let config := account_config ctx in
    let out := webhookHandler ctx req s in
    (req_method req = js "GET" ->
     responded (stateOf out) 200
               (TextBody (js "Rocket.Chat " ++ js "webhook is active"))
     /\ timers (stateOf out) = timers s)
    /\ (req_method req <> js "GET" -> req_method req <> js "POST" ->
        responded (stateOf out) 405 (errorBody "Method Not Allowed")
        /\ In (js "Allow", js "GET, POST") (headers (res (stateOf out)))
        /\ timers (stateOf out) = timers s)
    /\ (req_method req = js "POST" ->
        (unparseable req ->
         responded (stateOf out) 400 (errorBody "Bad Request: Invalid JSON")
         /\ timers (stateOf out) = timers s)
        /\ (forall v, decodesTo req v -> v <> JNull ->
            (~ tokenMatches v config ->
             responded (stateOf out) 401
                       (errorBody "Unauthorized: Invalid token")
             /\ timers (stateOf out) = timers s)
            /\ (tokenMatches v config ->
                fieldMissing v "user_id" \/ fieldMissing v "text" ->
                responded (stateOf out) 400
                          (errorBody "Bad Request: Missing required fields")
                /\ timers (stateOf out) = timers s)
            /\ (tokenMatches v config ->
                ~ fieldMissing v "user_id" -> ~ fieldMissing v "text" ->
                responded (stateOf out) 200 ackBody
                /\ eventsOf out = []
                /\ posts (stateOf out) = posts s
                /\ timers (stateOf out) = timers s ++ [pipelineTask ctx req v]
                /\ forall m s',
                    runTimer (pipelineTask ctx req v) = Some m ->
                    outcomeOf (m s') = Ret tt))).
Proof.
  intros ctx req s config out. subst out. unfold webhookHandler.
  split; [|split].
  - intros ->. cbn [str_eqb js]. 
    unfold bind, logOpt, logTo, emit, ret, setStatusCode, setHeader, resEnd,
      responded, stateOf.
    destruct (ctx_log ctx); cbn; repeat split.
  - intros Hget Hpost.
    apply str_eqb_neq in Hget. apply str_eqb_neq in Hpost.
    rewrite Hget, Hpost. cbn [negb].
    unfold bind, logOpt, logTo, emit, ret, setStatusCode, setHeader, resEnd,
      responded, stateOf.
    destruct (ctx_log ctx); cbn; repeat split; auto.
  - intros ->.
    change (str_eqb (js "POST") (js "GET")) with false.
    change (str_eqb (js "POST") (js "POST")) with true. cbn [negb].
    destruct (parseRequestBody_pure req) as [o Ho].
    unfold onRequestEnd, unparseable, decodesTo. cbv zeta. fold config.
    unfold tryCatch, bind.
    split.
    + intros Hbad.
      assert (Hcase : (exists e, o = Throw e) \/ o = Ret JNull).
      { destruct Hbad as [[e He] | Hn].
        - left. exists e. specialize (He s). rewrite Ho in He. exact He.
        - right. specialize (Hn s). rewrite Ho in Hn. exact Hn. }
      rewrite Ho.
      unfold logOpt, logTo, emit, ret, setStatusCode, setHeader,
        resEnd, responded, stateOf, getProp, throw.
      destruct Hcase as [[e ->] | ->];
        destruct (ctx_log ctx); cbn; repeat split.
    + intros v Hv Hnn.
      assert (o = Ret v) as -> by (specialize (Hv s); rewrite Ho in Hv; exact Hv).
      rewrite Ho. cbv beta iota.
      rewrite (getProp_fieldOf "token" s Hnn). cbv beta iota.
      unfold tokenMatches, fieldMissing.
      destruct (strictEqualsString (fieldOf v "token") (authToken config))
        eqn:Htok.
      * apply strictEqualsString_true in Htok. cbn [negb].
        rewrite (getProp_fieldOf "user_id" s Hnn). cbv beta iota.
        rewrite (getProp_fieldOf "text" s Hnn). cbv beta iota.
        split; [tauto|].
        destruct (valueTruthy (fieldOf v "user_id")) eqn:Hu;
          destruct (valueTruthy (fieldOf v "text")) eqn:Ht; cbn [negb orb];
          unfold logOpt, logTo, emit, ret, setStatusCode, setHeader,
            resEnd, setTimeout, responded, stateOf, eventsOf, pipelineTask;
          (split; [intros _ Hmiss | intros _ Hu' Ht']);
          try (destruct Hmiss; discriminate); try congruence;
          destruct (ctx_log ctx); cbn; repeat split;
          intros m s' Hm; exact (runTimer_never_raises _ s' Hm).
      * cbn [negb].
        assert (Hno : fieldOf v "token" <> Some (JStr (authToken config))).
        { intros H. apply strictEqualsString_true in H. congruence. }
        split; [|split; intros; contradiction].
        intros _.
        unfold logOpt, logTo, emit, ret, setStatusCode, setHeader,
          resEnd, responded, stateOf.
        destruct (ctx_log ctx); cbn; repeat split.
Qed.

(* ================================================================== *)
(** * Further properties of the pipeline *)
(* ================================================================== *)

(* ------------------------------------------------------------------ *)
(** ** Computations that return, and what they leave alone *)

Lemma returns_ret {A} (a : A) : returns (ret a).
Proof. intros s. exists a. reflexivity. Qed.

Lemma returns_emit (e : event) : returns (emit e).
Proof. intros s. exists tt. reflexivity. Qed.

Lemma returns_logTo lg lvl m : returns (logTo lg lvl m).
Proof. apply returns_emit. Qed.

Lemma returns_setCurrentLogger lg : returns (setCurrentLogger lg).
Proof. intros s. exists tt. reflexivity. Qed.

Lemma returns_bind {A B} (m : M A) (k : A -> M B) :
  returns m -> (forall a, returns (k a)) -> returns (bind m k).
Proof.
  intros Hm Hk s. unfold bind, outcomeOf.
  destruct (Hm s) as [a Ha]. unfold outcomeOf in Ha.
  destruct (m s) as [[o s1] ev1]. simpl in Ha. subst o.
  destruct (Hk a s1) as [b Hb]. unfold outcomeOf in Hb.
  destruct (k a s1) as [[o s2] ev2]. simpl in *. exists b. assumption.
Qed.

(** A [try] whose handler returns, returns. *)
Lemma returns_tryCatch {A} (m : M A) (h : JsError -> M A) :
  (forall e, returns (h e)) -> returns (tryCatch m h).
Proof.
  intros Hh s. unfold tryCatch, outcomeOf.
  destruct (m s) as [[[a|e] s1] ev1]; simpl.
  - exists a. reflexivity.
  - destruct (Hh e s1) as [b Hb]. unfold outcomeOf in Hb.
    destruct (h e s1) as [[o s2] ev2]. simpl in *. exists b. assumption.
Qed.

Lemma returns_sendMessage config conversationId t options :
  returns (sendMessage config conversationId t options).
Proof.
  intros s.
  destruct (sendMessage_total config conversationId t options s)
    as [r [s' [ev H]]].
  exists r. rewrite H. reflexivity.
Qed.

Lemma returns_deliver config to sw senderId acct isDirect lg payload :
  returns (deliver config to sw senderId acct isDirect lg payload).
Proof. intros s. exists tt. apply deliver_never_raises. Qed.

Lemma returns_deliverBlocks (callback : ReplyPayload -> M unit) blocks :
  (forall b, returns (callback b)) -> returns (deliverBlocks callback blocks).
Proof.
  intros Hc. induction blocks as [|b rest IH]; simpl.
  - apply returns_ret.
  - apply returns_bind; [apply Hc | intros _; exact IH].
Qed.

Lemma frames_ret {A} (a : A) : frames (ret a).
Proof. intros s. repeat split. Qed.

Lemma frames_throw {A} (e : JsError) : frames (@throw A e).
Proof. intros s. repeat split. Qed.

Lemma frames_emit (e : event) : frames (emit e).
Proof. intros s. repeat split. Qed.

Lemma frames_logTo lg lvl m : frames (logTo lg lvl m).
Proof. apply frames_emit. Qed.

Lemma frames_logOpt lg lvl m : frames (logOpt lg lvl m).
Proof. destruct lg; [apply frames_logTo | apply frames_ret]. Qed.

Lemma frames_getLogger : frames getLogger.
Proof. intros s. repeat split. Qed.

Lemma frames_axiosCall rq : frames (axiosCall rq).
Proof.
  intros s. unfold axiosCall, stateOf.
  destruct (axios (posts s) rq); repeat split.
Qed.

Lemma frames_bind {A B} (m : M A) (k : A -> M B) :
  frames m -> (forall a, frames (k a)) -> frames (bind m k).
Proof.
  intros Hm Hk s. unfold bind, stateOf.
  specialize (Hm s). unfold stateOf in Hm.
  destruct (m s) as [[[a|e] s1] ev1]; simpl in *; [|assumption].
  specialize (Hk a s1). unfold stateOf in Hk.
  destruct (k a s1) as [[o s2] ev2]; simpl in *.
  destruct Hm as [H1 [H2 H3]]. destruct Hk as [K1 [K2 K3]].
  repeat split; congruence.
Qed.

Lemma frames_tryCatch {A} (m : M A) (h : JsError -> M A) :
  frames m -> (forall e, frames (h e)) -> frames (tryCatch m h).
Proof.
  intros Hm Hh s. unfold tryCatch, stateOf.
  specialize (Hm s). unfold stateOf in Hm.
  destruct (m s) as [[[a|e] s1] ev1]; simpl in *; [assumption|].
  specialize (Hh e s1). unfold stateOf in Hh.
  destruct (h e s1) as [[o s2] ev2]; simpl in *.
  destruct Hm as [H1 [H2 H3]]. destruct Hh as [K1 [K2 K3]].
  repeat split; congruence.
Qed.

Lemma frames_sendBySession config sw t options :
  frames (sendBySession config sw t options).
Proof. rewrite sendBySession_request. apply frames_axiosCall. Qed.

Lemma frames_sendProactive config target t options :
  frames (sendProactive config target t options).
Proof.
  unfold sendProactive.
  apply frames_bind; [apply frames_getLogger | intros current].
  apply frames_bind; [apply frames_logOpt | intros _].
  apply frames_bind; [apply frames_logOpt | intros _].
  apply frames_axiosCall.
Qed.

Lemma frames_sendMessage config conversationId t options :
  frames (sendMessage config conversationId t options).
Proof.
  unfold sendMessage. apply frames_tryCatch.
  - destruct (sessionWebhook options) as [sw|]; [destruct (nonEmpty sw)|];
      (apply frames_bind;
       [first [apply frames_sendBySession | apply frames_sendProactive]
       | intros ?; apply frames_ret]).
  - intros err. apply frames_bind; [apply frames_logOpt | intros _].
    apply frames_ret.
Qed.

Lemma frames_deliver config to sw senderId acct isDirect lg payload :
  frames (deliver config to sw senderId acct isDirect lg payload).
Proof.
  unfold deliver. apply frames_tryCatch.
  - destruct (if truthy (payload_markdown payload)
              then payload_markdown payload else payload_text payload)
      as [t|]; [destruct (nonEmpty t)|]; try apply frames_ret.
    apply frames_bind; [apply frames_sendMessage | intros _; apply frames_ret].
  - intros err. apply frames_bind; [apply frames_logTo | intros _].
    apply frames_throw.
Qed.

Lemma frames_deliverBlocks (callback : ReplyPayload -> M unit) blocks :
  (forall b, frames (callback b)) -> frames (deliverBlocks callback blocks).
Proof.
  intros Hc. induction blocks as [|b rest IH]; simpl.
  - apply frames_ret.
  - apply frames_bind; [apply Hc | intros _; exact IH].
Qed.

Ltac returns_step :=
  first
    [ apply returns_ret
    | apply returns_logTo
    | apply returns_emit
    | apply returns_setCurrentLogger
    | apply returns_sendMessage
    | apply returns_deliverBlocks; intros ?; apply returns_deliver
    | apply returns_bind; [| intros ?]
    | apply returns_tryCatch; intros ?
    | match goal with
      | |- returns (if ?c then _ else _) => destruct c
      | |- returns (match ?c with _ => _ end) => destruct c
      end ].

Ltac frames_step :=
  first
    [ apply frames_ret
    | apply frames_logTo
    | apply frames_emit
    | apply frames_sendBySession
    | apply frames_sendMessage
    | apply frames_deliverBlocks; intros ?; apply frames_deliver
    | apply frames_bind; [| intros ?]
    | apply frames_tryCatch; [| intros ?]
    | match goal with
      | |- frames (if ?c then _ else _) => destruct c
      | |- frames (match ?c with _ => _ end) => destruct c
      end ].

Lemma pipeline_returns (params : HandleRocketChatMessageParams) :
  returns (handleRocketChatMessage params).
Proof.
  unfold handleRocketChatMessage, dispatchReplyWithBufferedBlockDispatcher.
  cbv zeta. repeat returns_step.
Qed.

(** X1. The pipeline never raises of its own: the functions of the host
    runtime returning, [handleRocketChatMessage] returns normally whatever
    the provider answers to each call, also when every call throws, and
    whatever blocks the host emits. *)
Theorem pipeline_never_raises :
  forall (params : HandleRocketChatMessageParams) (s : state),
    outcomeOf (handleRocketChatMessage params s) = Ret tt.
Proof.
  intros params s.
  destruct (pipeline_returns params s) as [[] Ha]. exact Ha.
Qed.

Lemma setCurrentLogger_then {A} (lg : Logger) (k : M A) (s : state) :
  frames k ->
  currentLogger (stateOf (bind (setCurrentLogger lg) (fun _ => k) s)) = Some lg
  /\ res (stateOf (bind (setCurrentLogger lg) (fun _ => k) s)) = res s
  /\ timers (stateOf (bind (setCurrentLogger lg) (fun _ => k) s)) = timers s.
Proof.
  intros Hk. unfold bind, setCurrentLogger, stateOf.
  specialize (Hk {| currentLogger := Some lg; posts := posts s;
                    res := res s; timers := timers s |}).
  unfold stateOf in Hk.
  destruct (k _) as [[o s2] ev2]. simpl in *. exact Hk.
Qed.

(** X2. Every call of the pipeline, also one that is rejected, installs its
    logger as the module logger; the pipeline changes nothing else of the
    module state but the count of provider calls. *)
Theorem pipeline_installs_logger :
  forall (params : HandleRocketChatMessageParams) (s : state),
    currentLogger (stateOf (handleRocketChatMessage params s))
    = Some (p_log params)
    /\ res (stateOf (handleRocketChatMessage params s)) = res s
    /\ timers (stateOf (handleRocketChatMessage params s)) = timers s
    /\ forall config target t,
        eventsOf (sendProactive config target t noOptions
                    (stateOf (handleRocketChatMessage params s)))
        = [ELog (p_log params) LDebug (MsgProactiveTarget target);
           ELog (p_log params) LDebug
                (MsgSendingPayload {| out_text := t |});
           EAxios (postJson (webhookUrl config) {| out_text := t |})].
Proof.
  intros params s.
  assert (H : currentLogger (stateOf (handleRocketChatMessage params s))
              = Some (p_log params)
              /\ res (stateOf (handleRocketChatMessage params s)) = res s
              /\ timers (stateOf (handleRocketChatMessage params s))
                 = timers s).
  { unfold handleRocketChatMessage, dispatchReplyWithBufferedBlockDispatcher.
    cbv zeta. apply setCurrentLogger_then. repeat frames_step. }
  destruct H as [Hlog [Hres Htimers]]. repeat split; try assumption.
  intros config target t.
  destruct (sendProactive_run config target t noOptions
              (stateOf (handleRocketChatMessage params s))) as [Hev _].
  rewrite Hev. cbn [log noOptions]. rewrite Hlog. reflexivity.
Qed.

(** X3. A payload whose token is not the configured one is dropped by the
    pipeline before anything else is looked at: two log lines, the second a
    warning that carries the received token as it came, and no provider
    call, envelope or session record. *)
Theorem invalid_token_is_dropped :
  forall (params : HandleRocketChatMessageParams) (s : state),
    token (p_data params) <> authToken (p_rocketchatConfig params) ->
    eventsOf (handleRocketChatMessage params s)
    = [ELog (p_log params) LDebug MsgFullInbound;
       ELog (p_log params) LWarn (MsgInvalidToken (token (p_data params)))]
    /\ posts (stateOf (handleRocketChatMessage params s)) = posts s.
Proof.
  intros params s Htok. apply str_eqb_neq in Htok.
  unfold handleRocketChatMessage. cbv zeta. rewrite Htok.
  split; reflexivity.
Qed.

(** X4. A group message is never filtered by the DM policy: its run is the
    same whatever the DM policy and the allow list are. *)
Theorem group_message_ignores_dm_policy :
  forall (params : HandleRocketChatMessageParams) (s : state)
         (policy : option DmPolicy) (allowList : option (list jsstring)),
    isDirectMessage (p_data params) = false ->
    handleRocketChatMessage
      (withConfig params
         (withDmPolicy (p_rocketchatConfig params) policy allowList)) s
    = handleRocketChatMessage params s.
Proof.
  intros params s policy allowList Hd.
  unfold handleRocketChatMessage, dispatchReplyWithBufferedBlockDispatcher,
    deliver, sendMessage, sendBySession, sendProactive.
  cbv zeta.
  cbn [withConfig withDmPolicy p_data p_rocketchatConfig p_cfg p_accountId
       p_sessionWebhook p_log authToken webhookUrl showThinking].
  rewrite Hd. reflexivity.
Qed.

(** X5. The allow list is read under the allowlist policy only: for any
    other policy, set or not, the run of the pipeline is the same whatever
    the allow list is. *)
Theorem allow_list_read_under_allowlist_only :
  forall (params : HandleRocketChatMessageParams) (s : state)
         (allowList : option (list jsstring)),
    dmPolicy (p_rocketchatConfig params) <> Some PolicyAllowlist ->
    handleRocketChatMessage
      (withConfig params
         (withDmPolicy (p_rocketchatConfig params)
                       (dmPolicy (p_rocketchatConfig params)) allowList)) s
    = handleRocketChatMessage params s.
Proof.
  intros params s allowList Hpol.
  unfold handleRocketChatMessage, dispatchReplyWithBufferedBlockDispatcher,
    deliver, sendMessage, sendBySession, sendProactive.
  cbv zeta.
  cbn [withConfig withDmPolicy p_data p_rocketchatConfig p_cfg p_accountId
       p_sessionWebhook p_log authToken webhookUrl showThinking dmPolicy].
  destruct (dmPolicy (p_rocketchatConfig params)) as [[| |]|];
    try reflexivity.
  congruence.
Qed.

(* ------------------------------------------------------------------ *)
(** ** Where provider calls go *)

Section Targets.

Variable P : event -> Prop.
Variable config : RocketChatConfig.
Hypothesis P_log : forall lg lvl m, P (ELog lg lvl m).
Hypothesis P_post :
  forall payload, P (EAxios (postJson (webhookUrl config) payload)).

Lemma targets_axiosCall payload :
  emits P (axiosCall (postJson (webhookUrl config) payload)).
Proof.
  intros s. unfold axiosCall, eventsOf.
  destruct (axios (posts s) _); simpl; repeat constructor; apply P_post.
Qed.

Lemma targets_sendBySession sw t options :
  emits P (sendBySession config sw t options).
Proof. rewrite sendBySession_request. apply targets_axiosCall. Qed.

Lemma targets_sendProactive target t options :
  emits P (sendProactive config target t options).
Proof.
  unfold sendProactive.
  apply emits_bind; [apply emits_getLogger | intros current].
  apply emits_bind; [apply emits_logOpt, P_log | intros _].
  apply emits_bind; [apply emits_logOpt, P_log | intros _].
  destruct (detectMarkdown t options); apply targets_axiosCall.
Qed.

Lemma targets_sendMessage conversationId t options :
  emits P (sendMessage config conversationId t options).
Proof.
  unfold sendMessage.
  apply emits_tryCatch.
  - destruct (sessionWebhook options) as [sw|]; [destruct (nonEmpty sw)|];
      (apply emits_bind;
       [first [apply targets_sendBySession | apply targets_sendProactive]
       | intros ?; apply emits_ret]).
  - intros err. apply emits_bind; [apply emits_logOpt, P_log | intros _].
    apply emits_ret.
Qed.

Lemma targets_deliver to sw senderId acct isDirect lg payload :
  emits P (deliver config to sw senderId acct isDirect lg payload).
Proof.
  unfold deliver. apply emits_tryCatch.
  - destruct (if truthy (payload_markdown payload)
              then payload_markdown payload else payload_text payload)
      as [t|]; [destruct (nonEmpty t)|]; try apply emits_ret.
    apply emits_bind; [apply targets_sendMessage | intros _; apply emits_ret].
  - intros err. apply emits_bind; [apply emits_logTo, P_log | intros _].
    apply emits_throw.
Qed.

End Targets.

Ltac targets_step :=
  first
    [ apply emits_ret
    | apply emits_logTo; intros; exact I
    | apply emits_emit; exact I
    | apply emits_setCurrentLogger
    | apply targets_sendBySession; intros; first [exact I | repeat split]
    | apply targets_sendMessage; intros; first [exact I | repeat split]
    | apply emits_deliverBlocks; intros ?; apply targets_deliver;
      intros; first [exact I | repeat split]
    | apply emits_bind; [| intros ?]
    | apply emits_tryCatch; [| intros ?]
    | match goal with
      | |- emits _ (if ?c then _ else _) => destruct c
      | |- emits _ (match ?c with _ => _ end) => destruct c
      end ].

(** X6. Every provider call the pipeline makes, the denial notice, the
    thinking notice and each reply, is a JSON POST to the webhook URL of the
    account's configuration; the session webhook it is given is never
    called. *)
Theorem pipeline_posts_to_configured_url :
  forall (params : HandleRocketChatMessageParams) (s : state)
         (rq : AxiosRequest),
    In (EAxios rq) (eventsOf (handleRocketChatMessage params s)) ->
    url rq = webhookUrl (p_rocketchatConfig params)
    /\ method rq = js "POST"
    /\ content_type rq = js "application/json".
Proof.
  intros params s rq Hin.
  assert (Hall : emits (postsTo (p_rocketchatConfig params))
                       (handleRocketChatMessage params)).
  { unfold handleRocketChatMessage, dispatchReplyWithBufferedBlockDispatcher.
    cbv zeta. repeat targets_step. }
  specialize (Hall s). rewrite Forall_forall in Hall.
  exact (Hall _ Hin).
Qed.

(* ------------------------------------------------------------------ *)
(** ** Envelopes and gates *)

Lemma gates_intro (config : RocketChatConfig) (d : RocketChatInboundMessage) :
  negb (str_eqb (token d) (authToken config)) = false ->
  bot d = false ->
  negb (nonEmpty (content_text (extractMessageContent d))) = false ->
  (isDirectMessage d = true ->
   dmPolicy config = Some PolicyAllowlist ->
   negb (isSenderAllowed
           (normalizeAllowFrom
              (Some (match allowFrom config with Some l => l | None => [] end)))
           (Some (user_id d))) = false) ->
  passesGates config d.
Proof.
  intros Htok Hbot Htext Hallow. unfold passesGates.
  apply negb_false_iff, str_eqb_eq in Htok.
  apply negb_false_iff, nonEmpty_true in Htext.
  repeat split; try assumption.
  - unfold blankText. unfold extractMessageContent in Htext; simpl in Htext.
    destruct (text d); [assumption | congruence].
  - intros Hd Hp. specialize (Hallow Hd Hp).
    apply negb_false_iff in Hallow.
    rewrite normalizeAllowFrom_default in Hallow. exact Hallow.
Qed.

Lemma content_intro (d : RocketChatInboundMessage) (ctx : InboundContext) :
  negb (nonEmpty (content_text (extractMessageContent d))) = false ->
  RawBody ctx = content_text (extractMessageContent d) ->
  CommandBody ctx = content_text (extractMessageContent d) ->
  CommandAuthorized ctx = true ->
  SenderId ctx = user_id d ->
  SenderName ctx = senderNameOf d ->
  MessageSid ctx = message_id d ->
  Timestamp ctx = timestamp d ->
  Provider ctx = js "rocketchat" ->
  Surface ctx = js "rocketchat" ->
  OriginatingChannel ctx = js "rocketchat" ->
  OriginatingTo ctx = To ctx ->
  MediaPath ctx = None -> MediaType ctx = None -> MediaUrl ctx = None ->
  (GroupSubject ctx = None <-> ChatType_ ctx = Direct) ->
  envelopeContent d ctx.
Proof.
  intros Htext Hraw Hcmd. intros. unfold envelopeContent.
  apply negb_false_iff, nonEmpty_true in Htext.
  split; [|repeat split; try congruence; tauto].
  unfold extractMessageContent in *; simpl in *.
  destruct (text d) as [t|]; [|congruence].
  exists t. repeat split; congruence.
Qed.

Ltac gated_step :=
  first
    [ apply emits_ret
    | apply emits_logTo; intros; exact I
    | apply emits_emit; exact I
    | apply emits_emit; split;
      [ apply gates_intro; try assumption; intros; congruence
      | apply content_intro; try assumption; try reflexivity;
        split; cbn [GroupSubject ChatType_]; intros; congruence ]
    | apply emits_setCurrentLogger
    | apply emits_sendBySession; intros; exact I
    | apply emits_sendMessage; intros; exact I
    | apply emits_deliverBlocks; intros ?; apply emits_deliver; intros; exact I
    | apply emits_bind; [| intros ?]
    | apply emits_tryCatch; [| intros ?]
    | match goal with
      | |- emits _ (if ?c then _ else _) => destruct c eqn:?
      | |- emits _ (match ?c with _ => _ end) => destruct c eqn:?
      end ].

(** X7. An envelope is only ever built for a message that passed every
    gate (valid token, not a bot, non-blank text, not a rejected direct
    sender), and every envelope carries the trimmed, non-empty text as raw
    and command body, the sender's id and name, the provider names, no
    media, a group subject exactly for group messages, and the command
    authorization flag set, under every DM policy. *)
Theorem envelope_is_gated :
  forall (params : HandleRocketChatMessageParams) (s : state)
         (ctx : InboundContext),
    In (EFinalizeInboundContext ctx)
       (eventsOf (handleRocketChatMessage params s)) ->
    passesGates (p_rocketchatConfig params) (p_data params)
    /\ envelopeContent (p_data params) ctx.
Proof.
  intros params s ctx Hin.
  assert (Hall : emits (envelopeEventGated (p_rocketchatConfig params)
                                           (p_data params))
                       (handleRocketChatMessage params)).
  { unfold handleRocketChatMessage, dispatchReplyWithBufferedBlockDispatcher.
    cbv zeta. repeat gated_step. }
  specialize (Hall s). rewrite Forall_forall in Hall.
  exact (Hall _ Hin).
Qed.

(* ------------------------------------------------------------------ *)
(** ** What is posted, and in which order *)

Lemma postedTexts_app (a b : list event) :
  postedTexts (a ++ b) = postedTexts a ++ postedTexts b.
Proof.
  induction a as [|e a IH]; [reflexivity|].
  destruct e; simpl; rewrite IH; reflexivity.
Qed.

Lemma eventsOf_emit_then {A} (e : event) (k : M A) (s : state) :
  eventsOf (bind (emit e) (fun _ => k) s) = e :: eventsOf (k s).
Proof.
  unfold bind, emit, eventsOf. destruct (k s) as [[o s2] ev2]. reflexivity.
Qed.

Lemma eventsOf_logTo_then {A} lg lvl m (k : M A) (s : state) :
  eventsOf (bind (logTo lg lvl m) (fun _ => k) s)
  = ELog lg lvl m :: eventsOf (k s).
Proof. apply eventsOf_emit_then. Qed.

Lemma eventsOf_setCurrentLogger_then {A} lg (k : M A) (s : state) :
  eventsOf (bind (setCurrentLogger lg) (fun _ => k) s)
  = eventsOf (k {| currentLogger := Some lg; posts := posts s;
                   res := res s; timers := timers s |}).
Proof.
  unfold bind, setCurrentLogger, eventsOf.
  destruct (k _) as [[o s2] ev2]. reflexivity.
Qed.

Lemma eventsOf_returns_then {A B} (m : M A) (k : M B) (s : state) :
  returns m ->
  eventsOf (bind m (fun _ => k) s)
  = eventsOf (m s) ++ eventsOf (k (stateOf (m s))).
Proof.
  intros Hm. destruct (Hm s) as [a Ha].
  unfold bind, eventsOf, stateOf, outcomeOf in *.
  destruct (m s) as [[o s1] ev1]. simpl in *. subst o.
  destruct (k s1) as [[o2 s2] ev2]. reflexivity.
Qed.

(** [sendMessage] makes exactly one provider call, with the text of the
    path it takes. *)
Lemma sendMessage_posts (config : RocketChatConfig)
      (conversationId t : jsstring) (options : SendMessageOptions)
      (s : state) :
  postedTexts (eventsOf (sendMessage config conversationId t options s))
  = [postedBy options t].
Proof.
  assert (Hproactive :
    postedTexts
      (eventsOf
         (tryCatch
            (result <- sendProactive config conversationId t options ;;
             ret {| ok := true; error := None; data := Some result |})
            (fun err =>
               logOpt (log options) LError (MsgSendFailed (message err)) ;;
               ret {| ok := false; error := Some (message err);
                      data := None |}) s))
    = [t]).
  { pose proof (sendProactive_run config conversationId t options s) as Hp.
    cbv zeta in Hp. destruct Hp as [Hpe _].
    unfold tryCatch, bind, ret, logOpt, logTo, emit.
    unfold eventsOf in *.
    destruct (sendProactive config conversationId t options s)
      as [[[d|e] s1] ev1]; simpl in Hpe; subst ev1;
      destruct (log options); try destruct (currentLogger s); reflexivity. }
  unfold postedBy, sendMessage.
  destruct (sessionWebhook options) as [sw|]; [destruct (nonEmpty sw)|];
    try exact Hproactive.
  clear Hproactive.
  unfold tryCatch, bind, ret, logOpt, logTo, emit.
  rewrite sendBySession_request. unfold axiosCall, eventsOf.
  destruct (axios (posts s) _); destruct (log options); reflexivity.
Qed.

(** The dispatcher's blocks are posted one call per block that has a text,
    in order; a failed call does not stop the blocks after it. *)
Lemma deliverBlocks_posts (config : RocketChatConfig)
      (to sw senderId acct : jsstring) (isDirect : bool) (lg : Logger)
      (blocks : list ReplyPayload) (s : state) :
  postedTexts
    (eventsOf (deliverBlocks
                 (deliver config to sw senderId acct isDirect lg) blocks s))
  = map (postedBy (replyOptions sw senderId acct isDirect lg))
        (blockTexts blocks).
Proof.
  revert s. induction blocks as [|b rest IH]; intros s; [reflexivity|].
  cbn [deliverBlocks blockTexts].
  rewrite eventsOf_returns_then by apply returns_deliver.
  rewrite postedTexts_app, IH, deliver_run.
  destruct (blockText b) as [t|]; [destruct (nonEmpty t)|];
    cbn [eventsOf snd map app postedTexts]; try reflexivity.
  fold (eventsOf (sendMessage config to t
                    (replyOptions sw senderId acct isDirect lg) s)).
  rewrite sendMessage_posts. reflexivity.
Qed.

(** The thinking notice is one call, or none when it is switched off, and
    what follows it runs either way. *)
Lemma thinking_then_posts {B} (config : RocketChatConfig) (to : jsstring)
      (options : SendMessageOptions) (lg : Logger) (k : M B) (s : state) :
  exists s',
    postedTexts
      (eventsOf
         (bind
            (match showThinking config with
             | Some false => ret tt
             | _ =>
                 tryCatch
                   (sendMessage config to thinkingText options ;; ret tt)
                   (fun err =>
                      logTo lg LDebug (MsgThinkingFailed (message err)))
             end)
            (fun _ => k) s))
    = match showThinking config with
      | Some false => []
      | _ => [postedBy options thinkingText]
      end ++ postedTexts (eventsOf (k s')).
Proof.
  assert (Hon : exists s',
    postedTexts
      (eventsOf
         (bind
            (tryCatch
               (sendMessage config to thinkingText options ;; ret tt)
               (fun err => logTo lg LDebug (MsgThinkingFailed (message err))))
            (fun _ => k) s))
    = [postedBy options thinkingText] ++ postedTexts (eventsOf (k s'))).
  { pose proof (sendMessage_posts config to thinkingText options s) as Hp.
    destruct (sendMessage_total config to thinkingText options s)
      as [r [s1 [ev1 H]]].
    exists s1. unfold tryCatch, bind, ret. rewrite H in *.
    cbn [eventsOf snd] in *.
    destruct (k s1) as [[o2 s2] ev2]. unfold eventsOf. cbn [snd].
    rewrite app_nil_r, postedTexts_app, Hp. reflexivity. }
  destruct (showThinking config) as [[|]|]; try exact Hon.
  exists s. unfold bind, ret, eventsOf.
  destruct (k s) as [[o2 s2] ev2]. reflexivity.
Qed.

(** X8. For a message that passes the gates the pipeline builds one
    envelope and then posts, in this order: the thinking notice, unless it
    is switched off, and one text per block of the host dispatcher that has
    a text, markdown before plain text, blocks without text being skipped.
    Each is posted once whether or not the provider accepted the ones
    before. *)
Theorem replies_in_order :
  forall (params : HandleRocketChatMessageParams) (s : state),
    let d := p_data params in
    let config := p_rocketchatConfig params in
    let options :=
      replyOptions (p_sessionWebhook params) (user_id d) (p_accountId params)
                   (isDirectMessage d) (p_log params) in
    passesGates config d ->
    exists ctx,
      In (EFinalizeInboundContext ctx)
         (eventsOf (handleRocketChatMessage params s))
      /\ postedTexts (eventsOf (handleRocketChatMessage params s))
         = match showThinking config with
           | Some false => []
           | _ => [postedBy options thinkingText]
           end
           ++ map (postedBy options)
                  (blockTexts
                     (dispatchedBlocks rt (finalizeInboundContext rt ctx)
                                       (p_cfg params))).
Proof.
  intros params s d config options [Htok [Hbot [Htext Hallow]]].
  assert (Hne : nonEmpty (content_text (extractMessageContent d)) = true).
  { unfold blankText in Htext. unfold extractMessageContent; simpl.
    destruct (text d) as [t|]; [| tauto].
    apply nonEmpty_true. assumption. }
  unfold handleRocketChatMessage, dispatchReplyWithBufferedBlockDispatcher.
  cbv zeta. fold d config.
  rewrite Htok, str_eqb_refl, Hbot, Hne. cbn [negb].
  subst options.
  rewrite eventsOf_setCurrentLogger_then, eventsOf_logTo_then.
  destruct (isDirectMessage d) eqn:Hd;
    [destruct (dmPolicy config) as [[| |]|] eqn:Hp|];
    try (rewrite normalizeAllowFrom_default, (Hallow eq_refl eq_refl);
         cbn [negb]; rewrite eventsOf_logTo_then);
    rewrite !eventsOf_emit_then, eventsOf_logTo_then;
    eexists;
    (split; [repeat (first [left; reflexivity | right])|]);
    cbn [postedTexts];
    match goal with
    | |- context [bind _ (fun _ => ?k) ?s0] =>
        destruct (thinking_then_posts config
                    (if isDirectMessage d then user_id d else channel_id d)
                    (replyOptions (p_sessionWebhook params) (user_id d)
                       (p_accountId params) (isDirectMessage d)
                       (p_log params))
                    (p_log params) k s0) as [s' Hs']
    end;
    rewrite Hd in Hs'; rewrite Hs';
    rewrite eventsOf_emit_then; cbn [postedTexts];
    rewrite deliverBlocks_posts; reflexivity.
Qed.

(* ================================================================== *)
(** * The plugin surface *)
(* ================================================================== *)

(* ------------------------------------------------------------------ *)
(** ** Trimming *)

Lemma trimStart_head (s : jsstring) (c : N) (r : jsstring) :
  trimStart s = c :: r -> isWhiteSpace c = false.
Proof.
  induction s as [|a s IH]; simpl; [discriminate|].
  destruct (isWhiteSpace a) eqn:Ha; [exact IH|].
  intros H. injection H as <- <-. exact Ha.
Qed.

Lemma trimStart_fixed (c : N) (r : jsstring) :
  isWhiteSpace c = false -> trimStart (c :: r) = c :: r.
Proof. intros H. simpl. rewrite H. reflexivity. Qed.

Lemma trimStart_idem (s : jsstring) : trimStart (trimStart s) = trimStart s.
Proof.
  destruct (trimStart s) as [|c r] eqn:H; [reflexivity|].
  apply trimStart_fixed. exact (@trimStart_head s c r H).
Qed.

Lemma trimStart_snoc (l : jsstring) (c : N) :
  isWhiteSpace c = false -> trimStart (l ++ [c]) = trimStart l ++ [c].
Proof.
  intros Hc. induction l as [|a l IH]; simpl.
  - rewrite Hc. reflexivity.
  - destruct (isWhiteSpace a); [exact IH | reflexivity].
Qed.

(** Trimming the end keeps a first code unit that is not white space. *)
Lemma trimEnd_cons (c : N) (r : jsstring) :
  isWhiteSpace c = false -> trimEnd (c :: r) = c :: trimEnd r.
Proof.
  intros Hc. unfold trimEnd. simpl rev.
  rewrite trimStart_snoc by assumption.
  rewrite rev_app_distr. reflexivity.
Qed.

Lemma trimEnd_idem (s : jsstring) : trimEnd (trimEnd s) = trimEnd s.
Proof.
  unfold trimEnd. rewrite rev_involutive, trimStart_idem. reflexivity.
Qed.

Lemma trimEnd_last (s : jsstring) (c : N) (r : jsstring) (d : N) :
  trimEnd s = c :: r -> isWhiteSpace (last (c :: r) d) = false.
Proof.
  unfold trimEnd. intros H. rewrite <- H.
  destruct (trimStart (rev s)) as [|a t] eqn:Ht; [discriminate|].
  simpl rev. rewrite last_last. exact (@trimStart_head _ a t Ht).
Qed.

Lemma trim_head (s : jsstring) (c : N) (r : jsstring) :
  trim s = c :: r -> isWhiteSpace c = false.
Proof.
  unfold trim. destruct (trimStart s) as [|a t] eqn:Hs.
  - discriminate.
  - rewrite (@trimEnd_cons a t (@trimStart_head s a t Hs)).
    intros H. injection H as <- _. exact (@trimStart_head s a t Hs).
Qed.

Lemma trim_noOuterWhiteSpace (s : jsstring) : noOuterWhiteSpace (trim s).
Proof.
  unfold noOuterWhiteSpace. destruct (trim s) as [|c r] eqn:H; [exact I|].
  split; [exact (@trim_head s c r H)|].
  unfold trim in H. exact (@trimEnd_last _ c r c H).
Qed.

Lemma trim_idem (s : jsstring) : trim (trim s) = trim s.
Proof.
  assert (Hstart : trimStart (trim s) = trim s).
  { destruct (trim s) as [|c r] eqn:H; [reflexivity|].
    apply trimStart_fixed. exact (@trim_head s c r H). }
  unfold trim at 1. rewrite Hstart. unfold trim. apply trimEnd_idem.
Qed.

(** A string without white space is its own trim. *)
Lemma trim_fixed (s : jsstring) :
  Forall (fun c => isWhiteSpace c = false) s -> trim s = s.
Proof.
  intros H. unfold trim, trimEnd.
  assert (Hs : forall l, Forall (fun c => isWhiteSpace c = false) l ->
                         trimStart l = l).
  { intros [|c r] Hl; [reflexivity|]. inversion Hl; subst.
    apply trimStart_fixed. assumption. }
  rewrite (Hs s H), (Hs (rev s)) by (apply Forall_rev; assumption).
  apply rev_involutive.
Qed.

(* ------------------------------------------------------------------ *)
(** ** Targets *)

(** X9. [resolveTarget] fails exactly when the target is absent, empty or
    white space only; otherwise it answers the trimmed target, which is not
    empty, has no white space at either end, and resolves to itself. *)
Theorem resolveTarget_trims :
  forall (to : option jsstring),
    ((exists e, resolveTarget to = inl e) <->
     (to = None \/ exists t, to = Some t /\ whiteSpaceOnly t))
    /\ (forall r, resolveTarget to = inr r ->
        (exists t, to = Some t /\ r = trim t)
        /\ r <> [] /\ noOuterWhiteSpace r
        /\ resolveTarget (Some r) = inr r).
Proof.
  intros to. unfold resolveTarget.
  destruct to as [t|]; cbn [truthy orDefault negb].
  - destruct (nonEmpty (trim t)) eqn:Hn; cbn [negb].
    + apply nonEmpty_true in Hn. split.
      * split; [intros [e He]; discriminate|].
        intros [H | [t' [H Hw]]]; [discriminate|].
        injection H as <-. apply trim_nil in Hw. contradiction.
      * intros r H. injection H as <-.
        split; [exists t; split; reflexivity|].
        split; [assumption|]. split; [apply trim_noOuterWhiteSpace|].
        rewrite trim_idem. apply nonEmpty_true in Hn. rewrite Hn.
        reflexivity.
    + assert (Ht : trim t = []) by (destruct (trim t); [reflexivity | discriminate]).
      clear Hn. rename Ht into Hn. split.
      * split; [|intros _; eexists; reflexivity].
        intros _. right. exists t. split; [reflexivity|].
        apply trim_nil. assumption.
      * intros r H. discriminate.
  - split.
    + split; [intros _; left; reflexivity | intros _; eexists; reflexivity].
    + intros r H. discriminate.
Qed.

(** X10. [normalizeTarget] answers [null] for an absent or empty target;
    otherwise it removes exactly one leading provider prefix, in any case,
    and nothing when there is none. A target that is only a prefix
    normalizes to the empty id. *)
Theorem normalizeTarget_strips_once :
  forall (target : option jsstring),
    (normalizeTarget target = None <-> (target = None \/ target = Some []))
    /\ (forall id, normalizeTarget target = Some id <->
        exists t, target = Some t /\ t <> [] /\ strippedOnce t id)
    /\ (forall p p', In p providerPrefixes -> sameIgnoringCase p p' ->
        normalizeTarget (Some p') = Some []).
Proof.
  intros target. unfold normalizeTarget. split; [|split].
  - destruct target as [[|c t]|]; cbn [nonEmpty].
    + split; auto.
    + split; [discriminate | intros [H|H]; discriminate].
    + split; auto.
  - intros id. destruct target as [[|c t]|]; cbn [nonEmpty].
    + split; [discriminate|]. intros [t [H [Hne _]]]. congruence.
    + split.
      * intros H. injection H as <-. exists (c :: t).
        split; [reflexivity|]. split; [discriminate|].
        apply strippedOnce_spec. reflexivity.
      * intros [t' [H [_ Hs]]]. injection H as <-.
        apply strippedOnce_spec in Hs. congruence.
    + split; [discriminate|]. intros [t [H _]]. discriminate.
  - intros p p' Hin Hsame.
    assert (Hne : p' <> []).
    { intros ->. inversion Hsame; subst.
      destruct Hin as [H | [H | [H | []]]]; discriminate. }
    assert (Hs : stripProviderPrefix p' = []).
    { apply hasProviderPrefix_strip. exists p, p'.
      rewrite app_nil_r. auto. }
    apply nonEmpty_true in Hne. rewrite Hne, Hs. reflexivity.
Qed.

Lemma wordOrDash_not_whiteSpace (c : N) :
  isWordOrDash c = true -> isWhiteSpace c = false.
Proof.
  unfold isWordOrDash, isWhiteSpace. intros H.
  repeat rewrite orb_true_iff in H. repeat rewrite andb_true_iff in H.
  repeat rewrite N.leb_le in H. repeat rewrite N.eqb_eq in H.
  repeat rewrite orb_false_iff. repeat rewrite andb_false_iff.
  repeat rewrite N.leb_gt. repeat rewrite N.eqb_neq.
  lia.
Qed.

Lemma wordOrDash_not_colon (c : N) :
  isWordOrDash c = true -> canonicalize c <> 58%N.
Proof.
  unfold isWordOrDash, canonicalize. intros H.
  repeat rewrite orb_true_iff in H. repeat rewrite andb_true_iff in H.
  repeat rewrite N.leb_le in H. repeat rewrite N.eqb_eq in H.
  destruct ((97 <=? c) && (c <=? 122))%N eqn:Hl.
  - apply andb_true_iff in Hl. rewrite !N.leb_le in Hl. lia.
  - lia.
Qed.

(** A string of word characters and dashes carries no provider prefix:
    every prefix ends with a colon. *)
Lemma wordOrDash_no_prefix (id rest : jsstring) :
  forallb isWordOrDash id = true -> ~ hasProviderPrefix id rest.
Proof.
  intros Hw [p [p' [Hin [Hsame Hid]]]].
  assert (Hcolon : exists c, In c p' /\ canonicalize c = 58%N).
  { assert (Hp : In 58%N p).
    { destruct Hin as [<- | [<- | [<- | []]]]; vm_compute; tauto. }
    clear Hin Hid. induction Hsame as [|a b p p' Hab Hsame IH].
    - contradiction.
    - destruct Hp as [-> | Hp].
      + exists b. split; [left; reflexivity | symmetry; exact Hab].
      + destruct (IH Hp) as [c [Hc Hcc]]. exists c. split; [right|]; auto. }
  destruct Hcolon as [c [Hc Hcc]].
  rewrite forallb_forall in Hw.
  apply (@wordOrDash_not_colon c); [|exact Hcc].
  apply Hw. subst id. apply in_or_app. left. exact Hc.
Qed.

(** X11. An id that [looksLikeId] accepts goes through target handling
    unchanged: [normalizeTarget] finds no prefix to remove and
    [resolveTarget] nothing to trim. *)
Theorem id_passes_unchanged :
  forall (id : jsstring),
    looksLikeId id = true ->
    normalizeTarget (Some id) = Some id
    /\ normalizeEntry id = id
    /\ resolveTarget (Some id) = inr id.
Proof.
  intros id H. unfold looksLikeId in H. apply andb_true_iff in H.
  destruct H as [Hne Hw].
  assert (Hstrip : stripProviderPrefix id = id).
  { symmetry. apply strippedOnce_spec. right. split; [|reflexivity].
    intros rest. apply wordOrDash_no_prefix. assumption. }
  assert (Htrim : trim id = id).
  { apply trim_fixed. rewrite forallb_forall in Hw. apply Forall_forall.
    intros c Hc. apply wordOrDash_not_whiteSpace. apply Hw. assumption. }
  unfold normalizeTarget, normalizeEntry, resolveTarget.
  cbn [truthy orDefault]. rewrite Hne, Hstrip, Htrim, Hne.
  repeat split.
Qed.

(* ------------------------------------------------------------------ *)
(** ** Accounts *)

Lemma lookupAccount_listed (id : jsstring)
      (accounts : list (jsstring * RocketChatConfig)) :
  In id (map fst accounts) -> exists a, lookupAccount id accounts = Some a.
Proof.
  induction accounts as [|[k a] rest IH]; simpl; [contradiction|].
  intros [H | H].
  - subst k. rewrite str_eqb_refl. eexists; reflexivity.
  - destruct (str_eqb k id); [eexists; reflexivity | exact (IH H)].
Qed.

(** X12. Every account id that [listAccountIds] lists, the empty key
    apart, resolves to an account of that id; and when the section has no
    accounts object, the one id listed, default, resolves to a configured
    account. *)
Theorem listed_accounts_resolve :
  forall (rocketchatCfg : option RocketChatSection) (id : jsstring),
    In id (listAccountIds rocketchatCfg) ->
    id <> [] ->
    ra_accountId (resolveAccount rocketchatCfg (Some id)) = id
    /\ (match rocketchatCfg with
        | Some sec => section_accounts sec = None
        | None => True
        end ->
        accountIsConfigured (resolveAccount rocketchatCfg (Some id)) = true).
Proof.
  intros cfg id Hin Hne. apply nonEmpty_true in Hne.
  unfold listAccountIds, resolveAccount, accountIsConfigured, accountOf in *.
  cbn [orDefault]. rewrite Hne.
  destruct cfg as [sec|].
  - destruct (section_accounts sec) as [accounts|] eqn:Hacc.
    + destruct (lookupAccount_listed id accounts Hin) as [a Ha].
      rewrite Ha. split; [reflexivity | discriminate].
    + destruct (isConfigured (Some sec) None) eqn:Hc; [|contradiction].
      destruct Hin as [<- | []]. split; [reflexivity|].
      intros _. exact Hc.
  - destruct (isConfigured None None) eqn:Hc; [discriminate | contradiction].
Qed.

(** X13. For a non-empty account id [resolveAccount] and [getConfig]
    resolve the same configuration. When the accounts object has the id as
    a key, it is that account, under that id. When it has not and the id is
    a name every object inherits, [constructor] say, it is the inherited
    member, under that id: a configuration without any field, which is
    not configured whatever the top-level configuration is. Otherwise it
    is the top-level configuration, under the id default. Without an id
    they part: [getConfig] is the top-level configuration whatever the
    accounts are, [resolveAccount] resolves the id default. *)
Theorem resolveAccount_and_getConfig :
  forall (rocketchatCfg : option RocketChatSection) (id : jsstring),
    id <> [] ->
    let account := resolveAccount rocketchatCfg (Some id) in
    ra_config account = getConfig rocketchatCfg (Some id)
    /\ (forall a, ownAccount rocketchatCfg id = Some a ->
        ra_accountId account = id /\ ra_config account = a)
    /\ (inheritsAccount rocketchatCfg id ->
        ra_accountId account = id
        /\ ra_config account = prototypeMember
        /\ accountIsConfigured account = false)
    /\ (ownAccount rocketchatCfg id = None ->
        ~ inheritsAccount rocketchatCfg id ->
        ra_accountId account = js "default"
        /\ ra_config account = getConfig rocketchatCfg None)
    /\ resolveAccount rocketchatCfg None
       = resolveAccount rocketchatCfg (Some (js "default"))
    /\ getConfig rocketchatCfg None
       = match rocketchatCfg with
         | Some sec => section_config sec
         | None => emptyConfig
         end.
Proof.
  intros cfg id Hne account. subst account. apply nonEmpty_true in Hne.
  unfold resolveAccount, getConfig, inheritsAccount, ownAccount, accountsIn,
    accountOf.
  cbn [orDefault]. rewrite Hne.
  destruct cfg as [sec|]; [destruct (section_accounts sec) as [accounts|];
    [destruct (lookupAccount id accounts) as [a|];
       [|destruct (isInheritedName id) eqn:Hin]|]|];
    cbn [ra_accountId ra_config accountIsConfigured prototypeMember
         emptyConfig webhookUrl nonEmpty andb];
    repeat split; intros;
    repeat match goal with
           | H : _ /\ _ |- _ => destruct H
           | H : exists _, _ |- _ => destruct H
           end;
    try discriminate; try congruence; try reflexivity;
    exfalso;
    match goal with
    | H : ~ _ |- _ => apply H
    end;
    (split; [eexists; reflexivity | split; reflexivity]).
Qed.

(* ------------------------------------------------------------------ *)
(** ** Outbound *)

Lemma coreEvents_lift (evs : list event) : coreEvents (map Core evs) = evs.
Proof. induction evs as [|e evs IH]; simpl; congruence. Qed.

Lemma coreEvents_app (a b : list surfaceEvent) :
  coreEvents (a ++ b) = coreEvents a ++ coreEvents b.
Proof.
  induction a as [|e a IH]; [reflexivity|].
  destruct e; simpl; rewrite IH; reflexivity.
Qed.

(** A send without session webhook: one call with the text as given. *)
Lemma sendMessage_proactive_run (config : RocketChatConfig)
      (to t : jsstring) (log0 : option Logger)
      (accountId0 : option jsstring) (s : state) :
  let rq := postJson (webhookUrl config) {| out_text := t |} in
  outcomeOf (sendMessage config to t (outboundOptions log0 accountId0) s)
  = Ret (resultFor (axios (posts s) rq))
  /\ requestsOf
       (eventsOf (sendMessage config to t
                    (outboundOptions log0 accountId0) s))
     = [rq]
  /\ currentLogger
       (stateOf (sendMessage config to t
                   (outboundOptions log0 accountId0) s))
     = currentLogger s.
Proof.
  cbv zeta.
  destruct (frames_sendMessage config to t
              (outboundOptions log0 accountId0) s) as [Hlog _].
  split; [|split; [|exact Hlog]]; clear Hlog.
  all: pose proof (sendProactive_run config to t
                     (outboundOptions log0 accountId0) s) as Hp;
    cbv zeta in Hp; destruct Hp as [Hpe Hpo];
    unfold sendMessage, tryCatch, bind, ret, logOpt, logTo, emit;
    cbn [sessionWebhook outboundOptions log];
    unfold eventsOf, outcomeOf in *;
    destruct (sendProactive config to t (outboundOptions log0 accountId0) s)
      as [[[d|e] s1] ev1]; cbn [fst snd] in *; subst ev1;
    cbn [log outboundOptions] in *;
    destruct (axios (posts s) _); try discriminate;
    destruct log0 as [l|]; try destruct (currentLogger s);
    try (injection Hpo as <-); reflexivity.
Qed.

(** X14. [sendText] never raises and makes exactly one provider call: a
    JSON POST of the text exactly as given, without mention and whatever
    markdown it holds, to the webhook URL of the resolved configuration,
    also when that configuration is empty. Its result is ok with the
    provider's data when the call returns, and not ok with the error
    message when it throws. *)
Theorem sendText_posts_once :
  forall (rocketchatCfg : option RocketChatSection) (to t : jsstring)
         (accountId0 : option jsstring) (log0 : option Logger) (s : state),
    let config := getConfig rocketchatCfg accountId0 in
    let rq := postJson (webhookUrl config) {| out_text := t |} in
    let out := sendText rocketchatCfg to t accountId0 log0 s in
    outcomeS out = Ret (resultFor (axios (posts s) rq))
    /\ requestsOf (coreEvents (eventsS out)) = [rq].
Proof.
  intros cfg to t acct log0 s config rq out. subst out.
  destruct (sendMessage_proactive_run config to t log0 acct s)
    as [Ho [He Hl]].
  unfold sendText, tryCatchS, bindS, liftCore, logSurface, retS.
  fold config. unfold outcomeS, eventsS, outcomeOf, eventsOf, stateOf in *.
  destruct (sendMessage config to t (outboundOptions log0 acct) s)
    as [[o s1] ev1]. cbn [fst snd] in *. subst o.
  cbn [fst snd]. rewrite app_nil_r, coreEvents_app, coreEvents_lift.
  fold rq in He |- *.
  split.
  - unfold outboundResult, resultFor. destruct (axios (posts s) rq);
      reflexivity.
  - destruct (currentLogger s1); cbn [coreEvents]; rewrite app_nil_r;
      exact He.
Qed.

(** X15. [sendMedia] never raises and never sends the media itself. When
    the resolved configuration has no webhook URL it answers not
    configured without any provider call or log line; otherwise it makes
    exactly one provider call, a JSON POST of the placeholder text that
    names the media path, and answers like [sendText]. *)
Theorem sendMedia_posts_placeholder :
  forall (rocketchatCfg : option RocketChatSection) (to mediaPath : jsstring)
         (accountId0 : option jsstring) (log0 : option Logger) (s : state),
    let config := getConfig rocketchatCfg accountId0 in
    let rq := postJson (webhookUrl config)
                       {| out_text := mediaDescriptionOf mediaPath |} in
    let out := sendMedia rocketchatCfg to mediaPath accountId0 log0 s in
    (webhookUrl config = [] ->
     out = (Ret {| ok := false;
                   error := Some (js "Rocket.Chat not configured");
                   data := None |}, s, []))
    /\ (webhookUrl config <> [] ->
        outcomeS out = Ret (resultFor (axios (posts s) rq))
        /\ requestsOf (coreEvents (eventsS out)) = [rq]).
Proof.
  intros cfg to mediaPath acct log0 s config rq out. subst out.
  unfold sendMedia. fold config. split.
  - intros ->. reflexivity.
  - intros Hne. apply nonEmpty_true in Hne. rewrite Hne. cbn [negb].
    cbv zeta.
    destruct (sendMessage_proactive_run config to
                (mediaDescriptionOf mediaPath) log0 acct s) as [Ho [He Hl]].
    unfold tryCatchS, bindS, liftCore, logSurface, retS.
    unfold outcomeS, eventsS, outcomeOf, eventsOf, stateOf in *.
    destruct (sendMessage config to (mediaDescriptionOf mediaPath)
                (outboundOptions log0 acct) s) as [[o s1] ev1].
    cbn [fst snd] in *. subst o.
    cbn [fst snd]. rewrite app_nil_r, coreEvents_app, coreEvents_lift.
    fold rq in He |- *.
    split.
    + unfold outboundResult, resultFor. destruct (axios (posts s) rq);
        reflexivity.
    + destruct (currentLogger s1); cbn [coreEvents]; rewrite app_nil_r;
        exact He.
Qed.

(* ------------------------------------------------------------------ *)
(** ** The webhook route, as a whole *)

Ltac answered :=
  unfold logOpt, logTo, emit, ret, setStatusCode, setHeader, resEnd,
    setTimeout, throw;
  match goal with
  | |- context [ctx_log ?c] => destruct (ctx_log c)
  end;
  cbn; do 2 eexists; (split; [reflexivity|]); cbn;
  repeat match goal with
         | |- _ /\ _ => split
         | |- exists b, Some _ = Some b => eexists; reflexivity
         | |- Forall _ _ => repeat constructor
         | |- _ = _ => reflexivity
         | |- (_ = _) \/ _ => first [left; reflexivity | right]
         end.

Lemma webhookHandler_run (ctx : GatewayStartContext) (req : IncomingMessage)
      (s : state) :
  exists s' ev,
    webhookHandler ctx req s = (Ret tt, s', ev)
    /\ (exists b, ended (res s') = Some b)
    /\ In (statusCode (res s')) [200; 400; 401; 405]
    /\ Forall isLog ev
    /\ posts s' = posts s
    /\ currentLogger s' = currentLogger s
    /\ (timers s' = timers s \/ exists v, queuedFor ctx req s s' v).
Proof.
  unfold webhookHandler.
  destruct (str_eqb (req_method req) (js "GET")) eqn:Hget.
  { unfold bind. answered. }
  destruct (str_eqb (req_method req) (js "POST")) eqn:Hpost; cbn [negb].
  2: { unfold bind. answered. }
  apply str_eqb_eq in Hpost.
  destruct (parseRequestBody_pure req) as [o Ho].
  unfold onRequestEnd. cbv zeta. unfold tryCatch, bind. rewrite Ho.
  destruct o as [v|e].
  2: { answered. }
  cbv beta iota.
  destruct v as [|b|n|str|l|f]; unfold getProp;
    try (answered; fail).
  unfold ret at 1 2 3. cbv beta iota.
  destruct (strictEqualsString (lookupField (js "token") f)
              (authToken (account_config ctx))) eqn:Htok; cbn [negb].
  2: { answered. }
  apply strictEqualsString_true in Htok.
  destruct (valueTruthy (lookupField (js "user_id") f)) eqn:Hu;
    destruct (valueTruthy (lookupField (js "text") f)) eqn:Ht;
    cbn [negb orb]; try (answered; fail).
  assert (Hq : forall s',
    timers s' = timers s ++ [pipelineTask ctx req (JObj f)] ->
    statusCode (res s') = 200 ->
    queuedFor ctx req s s' (JObj f)).
  { intros s' Htimers Hstatus. unfold queuedFor.
    repeat split; try assumption.
    - intros s0. rewrite Ho. reflexivity.
    - unfold fieldMissing. cbn [fieldOf]. rewrite Hu. discriminate.
    - unfold fieldMissing. cbn [fieldOf]. rewrite Ht. discriminate. }
  unfold pipelineTask in Hq.
  answered; exists (JObj f); apply Hq; reflexivity.
Qed.

(** X16. The webhook route answers every request and never raises: the
    response is ended with status 200, 400, 401 or 405, never 500; the
    handler itself emits log lines only and makes no provider call; and it
    queues the pipeline, once, only together with the 200 it gives to a POST
    whose body decoded with the configured token, a user id and a text. *)
Theorem every_request_is_answered :
  forall (ctx : GatewayStartContext) (req : IncomingMessage) (s : state),
    let out := webhookHandler ctx req s in
    outcomeOf out = Ret tt
    /\ (exists b, ended (res (stateOf out)) = Some b)
    /\ In (statusCode (res (stateOf out))) [200; 400; 401; 405]
    /\ Forall isLog (eventsOf out)
    /\ posts (stateOf out) = posts s
    /\ currentLogger (stateOf out) = currentLogger s
    /\ (timers (stateOf out) = timers s
        \/ exists v, queuedFor ctx req s (stateOf out) v).
Proof.
  intros ctx req s out. subst out.
  destruct (webhookHandler_run ctx req s) as [s' [ev [H Hrest]]].
  rewrite H. split; [reflexivity | exact Hrest].
Qed.

Lemma asInboundMessage_fields (v : jsvalue) (d : RocketChatInboundMessage) :
  asInboundMessage v = Some d ->
  fieldOf v "token" = Some (JStr (token d))
  /\ fieldOf v "user_id" = Some (JStr (user_id d))
  /\ exists t, text d = Some t /\ fieldOf v "text" = Some (JStr t).
Proof.
  unfold asInboundMessage. destruct v as [| | | | |f]; try discriminate.
  cbn [fieldOf].
  destruct (lookupField (js "token") f) as [[| | |tok| |]|];
    try discriminate.
  destruct (lookupField (js "user_id") f) as [[| | |uid| |]|];
    try discriminate.
  destruct (lookupField (js "text") f) as [[| | |t| |]|];
    try discriminate.
  destruct (optionalString (lookupField (js "channel_name") f)) as [n|];
    try discriminate.
  destruct (optionalString (lookupField (js "message_id") f)) as [mid|];
    try discriminate.
  destruct (optionalString (lookupField (js "timestamp") f)) as [ts|];
    try discriminate.
  destruct (optionalString (lookupField (js "user_name") f)) as [uname|];
    try discriminate.
  destruct (optionalString (lookupField (js "siteUrl") f)) as [site|];
    try discriminate.
  destruct (optionalString (lookupField (js "channel_id") f)) as [[cid|]|];
    try discriminate; cbv zeta.
  - intros H. injection H as <-. cbn [token user_id text].
    split; [reflexivity|]. split; [reflexivity|].
    exists t. split; reflexivity.
  - destruct (isDirectMessage _); [|discriminate].
    intros H. injection H as <-. cbn [token user_id text].
    split; [reflexivity|]. split; [reflexivity|].
    exists t. split; reflexivity.
Qed.

(** X17. The task the handler queues for a body of the declared message
    type runs exactly the pipeline on that message, the task's catch never
    being needed; the message has the configured token, so the pipeline's
    own token check passes, and a user id and text that are not empty. The
    text may still be white space only: such a request has been answered
    200, and its deferred run, for a message not from a bot, is the inbound
    trace line and nothing else. *)
Theorem queued_task_runs_pipeline :
  forall (ctx : GatewayStartContext) (req : IncomingMessage) (s s' : state)
         (v : jsvalue) (d : RocketChatInboundMessage),
    queuedFor ctx req s s' v ->
    asInboundMessage v = Some d ->
    let t := pipelineTask ctx req v in
    exists m,
      runTimer t = Some m
      /\ (forall s0, m s0 = handleRocketChatMessage (taskParams t d) s0)
      /\ token d = authToken (account_config ctx)
      /\ user_id d <> []
      /\ (exists x, text d = Some x /\ x <> [])
      /\ (bot d = false -> blankText d ->
          forall s0,
            eventsOf (m s0) = [ELog (timer_log t) LDebug MsgFullInbound]).
Proof.
  intros ctx req s s' v d [_ [_ [_ [_ [Htok [Hu Ht]]]]]] Hd t.
  destruct (asInboundMessage_fields v Hd) as [Ftok [Fu [x [Hx Ft]]]].
  unfold tokenMatches in Htok. unfold fieldMissing in Hu, Ht.
  rewrite Ftok in Htok. rewrite Fu in Hu. rewrite Ft in Ht.
  cbn [valueTruthy] in Hu, Ht.
  assert (Hrun : forall s0,
    tryCatch (handleRocketChatMessage (taskParams t d))
             (fun processingError =>
                logOpt (timer_ctx_log t) LError
                       (MsgProcessingError (message processingError))) s0
    = handleRocketChatMessage (taskParams t d) s0).
  { intros s0. destruct (pipeline_returns (taskParams t d) s0) as [a Ha].
    unfold tryCatch, outcomeOf in *.
    destruct (handleRocketChatMessage (taskParams t d) s0) as [[o s1] ev1].
    simpl in Ha. subst o. reflexivity. }
  eexists. split.
  { unfold runTimer. subst t. cbn [timer_data pipelineTask].
    rewrite Hd. reflexivity. }
  split; [exact Hrun|].
  split; [congruence|].
  split; [apply nonEmpty_true; destruct (nonEmpty (user_id d)); congruence|].
  split.
  { exists x. split; [assumption|].
    apply nonEmpty_true. destruct (nonEmpty x); congruence. }
  intros Hbot Hblank s0. fold (taskParams t d). rewrite Hrun.
  assert (He : nonEmpty (content_text (extractMessageContent d)) = false).
  { unfold blankText in Hblank. unfold extractMessageContent; simpl.
    destruct (text d) as [y|]; [rewrite Hblank|]; reflexivity. }
  assert (Hauth : token d = authToken (account_config ctx)) by congruence.
  unfold handleRocketChatMessage. cbv zeta.
  cbn [taskParams p_data p_rocketchatConfig p_log p_cfg p_accountId
       p_sessionWebhook].
  subst t. cbn [pipelineTask timer_rocketchatConfig timer_log].
  rewrite Hauth, str_eqb_refl, Hbot, He. reflexivity.
Qed.

(* ================================================================== *)
(** * Helpers of [utils.ts] *)
(* ================================================================== *)

(* ------------------------------------------------------------------ *)
(** ** Masking *)

Lemma jsvalue_induction (P : jsvalue -> Prop) :
  P JNull -> (forall b, P (JBool b)) -> (forall n, P (JNum n)) ->
  (forall s, P (JStr s)) ->
  (forall l, Forall P l -> P (JArr l)) ->
  (forall f, Forall (fun kv => P (snd kv)) f -> P (JObj f)) ->
  forall v, P v.
Proof.
  intros Hnull Hbool Hnum Hstr Harr Hobj.
  fix IH 1. intros [|b|n|s|l|f].
  - exact Hnull.
  - apply Hbool.
  - apply Hnum.
  - apply Hstr.
  - apply Harr. induction l as [|x l IHl]; constructor.
    + apply IH.
    + exact IHl.
  - apply Hobj. induction f as [|[k x] f IHf]; constructor.
    + apply IH.
    + exact IHf.
Qed.

(** The entry [maskSensitiveData] writes for a key and its value. *)
Lemma maskSensitiveData_object (f : list (jsstring * jsvalue)) :
  maskSensitiveData (JObj f)
  = JObj (map (fun kv =>
                 (fst kv,
                  if isSensitiveKey (fst kv) then JStr maskedText
                  else maskSensitiveData (snd kv))) f).
Proof.
  cbn [maskSensitiveData]. f_equal.
  induction f as [|[k x] f IH]; [reflexivity|].
  cbn [map fst snd]. rewrite <- IH. reflexivity.
Qed.

Lemma maskSensitiveData_array (l : list jsvalue) :
  maskSensitiveData (JArr l)
  = JObj (map (fun iv =>
                 (indexKey (fst iv),
                  if isSensitiveKey (indexKey (fst iv)) then JStr maskedText
                  else maskSensitiveData (snd iv)))
              (combine (seq 0 (List.length l)) l)).
Proof.
  cbn [maskSensitiveData]. f_equal.
  generalize 0. induction l as [|x l IH]; intros i; [reflexivity|].
  cbn [List.length seq combine map fst snd]. rewrite <- IH. reflexivity.
Qed.

Lemma secretsMasked_object (f : list (jsstring * jsvalue)) :
  secretsMasked (JObj f) <->
  Forall (fun kv =>
            (isSensitiveKey (fst kv) = true -> snd kv = JStr maskedText)
            /\ secretsMasked (snd kv)) f.
Proof.
  cbn [secretsMasked].
  induction f as [|[k x] f IH].
  - split; [constructor | exact (fun _ => I)].
  - rewrite IH. split.
    + intros [H1 [H2 H3]]. constructor; [split|]; assumption.
    + intros H. inversion H as [|? ? [H1 H2] H3]; subst. auto.
Qed.

Lemma includes_refl (s : jsstring) : includes s s = true.
Proof.
  assert (H : startsWith s s = true).
  { induction s as [|c s IH]; [reflexivity|].
    simpl. rewrite N.eqb_refl. exact IH. }
  destruct s; simpl in *; rewrite ?H; reflexivity.
Qed.

Lemma sensitiveKeys_sensitive (k : jsstring) :
  In k sensitiveKeys -> isSensitiveKey k = true.
Proof.
  intros H. unfold isSensitiveKey. apply existsb_exists.
  exists k. split; [assumption|]. rewrite includes_refl. reflexivity.
Qed.

Lemma maskSensitiveData_idem (v : jsvalue) :
  maskSensitiveData (maskSensitiveData v) = maskSensitiveData v.
Proof.
  induction v as [| | | |l IH|f IH] using jsvalue_induction;
    try reflexivity.
  - rewrite maskSensitiveData_array, maskSensitiveData_object.
    f_equal. rewrite map_map. cbn [fst snd].
    assert (Hall : Forall (fun iv : nat * jsvalue =>
                             maskSensitiveData (maskSensitiveData (snd iv))
                             = maskSensitiveData (snd iv))
                          (combine (seq 0 (List.length l)) l)).
    { apply Forall_forall. intros [i x] Hin. apply in_combine_r in Hin.
      rewrite Forall_forall in IH. exact (IH x Hin). }
    induction Hall as [|[i x] rest Hx Hrest IHrest]; [reflexivity|].
    cbn [map fst snd]. rewrite IHrest.
    destruct (isSensitiveKey (indexKey i)); [reflexivity|].
    cbn [snd] in Hx. rewrite Hx. reflexivity.
  - rewrite !maskSensitiveData_object. f_equal. rewrite map_map.
    cbn [fst snd].
    induction IH as [|[k x] rest Hx Hrest IHrest]; [reflexivity|].
    cbn [map fst snd]. rewrite IHrest.
    destruct (isSensitiveKey k); [reflexivity|].
    cbn [snd] in Hx. rewrite Hx. reflexivity.
Qed.

Lemma maskSensitiveData_masks (v : jsvalue) :
  secretsMasked (maskSensitiveData v).
Proof.
  induction v as [| | | |l IH|f IH] using jsvalue_induction;
    try exact I.
  - rewrite maskSensitiveData_array. apply secretsMasked_object.
    apply Forall_forall. intros [k y] Hin. apply in_map_iff in Hin.
    destruct Hin as [[i x] [Heq Hin]]. cbn [fst snd] in *.
    injection Heq as <- <-. apply in_combine_r in Hin.
    rewrite Forall_forall in IH.
    destruct (isSensitiveKey (indexKey i)) eqn:Hs.
    + split; [reflexivity | exact I].
    + split; [discriminate | exact (IH x Hin)].
  - rewrite maskSensitiveData_object. apply secretsMasked_object.
    apply Forall_forall. intros [k y] Hin. apply in_map_iff in Hin.
    destruct Hin as [[k' x] [Heq Hin]]. cbn [fst snd] in *.
    injection Heq as <- <-.
    rewrite Forall_forall in IH.
    destruct (isSensitiveKey k') eqn:Hs.
    + split; [reflexivity | exact I].
    + split; [discriminate | exact (IH (k', x) Hin)].
Qed.

Lemma lookupField_map (g : jsstring -> jsvalue -> jsvalue) (name : jsstring)
      (f : list (jsstring * jsvalue)) :
  lookupField name (map (fun kv => (fst kv, g (fst kv) (snd kv))) f)
  = match lookupField name f with
    | Some x => Some (g name x)
    | None => None
    end.
Proof.
  induction f as [|[k x] f IH]; [reflexivity|].
  cbn [map fst snd lookupField].
  destruct (str_eqb k name) eqn:Hk; [|exact IH].
  apply str_eqb_eq in Hk. subst k. reflexivity.
Qed.

(** X18. [maskSensitiveData] leaves no value in the clear under a key it
    holds sensitive, at any depth of nested objects and arrays; the five
    sensitive names themselves are such keys, so a field named token,
    authToken, password, secret or key reads as the mask afterwards. An
    object keeps its keys in order, a primitive or [null] is returned as it
    is, and masking twice is masking once. *)
Theorem maskSensitiveData_hides_secrets :
  forall (v : jsvalue),
    secretsMasked (maskSensitiveData v)
    /\ maskSensitiveData (maskSensitiveData v) = maskSensitiveData v
    /\ (forall f, v = JObj f ->
        keysOf (maskSensitiveData v) = map fst f
        /\ forall name x,
            In name sensitiveKeys ->
            lookupField name f = Some x ->
            exists f',
              maskSensitiveData v = JObj f'
              /\ lookupField name f' = Some (JStr maskedText))
    /\ (match v with JObj _ | JArr _ => False | _ => True end ->
        maskSensitiveData v = v).
Proof.
  intros v. split; [apply maskSensitiveData_masks|].
  split; [apply maskSensitiveData_idem|]. split.
  - intros f ->. rewrite maskSensitiveData_object. split.
    + cbn [keysOf]. rewrite map_map. reflexivity.
    + intros name x Hname Hx.
      eexists. split; [reflexivity|].
      rewrite (lookupField_map
                 (fun k y => if isSensitiveKey k then JStr maskedText
                             else maskSensitiveData y)).
      rewrite Hx, (sensitiveKeys_sensitive Hname). reflexivity.
  - destruct v; try reflexivity; contradiction.
Qed.

(* ------------------------------------------------------------------ *)
(** ** Sanitising *)

Lemma replaceNbsp_clean (text : jsstring) : ~ In NBSP (replaceNbsp text).
Proof.
  unfold replaceNbsp. intros H. apply in_map_iff in H.
  destruct H as [c [Hc _]].
  destruct (N.eqb c NBSP) eqn:E.
  - discriminate Hc.
  - apply N.eqb_neq in E. congruence.
Qed.

Lemma replaceNbsp_fixed (text : jsstring) :
  ~ In NBSP text -> replaceNbsp text = text.
Proof.
  unfold replaceNbsp. induction text as [|c t IH]; intros H; [reflexivity|].
  cbn [map]. rewrite IH by (intros Hin; apply H; right; exact Hin).
  destruct (N.eqb c NBSP) eqn:E; [|reflexivity].
  apply N.eqb_eq in E. exfalso. apply H. left. exact E.
Qed.

Lemma replaceCrLf_cons (c : N) (rest : jsstring) :
  replaceCrLf (c :: rest)
  = match rest with
    | d :: rest' =>
        if N.eqb c CR && N.eqb d LF then LF :: replaceCrLf rest'
        else c :: replaceCrLf rest
    | [] => [c]
    end.
Proof. destruct rest; reflexivity. Qed.

(** Induction along the scan of [replaceCrLf]. *)
Lemma replaceCrLf_ind (P : jsstring -> Prop) :
  P [] ->
  (forall c, P [c]) ->
  (forall c d rest,
      N.eqb c CR && N.eqb d LF = true -> P rest -> P (c :: d :: rest)) ->
  (forall c d rest,
      N.eqb c CR && N.eqb d LF = false -> P (d :: rest) ->
      P (c :: d :: rest)) ->
  forall text, P text.
Proof.
  intros Hnil Hone Hhit Hmiss text.
  assert (H : P text /\ forall c, P (c :: text)).
  { induction text as [|d rest [IH1 IH2]].
    - split; [exact Hnil | exact Hone].
    - split; [apply IH2|]. intros c.
      destruct (N.eqb c CR && N.eqb d LF) eqn:E.
      + apply Hhit; assumption.
      + apply Hmiss; [assumption | apply IH2]. }
  exact (proj1 H).
Qed.

Lemma replaceCrLf_length (text : jsstring) :
  List.length (replaceCrLf text) <= List.length text.
Proof.
  induction text as [|c|c d rest E IH|c d rest E IH] using replaceCrLf_ind.
  - apply le_n.
  - apply le_n.
  - rewrite replaceCrLf_cons, E. cbn [List.length]. lia.
  - rewrite replaceCrLf_cons, E. cbn [List.length] in *. lia.
Qed.

Lemma replaceCrLf_In (x : N) (text : jsstring) :
  In x (replaceCrLf text) -> In x text.
Proof.
  induction text as [|c|c d rest E IH|c d rest E IH] using replaceCrLf_ind.
  - exact (fun H => H).
  - exact (fun H => H).
  - rewrite replaceCrLf_cons, E. intros [H|H].
    + apply andb_prop in E. destruct E as [_ E]. apply N.eqb_eq in E.
      right. left. congruence.
    + right. right. apply IH. exact H.
  - rewrite replaceCrLf_cons, E. intros [H|H].
    + left. exact H.
    + right. apply IH. exact H.
Qed.

Lemma replaceCrLf_fixed (text : jsstring) :
  ~ In CR text -> replaceCrLf text = text.
Proof.
  induction text as [|c|c d rest E IH|c d rest E IH] using replaceCrLf_ind;
    intros H.
  - reflexivity.
  - reflexivity.
  - apply andb_prop in E. destruct E as [E _]. apply N.eqb_eq in E.
    exfalso. apply H. left. congruence.
  - rewrite replaceCrLf_cons, E. f_equal. apply IH.
    intros Hin. apply H. right. exact Hin.
Qed.

Lemma In_firstn (A : Type) (x : A) (n : nat) (l : list A) :
  In x (firstn n l) -> In x l.
Proof.
  revert l. induction n as [|n IH]; intros [|y l] H;
    try contradiction.
  destruct H as [H|H]; [left; exact H | right; apply IH; exact H].
Qed.

Lemma firstn_length_bound (A : Type) (n : nat) (l : list A) :
  List.length (firstn n l) <= n /\ List.length (firstn n l) <= List.length l.
Proof.
  revert l. induction n as [|n IH]; intros [|y l]; cbn [firstn List.length];
    try (split; lia).
  destruct (IH l). split; lia.
Qed.

(** X19. [sanitizeText] returns at most 4000 code units and never more
    than it was given; the result holds no non-breaking space, and no
    character that was not in the text other than the space that stands for
    one. A text without non-breaking space and without carriage return is
    only cut to its first 4000 code units. *)
Theorem sanitizeText_bounds :
  forall (text : jsstring),
    List.length (sanitizeText text) <= 4000
    /\ List.length (sanitizeText text) <= List.length text
    /\ ~ In NBSP (sanitizeText text)
    /\ (forall c, In c (sanitizeText text) -> In c text \/ c = SPACE)
    /\ (~ In NBSP text -> ~ In CR text ->
        sanitizeText text = firstn 4000 text).
Proof.
  intros text. unfold sanitizeText.
  pose proof (firstn_length_bound 4000 (replaceCrLf (replaceNbsp text)))
    as [H1 H2].
  split; [exact H1|]. split.
  { pose proof (replaceCrLf_length (replaceNbsp text)) as H3.
    unfold replaceNbsp in H3 at 2. rewrite length_map in H3. lia. }
  split.
  { intros H. apply In_firstn, replaceCrLf_In in H.
    exact (replaceNbsp_clean text H). }
  split.
  { intros c H. apply In_firstn, replaceCrLf_In in H.
    unfold replaceNbsp in H. apply in_map_iff in H.
    destruct H as [x [Hx Hin]].
    destruct (N.eqb x NBSP); [right | left]; congruence. }
  intros Hn Hc. rewrite (@replaceNbsp_fixed text Hn), (@replaceCrLf_fixed text Hc).
  reflexivity.
Qed.

(* ------------------------------------------------------------------ *)
(** ** Retrying *)

Lemma callsOf_app (a b : list retryEvent) :
  callsOf (a ++ b) = callsOf a ++ callsOf b.
Proof. unfold callsOf. apply flat_map_app. Qed.

Lemma waitsOf_app (a b : list retryEvent) :
  waitsOf (a ++ b) = waitsOf a ++ waitsOf b.
Proof. unfold waitsOf. apply flat_map_app. Qed.

Lemma callsOf_retryPause (maxRetries delayMs : Z) (lg : option Logger)
      (i : nat) (e : JsError) :
  callsOf (retryPause maxRetries delayMs lg i e) = [].
Proof.
  unfold retryPause. destruct (Z.ltb (Z.of_nat i) maxRetries); [|reflexivity].
  destruct lg; reflexivity.
Qed.

Lemma waitsOf_retryPause (maxRetries delayMs : Z) (lg : option Logger)
      (i : nat) (e : JsError) :
  waitsOf (retryPause maxRetries delayMs lg i e)
  = if Z.ltb (Z.of_nat i) maxRetries then [backoff delayMs i] else [].
Proof.
  unfold retryPause. destruct (Z.ltb (Z.of_nat i) maxRetries); [|reflexivity].
  destruct lg; reflexivity.
Qed.

Lemma retryLoop_success (T : Type) (fn : nat -> JsError + T)
      (maxRetries delayMs : Z) (lg : option Logger) (v : T) :
  forall (k i fuel : nat) (lastError : option JsError),
    k < fuel ->
    (Z.of_nat (i + k) <= maxRetries)%Z ->
    (forall j, j < k -> exists e, fn (i + j) = inl e) ->
    fn (i + k) = inr v ->
    exists ev,
      retryLoop fn maxRetries delayMs lg fuel i lastError = Some (inr v, ev)
      /\ callsOf ev = seq i (S k)
      /\ waitsOf ev = map (backoff delayMs) (seq i k).
Proof.
  induction k as [|k IH]; intros i fuel lastError Hfuel Hmax Hfail Hok;
    (destruct fuel as [|fuel]; [lia|]); cbn [retryLoop].
  - replace (i + 0) with i in * by lia.
    replace (Z.leb (Z.of_nat i) maxRetries) with true
      by (symmetry; apply Z.leb_le; lia).
    rewrite Hok. eexists. split; [reflexivity|]. split; reflexivity.
  - replace (Z.leb (Z.of_nat i) maxRetries) with true
      by (symmetry; apply Z.leb_le; lia).
    destruct (Hfail 0 ltac:(lia)) as [e He].
    replace (i + 0) with i in He by lia. rewrite He.
    destruct (IH (S i) fuel (Some e)) as [ev [Hrun [Hcalls Hwaits]]].
    + lia.
    + lia.
    + intros j Hj. replace (S i + j) with (i + S j) by lia.
      apply Hfail. lia.
    + replace (S i + k) with (i + S k) by lia. exact Hok.
    + rewrite Hrun. eexists. split; [reflexivity|]. split.
      * change (callsOf (RetryCall i
                           :: retryPause maxRetries delayMs lg i e ++ ev))
          with (i :: callsOf (retryPause maxRetries delayMs lg i e ++ ev)).
        rewrite callsOf_app, callsOf_retryPause, Hcalls. reflexivity.
      * change (waitsOf (RetryCall i
                           :: retryPause maxRetries delayMs lg i e ++ ev))
          with (waitsOf (retryPause maxRetries delayMs lg i e ++ ev)).
        rewrite waitsOf_app, waitsOf_retryPause, Hwaits.
        replace (Z.ltb (Z.of_nat i) maxRetries) with true
          by (symmetry; apply Z.ltb_lt; lia).
        reflexivity.
Qed.

Lemma retryLoop_exhausted (T : Type) (fn : nat -> JsError + T)
      (maxRetries delayMs : Z) (lg : option Logger) (errs : nat -> JsError) :
  forall (m i fuel : nat) (lastError : option JsError),
    m < fuel ->
    (Z.of_nat m = Z.max 0 (maxRetries + 1 - Z.of_nat i))%Z ->
    (forall j, j < m -> fn (i + j) = inl (errs (i + j))) ->
    exists ev,
      retryLoop fn maxRetries delayMs lg fuel i lastError
      = Some (inl match m with
                  | O => lastError
                  | S m' => Some (errs (i + m'))
                  end, ev)
      /\ callsOf ev = seq i m
      /\ waitsOf ev = map (backoff delayMs) (seq i (pred m)).
Proof.
  induction m as [|m IH]; intros i fuel lastError Hfuel Hmax Hfail;
    (destruct fuel as [|fuel]; [lia|]); cbn [retryLoop].
  - replace (Z.leb (Z.of_nat i) maxRetries) with false
      by (symmetry; apply Z.leb_gt; lia).
    eexists. split; [reflexivity|]. split; reflexivity.
  - replace (Z.leb (Z.of_nat i) maxRetries) with true
      by (symmetry; apply Z.leb_le; lia).
    pose proof (Hfail 0 ltac:(lia)) as He.
    replace (i + 0) with i in He by lia. rewrite He.
    destruct (IH (S i) fuel (Some (errs i))) as [ev [Hrun [Hcalls Hwaits]]].
    + lia.
    + lia.
    + intros j Hj. replace (S i + j) with (i + S j) by lia.
      apply Hfail. lia.
    + rewrite Hrun. eexists. split; [|split].
      * f_equal. f_equal. f_equal. destruct m as [|m'].
        -- replace (i + 0) with i by lia. reflexivity.
        -- replace (i + S m') with (S i + m') by lia. reflexivity.
      * change (callsOf (RetryCall i
                           :: retryPause maxRetries delayMs lg i (errs i)
                           ++ ev))
          with (i :: callsOf (retryPause maxRetries delayMs lg i (errs i)
                              ++ ev)).
        rewrite callsOf_app, callsOf_retryPause, Hcalls. reflexivity.
      * change (waitsOf (RetryCall i
                           :: retryPause maxRetries delayMs lg i (errs i)
                           ++ ev))
          with (waitsOf (retryPause maxRetries delayMs lg i (errs i) ++ ev)).
        rewrite waitsOf_app, waitsOf_retryPause, Hwaits.
        destruct m as [|m'].
        -- replace (Z.ltb (Z.of_nat i) maxRetries) with false
             by (symmetry; apply Z.ltb_ge; lia).
           reflexivity.
        -- replace (Z.ltb (Z.of_nat i) maxRetries) with true
             by (symmetry; apply Z.ltb_lt; lia).
           reflexivity.
Qed.

Lemma totalOf_app (a b : list Z) :
  totalOf (a ++ b) = (totalOf a + totalOf b)%Z.
Proof.
  unfold totalOf. induction a as [|x a IH]; cbn [app fold_right]; lia.
Qed.

Lemma backoff_total (delayMs : Z) (n : nat) :
  totalOf (map (backoff delayMs) (seq 0 n))
  = (delayMs * (2 ^ Z.of_nat n - 1))%Z.
Proof.
  induction n as [|n IH]; [cbn; lia|].
  rewrite seq_S, map_app, totalOf_app, IH. cbn [map totalOf fold_right].
  unfold backoff. rewrite Nat2Z.inj_succ, Z.pow_succ_r by lia.
  cbn [Nat.add]. lia.
Qed.

(** X20. When the call of iteration [k] is the first that succeeds and [k]
    is at most [maxRetries], [retryWithBackoff] resolves with that call's
    value after exactly [k + 1] calls; it waited [delayMs * 2^i] after each
    failed call [i], [delayMs * (2^k - 1)] in all, and made no call after
    the success. *)
Theorem retry_returns_first_success :
  forall (T : Type) (fn : nat -> JsError + T) (options : RetryOptions)
         (k : nat) (v : T),
    (Z.of_nat k <= maxRetriesOf options)%Z ->
    (forall j, j < k -> exists e, fn j = inl e) ->
    fn k = inr v ->
    exists ev,
      retryWithBackoff fn options = Some (inr v, ev)
      /\ callsOf ev = seq 0 (S k)
      /\ waitsOf ev = map (backoff (delayMsOf options)) (seq 0 k)
      /\ totalOf (waitsOf ev)
         = (delayMsOf options * (2 ^ Z.of_nat k - 1))%Z.
Proof.
  intros T fn options k v Hk Hfail Hok.
  destruct (@retryLoop_success T fn (maxRetriesOf options)
              (delayMsOf options) (ro_log options) v k 0
              (S (Z.to_nat (maxRetriesOf options + 1))) None)
    as [ev [Hrun [Hcalls Hwaits]]].
  - lia.
  - exact Hk.
  - exact Hfail.
  - exact Hok.
  - exists ev. unfold retryWithBackoff. rewrite Hrun, Hcalls, Hwaits.
    repeat split. apply backoff_total.
Qed.

(** X21. When every call fails, [retryWithBackoff] calls [fn] once per
    iteration, [maxRetries + 1] times, and rejects with the error of the
    last call, not the first; there is a wait after each failure but the
    last. With a negative [maxRetries] it makes no call and rejects with
    [undefined]. *)
Theorem retry_gives_up_with_last_error :
  forall (T : Type) (fn : nat -> JsError + T) (options : RetryOptions)
         (errs : nat -> JsError),
    (forall j, (Z.of_nat j <= maxRetriesOf options)%Z ->
               fn j = inl (errs j)) ->
    exists ev,
      retryWithBackoff fn options
      = Some (inl match Z.to_nat (maxRetriesOf options + 1) with
                  | O => None
                  | S n => Some (errs n)
                  end, ev)
      /\ callsOf ev = seq 0 (Z.to_nat (maxRetriesOf options + 1))
      /\ waitsOf ev
         = map (backoff (delayMsOf options))
               (seq 0 (pred (Z.to_nat (maxRetriesOf options + 1)))).
Proof.
  intros T fn options errs Hfail.
  destruct (@retryLoop_exhausted T fn (maxRetriesOf options)
              (delayMsOf options) (ro_log options) errs
              (Z.to_nat (maxRetriesOf options + 1)) 0
              (S (Z.to_nat (maxRetriesOf options + 1))) None)
    as [ev [Hrun [Hcalls Hwaits]]].
  - lia.
  - lia.
  - intros j Hj. cbn [Nat.add]. apply Hfail. lia.
  - exists ev. unfold retryWithBackoff. rewrite Hrun.
    repeat split; assumption.
Qed.

(* ================================================================== *)
(** * Stopping an account ([gateway.startAccount]) *)
(* ================================================================== *)

Lemma stopped_ignores_signals
      (unregisterWebhook unregisterHealth : nat -> option JsError)
      (accountId : jsstring) (lg : option Logger) (signals : list signal)
      (st : Lifecycle) :
  stopped st = true ->
  deliverSignals unregisterWebhook unregisterHealth accountId lg signals st
  = (st, []).
Proof.
  intros Hs. induction signals as [|sg rest IH]; [reflexivity|].
  cbn [deliverSignals]. unfold onAbort, stop. rewrite Hs.
  destruct sg; rewrite IH; reflexivity.
Qed.



(** X22. Once [stop] was called on a running account, nothing unregisters
    its routes: [stop] itself only sets the flag and logs one line, and
    every later abort signal or [stop] is ignored. The table of unregister
    functions is left as it was. *)
Theorem stop_leaves_routes_registered :
  forall (unregisterWebhook unregisterHealth : nat -> option JsError)
         (accountId : jsstring) (lg : option Logger)
         (signals : list signal) (st : Lifecycle),
    stopped st = false ->
    let out := deliverSignals unregisterWebhook unregisterHealth
                              accountId lg (SigStop :: signals) st in
    stopped (fst out) = true
    /\ unregisterFunctions (fst out) = unregisterFunctions st
    /\ snd out = infoLine lg (fun l => LcProviderStopped l accountId)
    /\ existsb unregisters (snd out) = false.
Proof.
  intros uw uh accountId lg signals st Hs out. subst out.
  cbn [deliverSignals]. unfold stop. rewrite Hs.
  rewrite stopped_ignores_signals by reflexivity.
  cbn [fst snd stopped unregisterFunctions]. rewrite app_nil_r.
  repeat split. destruct lg; reflexivity.
Qed.


(* ================================================================== *)
(** * The handler of [webhook-handler.ts] *)
(* ================================================================== *)

Lemma respondJson_run (express : bool) (code : nat) (body : ResBody)
      (s : state) :
  respondJson express code body s
  = (Ret tt, responded_with express code body s, []).
Proof. destruct express; reflexivity. Qed.

Lemma logOpt_then_respond (lg : option Logger) (m : logmsg) (express : bool)
      (code : nat) (body : ResBody) (s : state) :
  liftCore (logOpt lg LError m ;; respondJson express code body)%js s
  = (Ret tt, responded_with express code body s,
     map Core match lg with
              | Some l => [ELog l LError m]
              | None => []
              end).
Proof.
  unfold liftCore, bind, logOpt, logTo, emit, ret.
  destruct lg; rewrite respondJson_run; reflexivity.
Qed.

Lemma bodyProp_object (f : list (jsstring * jsvalue)) (name : jsstring)
      (s : state) :
  liftCore (bodyProp (Some (JObj f)) name) s
  = (Ret (lookupField name f), s, []).
Proof. reflexivity. Qed.

Lemma verdict_cases (config : RocketChatConfig) (body : option jsvalue) :
  match verdictOf config body with
  | Broken => body = None \/ body = Some JNull
  | Unauthorized =>
      exists v, body = Some v /\ v <> JNull
                /\ strictEqualsString (fieldOf v "token") (authToken config)
                   = false
  | Incomplete =>
      exists f, body = Some (JObj f)
                /\ strictEqualsString (fieldOf (JObj f) "token")
                                      (authToken config) = true
                /\ valueTruthy (fieldOf (JObj f) "token")
                   && valueTruthy (fieldOf (JObj f) "user_id")
                   && valueTruthy (fieldOf (JObj f) "text") = false
  | Accepted =>
      exists f, body = Some (JObj f)
                /\ strictEqualsString (fieldOf (JObj f) "token")
                                      (authToken config) = true
                /\ valueTruthy (fieldOf (JObj f) "token") = true
                /\ valueTruthy (fieldOf (JObj f) "user_id") = true
                /\ valueTruthy (fieldOf (JObj f) "text") = true
  end.
Proof.
  unfold verdictOf.
  destruct body as [v|]; [|left; reflexivity].
  destruct v as [|b|n|str|l|f]; try (right; reflexivity);
    try (cbn; eexists; repeat split; [discriminate]).
  destruct (strictEqualsString (fieldOf (JObj f) "token") (authToken config))
    eqn:Htok; cbn [negb].
  - destruct (valueTruthy (fieldOf (JObj f) "token")
              && valueTruthy (fieldOf (JObj f) "user_id")
              && valueTruthy (fieldOf (JObj f) "text")) eqn:Hall.
    + exists f. apply andb_prop in Hall. destruct Hall as [Hall Ht].
      apply andb_prop in Hall. destruct Hall as [Hk Hu]. auto.
    + exists f. auto.
  - exists (JObj f). repeat split; [discriminate | exact Htok].
Qed.

Lemma rocketChatWebhookHandler_accepted
      (processUntyped : option jsvalue -> jsstring -> MS unit)
      (req : ExpressRequest) (express : bool) (cfg : OpenClawConfig)
      (accountId0 : jsstring) (config : RocketChatConfig)
      (lg : option Logger) (s : state) :
  verdictOf config (ex_body req) = Accepted ->
  rocketChatWebhookHandler processUntyped req express cfg accountId0 config
                           lg s
  = match processBody processUntyped req cfg accountId0 config lg
                      (ex_body req) s with
    | (Ret _, s1, ev1) =>
        (Ret tt, responded_with express 200 ackBody s1,
         incomingLine lg req ++ ev1)
    | (Throw e, s1, ev1) =>
        (Ret tt,
         responded_with express 500 (errorBody "Internal Server Error") s1,
         (incomingLine lg req ++ ev1) ++ caughtLine lg (message e))
    end.
Proof.
  intros Hv. pose proof (verdict_cases config (ex_body req)) as Hc.
  rewrite Hv in Hc. destruct Hc as [f [Hb [Htok [Hk [Hu Ht]]]]].
  unfold rocketChatWebhookHandler. cbv zeta. rewrite Hb.
  cbn [fieldOf] in Htok, Hk, Hu, Ht.
  unfold tryCatchS, bindS at 1 2. unfold logSurfaceOpt at 1.
  rewrite bodyProp_object. rewrite Htok. cbn [negb].
  unfold bindS at 1. rewrite bodyProp_object.
  unfold bindS at 1. rewrite bodyProp_object.
  rewrite Hk, Hu, Ht. cbn [negb orb].
  unfold bindS.
  destruct (processBody processUntyped req cfg accountId0 config lg
                        (Some (JObj f)) s) as [[[u|e] s1] ev1].
  - unfold liftCore. rewrite respondJson_run. cbn [map].
    rewrite !app_nil_r, ?app_nil_l. unfold incomingLine.
    destruct lg; reflexivity.
  - unfold logSurfaceOpt, liftCore. rewrite respondJson_run. cbn [map].
    rewrite !app_nil_r, ?app_nil_l. unfold incomingLine, caughtLine.
    destruct lg; reflexivity.
Qed.

(** X24. [rocketChatWebhookHandler] never raises and answers every request:
    a body that is [undefined] or [null] gets 500, a body whose token is not
    the configured one gets 401, one with the token but without user id or
    text gets 400, each without any provider call and with one error line.
    Only a body that passes both checks reaches the pipeline, and is
    answered 200, or 500 when the pipeline throws. *)
Theorem express_handler_answers_every_request :
  forall (processUntyped : option jsvalue -> jsstring -> MS unit)
         (req : ExpressRequest) (express : bool) (cfg : OpenClawConfig)
         (accountId0 : jsstring) (config : RocketChatConfig)
         (lg : option Logger) (s : state),
    let out := rocketChatWebhookHandler processUntyped req express cfg
                                        accountId0 config lg s in
    outcomeS out = Ret tt
    /\ (exists b, ended (res (stateS out)) = Some b)
    /\ match verdictOf config (ex_body req) with
       | Broken =>
           exists m,
             out = (Ret tt,
                    responded_with express 500
                                   (errorBody "Internal Server Error") s,
                    incomingLine lg req ++ caughtLine lg m)
       | Unauthorized =>
           out = (Ret tt,
                  responded_with express 401
                                 (errorBody "Unauthorized: Invalid token") s,
                  incomingLine lg req ++ errorLine lg MsgTokenMismatch)
       | Incomplete =>
           out = (Ret tt,
                  responded_with express 400
                    (errorBody "Bad Request: Missing required fields") s,
                  incomingLine lg req ++ errorLine lg MsgMissingFields)
       | Accepted => In (statusCode (res (stateS out))) [200; 500]
       end.
Proof.
  intros processUntyped req express cfg accountId0 config lg s out.
  assert (Hmain :
    match verdictOf config (ex_body req) with
    | Broken =>
        exists m,
          out = (Ret tt,
                 responded_with express 500
                                (errorBody "Internal Server Error") s,
                 incomingLine lg req ++ caughtLine lg m)
    | Unauthorized =>
        out = (Ret tt,
               responded_with express 401
                              (errorBody "Unauthorized: Invalid token") s,
               incomingLine lg req ++ errorLine lg MsgTokenMismatch)
    | Incomplete =>
        out = (Ret tt,
               responded_with express 400
                 (errorBody "Bad Request: Missing required fields") s,
               incomingLine lg req ++ errorLine lg MsgMissingFields)
    | Accepted =>
        exists s1 ev code body,
          out = (Ret tt, responded_with express code body s1, ev)
          /\ In code [200; 500]
    end).
  { pose proof (verdict_cases config (ex_body req)) as Hc.
    destruct (verdictOf config (ex_body req)) eqn:Hv.
    - subst out. unfold rocketChatWebhookHandler. cbv zeta.
      unfold tryCatchS, bindS, logSurfaceOpt, liftCore.
      destruct Hc as [-> | ->]; cbn [bodyProp getProp]; unfold throw;
        rewrite respondJson_run; eexists;
        unfold incomingLine, caughtLine; destruct lg; reflexivity.
    - subst out. destruct Hc as [v [Hb [Hnull Htok]]].
      unfold rocketChatWebhookHandler. cbv zeta. rewrite Hb.
      unfold tryCatchS, bindS at 1 2. unfold logSurfaceOpt at 1.
      assert (Hp : liftCore (bodyProp (Some v) (js "token")) s
                   = (Ret (fieldOf v "token"), s, [])).
      { destruct v; try reflexivity. congruence. }
      rewrite Hp, Htok. cbn [negb]. rewrite logOpt_then_respond.
      unfold incomingLine, errorLine. destruct lg; reflexivity.
    - subst out. destruct Hc as [f [Hb [Htok Hall]]].
      unfold rocketChatWebhookHandler. cbv zeta. rewrite Hb.
      cbn [fieldOf] in Htok, Hall.
      unfold tryCatchS, bindS at 1 2. unfold logSurfaceOpt at 1.
      rewrite bodyProp_object. rewrite Htok. cbn [negb].
      unfold bindS at 1. rewrite bodyProp_object.
      unfold bindS at 1. rewrite bodyProp_object.
      replace (negb (valueTruthy (lookupField (js "token") f))
               || negb (valueTruthy (lookupField (js "user_id") f))
               || negb (valueTruthy (lookupField (js "text") f)))
        with true
        by (destruct (valueTruthy (lookupField (js "token") f)),
                     (valueTruthy (lookupField (js "user_id") f)),
                     (valueTruthy (lookupField (js "text") f));
            try reflexivity; discriminate).
      rewrite logOpt_then_respond.
      unfold incomingLine, errorLine. destruct lg; reflexivity.
    - subst out. rewrite rocketChatWebhookHandler_accepted by exact Hv.
      destruct (processBody processUntyped req cfg accountId0 config lg
                            (ex_body req) s) as [[[u|e] s1] ev1].
      + do 4 eexists. split; [reflexivity|]. left. reflexivity.
      + do 4 eexists. split; [reflexivity|]. right. left. reflexivity. }
  destruct (verdictOf config (ex_body req)).
  - destruct Hmain as [m Hm]. rewrite Hm.
    split; [reflexivity|]. split; [eexists; reflexivity|].
    exists m. reflexivity.
  - rewrite Hmain. split; [reflexivity|]. split; [eexists; reflexivity|].
    reflexivity.
  - rewrite Hmain. split; [reflexivity|]. split; [eexists; reflexivity|].
    reflexivity.
  - destruct Hmain as [s1 [ev [code [body [Hm Hin]]]]]. rewrite Hm.
    split; [reflexivity|]. split; [eexists; reflexivity|]. exact Hin.
Qed.

(** X25. A request whose body passes the checks and has the declared
    message type is answered 200 only after the whole pipeline ran on it,
    with the session webhook made up from the request and the console as
    logger when none was given; the pipeline's events come before the
    answer and the handler never answers 500 for it. *)
Theorem express_handler_runs_pipeline_first :
  forall (processUntyped : option jsvalue -> jsstring -> MS unit)
         (req : ExpressRequest) (express : bool) (cfg : OpenClawConfig)
         (accountId0 : jsstring) (config : RocketChatConfig)
         (lg : option Logger) (s : state) (d : RocketChatInboundMessage),
    verdictOf config (ex_body req) = Accepted ->
    typedBody (ex_body req) = Some d ->
    let run := handleRocketChatMessage
                 (expressParams req cfg accountId0 config lg d) s in
    rocketChatWebhookHandler processUntyped req express cfg accountId0
                             config lg s
    = (Ret tt, responded_with express 200 ackBody (stateOf run),
       incomingLine lg req ++ map Core (eventsOf run)).
Proof.
  intros processUntyped req express cfg accountId0 config lg s d Hv Hd run.
  rewrite rocketChatWebhookHandler_accepted by exact Hv.
  unfold processBody. rewrite Hd. unfold liftCore. fold run.
  destruct (pipeline_returns
              (expressParams req cfg accountId0 config lg d) s) as [u Hu].
  fold run in Hu. unfold outcomeOf, stateOf, eventsOf in *.
  destruct run as [[o s1] ev1]. cbn [fst snd] in *. subst o.
  destruct u. reflexivity.
Qed.

(* ================================================================== *)
(** * The webhook route and its deferred task *)
(* ================================================================== *)

(** What [asInboundMessage] puts in place of a field that was left out
    is never read: the run of the pipeline on a direct message is the same
    whatever the channel id is, and every run is the same whatever the site
    URL is. *)
Lemma direct_run_ignores_channel_id (params : HandleRocketChatMessageParams)
      (c : jsstring) (s : state) :
  isDirectMessage (p_data params) = true ->
  handleRocketChatMessage (withData params (withChannelId (p_data params) c))
                          s
  = handleRocketChatMessage params s.
Proof.
  intros Hd.
  assert (Hd' : isDirectMessage (withChannelId (p_data params) c) = true)
    by exact Hd.
  unfold handleRocketChatMessage, dispatchReplyWithBufferedBlockDispatcher,
    deliver, sendMessage, sendBySession, sendProactive, extractMessageContent.
  cbv zeta.
  cbn [withData p_data p_rocketchatConfig p_cfg p_accountId
       p_sessionWebhook p_log].
  rewrite Hd, Hd'.
  cbn [withChannelId token bot channel_name message_id timestamp user_id
       user_name text].
  reflexivity.
Qed.

Lemma run_ignores_siteUrl (params : HandleRocketChatMessageParams)
      (u : jsstring) (s : state) :
  handleRocketChatMessage (withData params (withSiteUrl (p_data params) u)) s
  = handleRocketChatMessage params s.
Proof. reflexivity. Qed.

(** The deferred task of a decoded body, run: the pipeline call with the
    arguments the handler captured. The catch of the task is not needed for
    a message, as the pipeline returns; it is what keeps the task from
    raising otherwise. *)
Lemma runTask_pipelineTask (ctx : GatewayStartContext) (req : IncomingMessage)
      (v : jsvalue) :
  let t := pipelineTask ctx req v in
  (forall s, outcomeOf (runTask t s) = Ret tt)
  /\ (forall d, asInboundMessage v = Some d ->
      forall s, runTask t s = handleRocketChatMessage (taskParams t d) s)
  /\ (asInboundMessage v = None ->
      forall s,
        runTask t s
        = tryCatch
            (handleOffType (timer_cfg t) (timer_accountId t) v
                           (timer_sessionWebhook t) (timer_log t)
                           (timer_rocketchatConfig t))
            (fun processingError =>
               logOpt (ctx_log ctx) LError
                      (MsgProcessingError (message processingError))) s).
Proof.
  intros t.
  assert (Htyped : forall d, asInboundMessage v = Some d ->
            forall s, runTask t s = handleRocketChatMessage (taskParams t d) s).
  { intros d Hd s. unfold runTask. subst t.
    cbn [timer_data pipelineTask]. rewrite Hd.
    destruct (pipeline_returns (taskParams (pipelineTask ctx req v) d) s)
      as [a Ha].
    unfold tryCatch, outcomeOf, taskParams in *.
    cbn [timer_cfg timer_accountId timer_sessionWebhook timer_log
         timer_rocketchatConfig pipelineTask] in *.
    destruct (handleRocketChatMessage _ s) as [[o s1] ev1].
    cbn [fst] in Ha. subst o. reflexivity. }
  assert (Hoff : asInboundMessage v = None ->
            forall s,
              runTask t s
              = tryCatch
                  (handleOffType (timer_cfg t) (timer_accountId t) v
                                 (timer_sessionWebhook t) (timer_log t)
                                 (timer_rocketchatConfig t))
                  (fun processingError =>
                     logOpt (ctx_log ctx) LError
                            (MsgProcessingError (message processingError)))
                  s).
  { intros Hd s. unfold runTask. subst t.
    cbn [timer_data timer_ctx_log pipelineTask]. rewrite Hd. reflexivity. }
  split; [|split; [exact Htyped | exact Hoff]].
  intros s. destruct (asInboundMessage v) as [d|] eqn:Hd.
  - rewrite (Htyped d eq_refl s).
    destruct (pipeline_returns (taskParams t d) s) as [[] Ha]. exact Ha.
  - rewrite (Hoff eq_refl s). unfold tryCatch, outcomeOf.
    destruct (handleOffType _ _ _ _ _ _ s) as [[[[]|e] s1] ev1];
      [reflexivity|].
    unfold logOpt, logTo, emit, ret. destruct (ctx_log ctx); reflexivity.
Qed.

(** C2. The webhook route answers a GET with 200 and the text that the
    webhook is active, and a method other than GET and POST with 405 and an
    Allow header naming GET and POST. For a POST it decides in this order:
    an unparseable body gives 400; a decoded body whose token field is not
    the configured secret gives 401 with the invalid-token error; a body
    with the right token but a missing user id or text gives 400; otherwise
    it answers 200 with the empty ephemeral acknowledgement before any
    processing: it has emitted no event, made no provider call and left the
    module logger alone, and the pipeline is queued as one deferred task.
    Run afterwards, from any state, that task is the call of
    [handleRocketChatMessage] on the decoded body, with the configuration
    and account id of the route, the session webhook made of the host and
    URL of the request, and the route's logger or the console, under a
    catch that logs; it never raises, and for a body that is a message it
    is exactly the run of the pipeline. Only that last case queues a
    task. *)
Theorem webhook_validation_order :
  forall (ctx : GatewayStartContext) (req : IncomingMessage) (s : state),
    let config := account_config ctx in
    let out := webhookHandler ctx req s in
    (req_method req = js "GET" ->
     responded (stateOf out) 200
               (TextBody (js "Rocket.Chat " ++ js "webhook is active"))
     /\ timers (stateOf out) = timers s)
    /\ (req_method req <> js "GET" -> req_method req <> js "POST" ->
        responded (stateOf out) 405 (errorBody "Method Not Allowed")
        /\ In (js "Allow", js "GET, POST") (headers (res (stateOf out)))
        /\ timers (stateOf out) = timers s)
    /\ (req_method req = js "POST" ->
        (unparseable req ->
         responded (stateOf out) 400 (errorBody "Bad Request: Invalid JSON")
         /\ timers (stateOf out) = timers s)
        /\ (forall v, decodesTo req v -> v <> JNull ->
            (~ tokenMatches v config ->
             responded (stateOf out) 401
                       (errorBody "Unauthorized: Invalid token")
             /\ timers (stateOf out) = timers s)
            /\ (tokenMatches v config ->
                fieldMissing v "user_id" \/ fieldMissing v "text" ->
                responded (stateOf out) 400
                          (errorBody "Bad Request: Missing required fields")
                /\ timers (stateOf out) = timers s)
            /\ (tokenMatches v config ->
                ~ fieldMissing v "user_id" -> ~ fieldMissing v "text" ->
                let sessionWebhook0 :=
                  js "https://" ++ orDefault (req_host req) (js "localhost")
                     ++ req_url req in
                let log0 :=
                  match ctx_log ctx with Some l => l | None => console end in
                responded (stateOf out) 200 ackBody
                /\ eventsOf out = []
                /\ posts (stateOf out) = posts s
                /\ currentLogger (stateOf out) = currentLogger s
                /\ timers (stateOf out) = timers s ++ [pipelineTask ctx req v]
                /\ (forall m s',
                    runTimer (pipelineTask ctx req v) = Some m ->
                    outcomeOf (m s') = Ret tt)
                /\ (forall s',
                    outcomeOf (runTask (pipelineTask ctx req v) s') = Ret tt)
                /\ (forall d, asInboundMessage v = Some d ->
                    forall s',
                      runTask (pipelineTask ctx req v) s'
                      = handleRocketChatMessage
                          {| p_cfg := ctx_cfg ctx;
                             p_accountId := account_accountId ctx;
                             p_data := d;
                             p_sessionWebhook := sessionWebhook0;
                             p_log := log0;
                             p_rocketchatConfig := config |} s')
                /\ (asInboundMessage v = None ->
                    forall s',
                      runTask (pipelineTask ctx req v) s'
                      = tryCatch
                          (handleOffType (ctx_cfg ctx) (account_accountId ctx)
                                         v sessionWebhook0 log0 config)
                          (fun processingError =>
                             logOpt (ctx_log ctx) LError
                                    (MsgProcessingError
                                       (message processingError))) s')))).
Proof.
  intros ctx req s config out.
  pose proof (webhookHandler_decides ctx req s) as H. cbv zeta in H.
  fold config in H. fold out in H.
  destruct H as [Hget [Hother Hpost]].
  split; [exact Hget|]. split; [exact Hother|].
  intros Hm. destruct (Hpost Hm) as [Hbad Hdec].
  split; [exact Hbad|].
  intros v Hv Hnn. destruct (Hdec v Hv Hnn) as [H401 [H400 H200]].
  split; [exact H401|]. split; [exact H400|].
  intros Htok Hu Ht sessionWebhook0 log0.
  destruct (H200 Htok Hu Ht) as [Hr [Hev [Hposts [Htimers Hold]]]].
  destruct (runTask_pipelineTask ctx req v) as [Hret [Htyped Hoff]].
  destruct (webhookHandler_run ctx req s) as [s1 [ev1 [Hrun [_ [_ [_ [_ [Hlog _]]]]]]]].
  split; [exact Hr|]. split; [exact Hev|]. split; [exact Hposts|].
  split.
  { subst out. rewrite Hrun. exact Hlog. }
  split; [exact Htimers|]. split; [exact Hold|]. split; [exact Hret|].
  split; [exact Htyped | exact Hoff].
Qed.

End Channel.

(* ================================================================== *)
(** * The properties on concrete runs *)
(* ================================================================== *)

(** C1, counterexample. With the list holding the single entry rc: and an
    empty sender id, the entry without its prefix is the empty string and so
    equals the sender id, yet the check answers not allowed: the rule as
    stated, which has no condition on the sender id being non-empty, fails. *)
Lemma allowlist_rule_stated_fails :
  ~ allowRuleStated asciiLower (Some [js "rc:"]) (Some []).
Proof.
  unfold allowRuleStated. intros [_ H].
  assert (Hallowed :
    isSenderAllowed asciiLower
      (normalizeAllowFrom asciiLower (Some [js "rc:"])) (Some []) = true).
  { apply H. right; right. exists [], (js "rc:").
    split; [reflexivity|]. split; [left; reflexivity|].
    split; [discriminate|].
    exists []. split; [|reflexivity].
    left. exists (js "rc:"), (js "rc:").
    split; [right; left; reflexivity|].
    split; [repeat constructor | reflexivity]. }
  vm_compute in Hallowed. discriminate.
Qed.

(** Scenario B of the specification, with a provider that refuses the
    call: the denial notice names u1, is attempted once, its failure is
    logged, and the pipeline returns. *)
Lemma denied_dm_gets_one_notice_witness :
  exists notice before after,
    notice = before ++ js "u1" ++ after
    /\ outcomeOf (handleRocketChatMessage asciiLower refusingProvider
                    sampleRuntime (sampleParams sampleMessage sampleConfig)
                    initialState) = Ret tt
    /\ eventsOf (handleRocketChatMessage asciiLower refusingProvider
                   sampleRuntime (sampleParams sampleMessage sampleConfig)
                   initialState)
       = [ELog 1 LDebug MsgFullInbound;
          ELog 1 LDebug (MsgDmBlocked (js "u1"));
          EAxios (postJson (js "https://chat.example/hooks/out")
                           {| out_text := notice |})]
         ++ [ELog 1 LDebug
                  (MsgDeniedNoticeFailed (js "connect ECONNREFUSED"))].
Proof.
  apply (@denied_dm_gets_one_notice asciiLower refusingProvider sampleRuntime
           (sampleParams sampleMessage sampleConfig) initialState).
  - reflexivity.
  - reflexivity.
  - unfold blankText. simpl. discriminate.
  - reflexivity.
  - reflexivity.
  - reflexivity.
Defined.

(** A payload whose text is three spaces. *)
Lemma blank_text_is_noop_witness :
  blankText (withText sampleMessage (Some (js "   ")))
  /\ eventsOf (handleRocketChatMessage asciiLower acceptingProvider
                 sampleRuntime
                 (sampleParams (withText sampleMessage (Some (js "   ")))
                               sampleConfig)
                 initialState)
     = [ELog 1 LDebug MsgFullInbound].
Proof.
  assert (Hblank : blankText (withText sampleMessage (Some (js "   "))))
    by reflexivity.
  split; [exact Hblank|].
  apply (@blank_text_is_noop asciiLower acceptingProvider sampleRuntime
           (sampleParams (withText sampleMessage (Some (js "   ")))
                         sampleConfig)
           initialState Hblank); reflexivity.
Defined.

(** Scenario A of the specification: the envelope of the direct message
    from u1 under the open policy. *)
Lemma envelope_addressing_witness :
  exists ctx,
    In (EFinalizeInboundContext ctx)
       (eventsOf (handleRocketChatMessage asciiLower acceptingProvider
                    sampleRuntime
                    (sampleParams sampleMessage
                                  (withDmPolicy sampleConfig None None))
                    initialState))
    /\ envelopeRule sampleMessage ctx.
Proof.
  eexists.
  refine ((fun H =>
             conj H (@envelope_addressing asciiLower acceptingProvider
                       sampleRuntime
                       (sampleParams sampleMessage
                                     (withDmPolicy sampleConfig None None))
                       initialState _ H)) _).
  vm_compute. do 3 right. left. reflexivity.
Defined.

Lemma bot_message_is_ignored_witness :
  bot botMessage = true
  /\ eventsOf (handleRocketChatMessage asciiLower acceptingProvider
                 sampleRuntime (sampleParams botMessage sampleConfig)
                 initialState)
     = [ELog 1 LDebug MsgFullInbound; ELog 1 LDebug MsgIgnoringBot].
Proof.
  split; [reflexivity|].
  apply (@bot_message_is_ignored asciiLower acceptingProvider sampleRuntime
           (sampleParams botMessage sampleConfig) initialState eq_refl).
  reflexivity.
Defined.

(** C6, the run that departs from the claim. A session reply with the text
    [# hi], which is markdown, and the mention of u1 is posted to the
    configured webhook URL, not to the session webhook, but its text ends
    with the mention twice; the plain text [hi] gets it once. *)
Theorem sendBySession_mentions_twice :
  eventsOf (sendBySession acceptingProvider sampleConfig
              (js "https://bot.example/hooks/T") (js "# hi")
              groupReplyOptions initialState)
  = [EAxios (postJson (js "https://chat.example/hooks/out")
                      {| out_text := js "# hi @u1 @u1" |})]
  /\ eventsOf (sendBySession acceptingProvider sampleConfig
                 (js "https://bot.example/hooks/T") (js "hi")
                 groupReplyOptions initialState)
     = [EAxios (postJson (js "https://chat.example/hooks/out")
                         {| out_text := js "hi @u1" |})].
Proof. split; reflexivity. Qed.

(** C5, the run that departs from the claim. The callback is given a block
    with the text pong while the provider refuses the call: the send is
    attempted once and its failure is logged by [sendMessage], but the
    callback returns normally; nothing is raised to the dispatcher and the
    reply-failed line is not logged. *)
Theorem deliver_swallows_send_failure :
  let out :=
    deliver refusingProvider sampleConfig (js "u1")
            (js "https://bot.example/hooks/T") (js "u1") (js "default")
            true 1
            {| payload_markdown := None; payload_text := Some (js "pong") |}
            initialState in
  outcomeOf out = Ret tt
  /\ eventsOf out
     = [EAxios (postJson (js "https://chat.example/hooks/out")
                         {| out_text := js "pong" |});
        ELog 1 LError (MsgSendFailed (js "connect ECONNREFUSED"))].
Proof. split; reflexivity. Qed.

(** Scenario A of the specification posted to the route: the payload, which
    leaves out most fields of a message, is answered 200 before anything
    is posted, and the queued task, run afterwards, is the pipeline on it:
    the thinking notice and the reply block are posted. *)
Lemma webhook_validation_order_witness :
  let req :=
    postRequest "{'token':'T','user_id':'u1','user_name':'Alice','channel_name':null,'text':'hi'}" in
  let out := webhookHandler scenarioAParse noForm openGateway req
                            initialState in
  responded (stateOf out) 200 ackBody
  /\ eventsOf out = []
  /\ timers (stateOf out) = [pipelineTask openGateway req scenarioABody]
  /\ postedTexts
       (eventsOf (runTask asciiLower acceptingProvider sampleRuntime
                          offTypeThrows
                          (pipelineTask openGateway req scenarioABody)
                          (stateOf out)))
     = [thinkingText; js "pong"].
Proof.
  intros req out.
  pose proof (@webhook_validation_order asciiLower acceptingProvider
                sampleRuntime scenarioAParse noForm offTypeThrows
                openGateway req initialState) as H.
  cbv zeta in H. destruct H as [_ [_ H]].
  destruct (H eq_refl) as [_ Hdecoded].
  destruct (Hdecoded scenarioABody) as [_ [_ H200]].
  - intros s. reflexivity.
  - discriminate.
  - destruct H200 as [Hr [Hev [_ [_ [Htimers [_ [_ [Htyped _]]]]]]]].
    + reflexivity.
    + intros Hmiss. vm_compute in Hmiss. discriminate.
    + intros Hmiss. vm_compute in Hmiss. discriminate.
    + split; [exact Hr|]. split; [exact Hev|]. split; [exact Htimers|].
      rewrite (Htyped _ eq_refl). reflexivity.
Defined.

(** Scenario C: a wrong token is answered 401 with the invalid-token
    error and queues nothing. *)
Example scenario_wrong_token :
  let out :=
    webhookHandler scenarioParse noForm sampleGateway
      (postRequest "{'token':'WRONG','user_id':'u1','text':'hi'}")
      initialState in
  responded (stateOf out) 401 (errorBody "Unauthorized: Invalid token")
  /\ timers (stateOf out) = [].
Proof. repeat split. Qed.

(** Scenario D: a malformed JSON body is answered 400. *)
Example scenario_malformed_body :
  let out :=
    webhookHandler scenarioParse noForm sampleGateway
      (postRequest "{'token':") initialState in
  responded (stateOf out) 400 (errorBody "Bad Request: Invalid JSON")
  /\ timers (stateOf out) = [].
Proof. repeat split. Qed.

(** A body without text is answered 400, and a complete body is
    acknowledged with one task queued and nothing emitted. *)
Example scenario_missing_text :
  let out :=
    webhookHandler scenarioParse noForm sampleGateway
      (postRequest "{'token':'T','user_id':'u1'}") initialState in
  responded (stateOf out) 400
            (errorBody "Bad Request: Missing required fields")
  /\ timers (stateOf out) = [].
Proof. repeat split. Qed.

Example scenario_acknowledged :
  let out :=
    webhookHandler scenarioParse noForm sampleGateway
      (postRequest "{'token':'T','user_id':'u1','text':'hi'}")
      initialState in
  responded (stateOf out) 200 ackBody
  /\ eventsOf out = []
  /\ List.length (timers (stateOf out)) = 1.
Proof. repeat split. Qed.

(** Scenario A: under the open policy the direct message from u1 is
    answered with the thinking notice and then the reply block. *)
Example scenario_open_dm_replies :
  postedTexts
    (eventsOf (handleRocketChatMessage asciiLower acceptingProvider
                 sampleRuntime
                 (sampleParams sampleMessage
                               (withDmPolicy sampleConfig None None))
                 initialState))
  = [thinkingText; js "pong"].
Proof. reflexivity. Qed.

(** A message in the channel general: the envelope is addressed to the
    channel and labelled with the channel and the sender. *)
Example scenario_group_envelope :
  exists ctx,
    In (EFinalizeInboundContext ctx)
       (eventsOf (handleRocketChatMessage asciiLower acceptingProvider
                    sampleRuntime (sampleParams groupMessage sampleConfig)
                    initialState))
    /\ ChatType_ ctx = Group
    /\ From ctx = js "c1" /\ To ctx = js "c1"
    /\ ConversationLabel ctx = js "general - Alice".
Proof.
  eexists. split; [vm_compute; do 3 right; left; reflexivity|].
  repeat split.
Qed.

(** The same message answered by a markdown block: the reply posted to the
    channel carries the mention of the sender twice, the thinking notice,
    which is not markdown, once. *)
Example scenario_group_markdown_reply :
  postedTexts
    (eventsOf (handleRocketChatMessage asciiLower acceptingProvider
                 markdownRuntime (sampleParams groupMessage sampleConfig)
                 initialState))
  = [thinkingText ++ js " @u1"; js "**pong** @u1 @u1"].
Proof. reflexivity. Qed.

(** With a provider that refuses every call the pipeline still returns
    normally: each failed send is turned into a result by [sendMessage]. *)
Example scenario_provider_down :
  outcomeOf (handleRocketChatMessage asciiLower refusingProvider
               sampleRuntime
               (sampleParams sampleMessage
                             (withDmPolicy sampleConfig None None))
               initialState)
  = Ret tt.
Proof. reflexivity. Qed.

(* ================================================================== *)
(** * Runs of the further properties *)
(* ================================================================== *)

(** Scenario A's payload with a forged token: two log lines, no post. *)
Lemma invalid_token_is_dropped_witness :
  eventsOf (handleRocketChatMessage asciiLower acceptingProvider
              sampleRuntime (sampleParams forgedMessage sampleConfig)
              initialState)
  = [ELog 1 LDebug MsgFullInbound;
     ELog 1 LWarn (MsgInvalidToken (js "WRONG"))]
  /\ posts (stateOf (handleRocketChatMessage asciiLower acceptingProvider
                       sampleRuntime
                       (sampleParams forgedMessage sampleConfig)
                       initialState))
     = 0.
Proof.
  apply (@invalid_token_is_dropped asciiLower acceptingProvider sampleRuntime
           (sampleParams forgedMessage sampleConfig) initialState).
  simpl. discriminate.
Defined.

(** A message in the channel general runs the same under the allowlist
    policy of the sample configuration and under no policy at all. *)
Lemma group_message_ignores_dm_policy_witness :
  handleRocketChatMessage asciiLower acceptingProvider sampleRuntime
    (withConfig (sampleParams groupMessage sampleConfig)
                (withDmPolicy sampleConfig None None))
    initialState
  = handleRocketChatMessage asciiLower acceptingProvider sampleRuntime
      (sampleParams groupMessage sampleConfig) initialState.
Proof.
  apply (@group_message_ignores_dm_policy asciiLower acceptingProvider
           sampleRuntime (sampleParams groupMessage sampleConfig)
           initialState None None).
  reflexivity.
Defined.

(** Under the open policy a list that names only u9 changes nothing for
    the direct message from u1. *)
Lemma allow_list_read_under_allowlist_only_witness :
  handleRocketChatMessage asciiLower acceptingProvider sampleRuntime
    (withConfig (sampleParams sampleMessage openConfig)
                (withDmPolicy openConfig None (Some [js "u9"])))
    initialState
  = handleRocketChatMessage asciiLower acceptingProvider sampleRuntime
      (sampleParams sampleMessage openConfig) initialState.
Proof.
  apply (@allow_list_read_under_allowlist_only asciiLower acceptingProvider
           sampleRuntime (sampleParams sampleMessage openConfig)
           initialState (Some [js "u9"])).
  simpl. discriminate.
Defined.

(** Scenario A: a provider call of the run, and where it goes. *)
Lemma pipeline_posts_to_configured_url_witness :
  exists rq,
    In (EAxios rq)
       (eventsOf (handleRocketChatMessage asciiLower acceptingProvider
                    sampleRuntime (sampleParams sampleMessage openConfig)
                    initialState))
    /\ url rq = js "https://chat.example/hooks/out".
Proof.
  eexists.
  refine ((fun H =>
             conj H (proj1 (@pipeline_posts_to_configured_url asciiLower
                              acceptingProvider sampleRuntime
                              (sampleParams sampleMessage openConfig)
                              initialState _ H))) _).
  vm_compute. repeat first [left; reflexivity | right].
Defined.

(** Scenario A: the envelope of the run came through the gates. *)
Lemma envelope_is_gated_witness :
  exists ctx,
    In (EFinalizeInboundContext ctx)
       (eventsOf (handleRocketChatMessage asciiLower acceptingProvider
                    sampleRuntime (sampleParams sampleMessage openConfig)
                    initialState))
    /\ passesGates asciiLower openConfig sampleMessage.
Proof.
  eexists.
  refine ((fun H =>
             conj H (proj1 (@envelope_is_gated asciiLower acceptingProvider
                              sampleRuntime
                              (sampleParams sampleMessage openConfig)
                              initialState _ H))) _).
  vm_compute. repeat first [left; reflexivity | right].
Defined.

(** Scenario A: the thinking notice, then the one reply block. *)
Lemma replies_in_order_witness :
  postedTexts
    (eventsOf (handleRocketChatMessage asciiLower acceptingProvider
                 sampleRuntime (sampleParams sampleMessage openConfig)
                 initialState))
  = [thinkingText; js "pong"].
Proof.
  destruct (@replies_in_order asciiLower acceptingProvider sampleRuntime
              (sampleParams sampleMessage openConfig) initialState)
    as [ctx [_ Hposted]].
  - unfold passesGates. simpl. repeat split; discriminate.
  - rewrite Hposted. reflexivity.
Defined.

(** The id [room-42] is left as it is. *)
Lemma id_passes_unchanged_witness :
  normalizeTarget (Some (js "room-42")) = Some (js "room-42")
  /\ normalizeEntry (js "room-42") = js "room-42"
  /\ resolveTarget (Some (js "room-42")) = inr (js "room-42").
Proof.
  apply (@id_passes_unchanged asciiLower scenarioParse noForm (js "room-42")).
  reflexivity.
Defined.

(** The account named work of the sample section is listed and resolves
    under its name. *)
Lemma listed_accounts_resolve_witness :
  In (js "work") (listAccountIds (Some sampleSection))
  /\ ra_accountId (resolveAccount (Some sampleSection) (Some (js "work")))
     = js "work".
Proof.
  assert (Hin : In (js "work") (listAccountIds (Some sampleSection)))
    by (left; reflexivity).
  split; [exact Hin|].
  apply (@listed_accounts_resolve (Some sampleSection) (js "work") Hin).
  simpl. discriminate.
Defined.

(** The sample section asked for the account [constructor]: it has no such
    key, so the inherited member is resolved, under that id, and is not
    configured although the top-level configuration is. *)
Lemma resolveAccount_and_getConfig_witness :
  ra_accountId (resolveAccount (Some sampleSection) (Some (js "constructor")))
  = js "constructor"
  /\ accountIsConfigured
       (resolveAccount (Some sampleSection) (Some (js "constructor")))
     = false
  /\ isConfigured (Some sampleSection) None = true.
Proof.
  pose proof (@resolveAccount_and_getConfig (Some sampleSection)
                (js "constructor")) as H.
  cbv zeta in H.
  destruct H as [_ [_ [H _]]].
  - simpl. discriminate.
  - destruct H as [Hid [_ Hc]].
    + split; [eexists; reflexivity | split; reflexivity].
    + split; [exact Hid | split; [exact Hc | reflexivity]].
Defined.

(** Scenario A posted to the gateway route: the queued task runs the
    pipeline on the payload. *)
Lemma queued_task_runs_pipeline_witness :
  exists m,
    runTimer asciiLower acceptingProvider sampleRuntime
             (pipelineTask sampleGateway (postRequest "{}")
                           scenarioMessageBody)
    = Some m
    /\ forall s0,
        m s0
        = handleRocketChatMessage asciiLower acceptingProvider sampleRuntime
            (taskParams (pipelineTask sampleGateway (postRequest "{}")
                                      scenarioMessageBody)
                        sampleMessage)
            s0.
Proof.
  destruct (@queued_task_runs_pipeline asciiLower acceptingProvider
              sampleRuntime payloadParse noForm sampleGateway
              (postRequest "{}") initialState
              (stateOf (webhookHandler payloadParse noForm sampleGateway
                          (postRequest "{}") initialState))
              scenarioMessageBody sampleMessage)
    as [m [Hm [Hrun _]]].
  - unfold queuedFor. repeat split.
    + intros Hmiss. vm_compute in Hmiss. discriminate.
    + intros Hmiss. vm_compute in Hmiss. discriminate.
  - reflexivity.
  - exists m. split; [exact Hm | exact Hrun].
Defined.

(** A call that fails twice and then answers, under the default options:
    three calls, waits of one and two seconds. *)
Lemma retry_returns_first_success_witness :
  exists ev,
    retryWithBackoff flaky defaultRetry = Some (inr 2, ev)
    /\ callsOf ev = [0; 1; 2]
    /\ waitsOf ev = [1000%Z; 2000%Z]
    /\ totalOf (waitsOf ev) = 3000%Z.
Proof.
  apply (@retry_returns_first_success nat flaky defaultRetry 2 2).
  - vm_compute. discriminate.
  - intros j Hj. destruct j as [|[|j]].
    + eexists. reflexivity.
    + eexists. reflexivity.
    + lia.
  - reflexivity.
Defined.

(** A call that always fails, under the default options: four calls and
    the error of the fourth. *)
Lemma retry_gives_up_with_last_error_witness :
  exists ev,
    retryWithBackoff failing defaultRetry
    = Some (inl (Some {| message := js "3" |}), ev)
    /\ callsOf ev = [0; 1; 2; 3]
    /\ waitsOf ev = [1000%Z; 2000%Z; 4000%Z].
Proof.
  apply (@retry_gives_up_with_last_error nat failing defaultRetry
           (fun i => {| message := indexKey i |})).
  intros j Hj. reflexivity.
Defined.

(** The running account, stopped and then aborted: one line, no route
    unregistered. *)
Lemma stop_leaves_routes_registered_witness :
  deliverSignals unregisterOk unregisterOk (js "default") (Some 1)
                 [SigStop; SigAbort; SigStop] runningAccount
  = ({| stopped := true;
        unregisterFunctions := unregisterFunctions runningAccount |},
     [LcProviderStopped 1 (js "default")]).
Proof.
  pose proof (@stop_leaves_routes_registered unregisterOk unregisterOk
                (js "default") (Some 1) [SigAbort; SigStop] runningAccount
                eq_refl) as H.
  cbv zeta in H. destruct H as [Hs [Ht [He _]]].
  destruct (deliverSignals unregisterOk unregisterOk (js "default") (Some 1)
                           [SigStop; SigAbort; SigStop] runningAccount)
    as [[st tbl] ev].
  cbn [fst snd stopped unregisterFunctions] in Hs, Ht, He.
  rewrite Hs, Ht, He. reflexivity.
Defined.


(** Scenario A posted to the handler of [webhook-handler.ts]: the
    pipeline's two posts come before the answer 200. *)
Lemma express_handler_runs_pipeline_first_witness :
  let out := rocketChatWebhookHandler asciiLower acceptingProvider
               sampleRuntime noUntyped sampleRequest true sampleCfg
               (js "default") openConfig (Some 1) initialState in
  statusCode (res (stateS out)) = 200
  /\ posts (stateS out) = 2
  /\ postedTexts (coreEvents (eventsS out)) = [thinkingText; js "pong"].
Proof.
  cbv zeta.
  rewrite (@express_handler_runs_pipeline_first asciiLower acceptingProvider
             sampleRuntime noUntyped sampleRequest true sampleCfg
             (js "default") openConfig (Some 1) initialState sampleMessage
             eq_refl eq_refl).
  repeat split.
Defined.

(** The outbound functions asked for the account [constructor] of the
    sample section, which has no such key: the inherited member is
    resolved and has no webhook URL, so [sendMedia] answers that the channel
    is not configured without any call, and [sendText] makes its one call
    without a URL; the configured top-level URL is not used. *)
Example scenario_inherited_account_media :
  sendMedia acceptingProvider (Some sampleSection) (js "c1") (js "/tmp/a.png")
            (Some (js "constructor")) None initialState
  = (Ret {| ok := false; error := Some (js "Rocket.Chat not configured");
            data := None |}, initialState, []).
Proof. reflexivity. Qed.

Example scenario_inherited_account_text :
  requestsOf
    (coreEvents
       (eventsS (sendText acceptingProvider (Some sampleSection) (js "c1")
                          (js "hi") (Some (js "constructor")) None
                          initialState)))
  = [postJson [] {| out_text := js "hi" |}].
Proof. reflexivity. Qed.

(** Scenario A's payload read as a message: the fields it leaves out. *)
Example scenario_a_decodes :
  asInboundMessage scenarioABody
  = Some {| token := js "T"; bot := false; channel_id := [];
            channel_name := None; message_id := None; timestamp := None;
            user_id := js "u1"; user_name := js "Alice";
            text := Some (js "hi"); siteUrl := [] |}.
Proof. reflexivity. Qed.
